(** * OptimizedVacuum: a zig-zag sweep vacuum agent on a rectangular grid

    Shallow embedding of [OptimizedVacuum.py] and the properties of its
    environment ([Room]), percept builder ([get_percept]), agent policy
    ([OptimizedVacuumAgent.choose_action]), step function ([step]) and
    episode runner ([run_episode]).

    Python integers are unbounded, so they are [Z].  Python lists are
    [list]s read and written through [py_getitem] / [py_setitem], which
    reproduce Python's index rule (a negative index counts from the end,
    anything else out of range raises [IndexError]).  Action tokens are
    strings, as in the source.  The mutable [Room] and agent objects are
    threaded explicitly through the functions that mutate them. *)

From Stdlib Require Import ZArith QArith String Bool Lia.
From stdpp Require Import base list sorting.

Local Open Scope Z_scope.

(** ** Outcomes of a Python computation *)

(** A call either returns a value or raises [IndexError] (the only
    exception the modelled code can raise on integer and list data).
    [OutOfFuel] is not a Python outcome: it is what the bounded unrolling
    of the [while] loop answers when it is given too few iterations;
    [run_episode_fuel_adequate] shows [run_episode] never answers it. *)
Inductive outcome (A : Type) : Type :=
  | Ok (a : A)
  | IndexError
  | OutOfFuel.
Arguments Ok {A} a.
Arguments IndexError {A}.
Arguments OutOfFuel {A}.

Definition bind {A B : Type} (m : outcome A) (k : A -> outcome B) : outcome B :=
  match m with
  | Ok a => k a
  | IndexError => IndexError
  | OutOfFuel => OutOfFuel
  end.

Notation "x <- m ;; k" := (bind m (fun x => k))
  (at level 100, m at next level, right associativity).

(** ** Python lists *)

Section PyList.

Context {A : Type}.

(** The index normalisation of [list.__getitem__] / [list.__setitem__]:
    a negative index has the length added once. *)
Definition py_norm_index (l : list A) (i : Z) : Z :=
  if i <? 0 then i + Z.of_nat (length l) else i.

(** [l[i]] *)
Definition py_getitem (l : list A) (i : Z) : outcome A :=
  let j := py_norm_index l i in
  if (0 <=? j) && (j <? Z.of_nat (length l)) then
    match l !! Z.to_nat j with
    | Some x => Ok x
    | None => IndexError
    end
  else IndexError.

(** [l[i] = x] *)
Definition py_setitem (l : list A) (i : Z) (x : A) : outcome (list A) :=
  let j := py_norm_index l i in
  if (0 <=? j) && (j <? Z.of_nat (length l)) then
    Ok (<[Z.to_nat j := x]> l)
  else IndexError.

End PyList.

(** [range(n)]: [0, 1, ..., n-1], empty when [n <= 0]. *)
Definition py_range (n : Z) : list Z := seqZ 0 n.

(** ** Floats and the random source *)

(** The only float operation of the program is the comparison
    [rnd.random() < dirt_prob].  A finite float is a rational number and
    the comparison of finite floats is the comparison of their values, so
    finite floats are [Q]; the three special values are kept apart. *)
Inductive pyfloat : Type :=
  | Finite (q : Q)
  | PosInf
  | NegInf
  | NaN.

(** [x < p] for a finite [x]. *)
Definition float_lt (x : Q) (p : pyfloat) : bool :=
  match p with
  | Finite q => negb (Qle_bool q x)
  | PosInf => true
  | NegInf => false
  | NaN => false
  end.

(** [random.Random]: a seedable generator; [random()] returns a value in
    [0, 1) and advances the generator.  The algorithm is left abstract;
    only this contract is used. *)
Class RandomSource : Type := {
  rng : Type;
  Random : Z -> rng;
  random : rng -> Q * rng;
  random_range : forall s : rng, (0 <= fst (random s))%Q /\ (fst (random s) < 1)%Q
}.

(** A concrete generator (a linear congruential one), to evaluate the
    definitions on concrete inputs. *)
Definition lcg_modulus : positive := 2147483648%positive.

Definition lcg_next (s : Z) : Z :=
  (1103515245 * s + 12345) mod Z.pos lcg_modulus.

Definition lcg_random (s : Z) : Q * Z :=
  (Qmake (lcg_next s) lcg_modulus, lcg_next s).

Definition lcg_source : RandomSource.
Proof.
  refine {| rng := Z; Random := fun seed => seed; random := lcg_random;
            random_range := _ |}.
  intros s. unfold lcg_random, Qle, Qlt; simpl fst; simpl Qnum; simpl Qden.
  pose proof (Z.mod_pos_bound (1103515245 * s + 12345) (Z.pos lcg_modulus)
                ltac:(reflexivity)) as Hb.
  fold (lcg_next s) in Hb. lia.
Defined.

(** ** Positions, the room and the percept *)

Definition Pos : Type := Z * Z.

Record Room : Type := mkRoom {
  rows : Z;
  cols : Z;
  dirt_prob : pyfloat;
  seed : Z;
  grid : list (list bool)   (* true = dirty, false = clean *)
}.

Record Percept : Type := mkPercept {
  pos : Pos;
  dirty_here : bool;
  wall_up : bool;
  wall_down : bool;
  wall_left : bool;
  wall_right : bool
}.

Section Construction.

Context {RS : RandomSource}.

(** [[(rnd.random() < dirt_prob) for _ in range(cols)]]: one draw per
    cell, left to right. *)
Fixpoint gen_row (p : pyfloat) (n : nat) (s : rng) : list bool * rng :=
  match n with
  | O => ([], s)
  | S n' =>
      let '(x, s1) := random s in
      let '(rest, s2) := gen_row p n' s1 in
      (float_lt x p :: rest, s2)
  end.

(** The outer comprehension: the rows top to bottom, each a fresh list. *)
Fixpoint gen_grid (p : pyfloat) (m n : nat) (s : rng) : list (list bool) * rng :=
  match m with
  | O => ([], s)
  | S m' =>
      let '(row, s1) := gen_row p n s in
      let '(rest, s2) := gen_grid p m' n s1 in
      (row :: rest, s2)
  end.

(** [Room(rows, cols, dirt_prob, seed)]: the dataclass constructor followed
    by [__post_init__].  [range] of a non-positive number is empty, so
    nothing is checked and nothing can raise. *)
Definition Room_init (rows cols : Z) (dirt_prob : pyfloat) (seed : Z) : Room :=
  mkRoom rows cols dirt_prob seed
    (fst (gen_grid dirt_prob (Z.to_nat rows) (Z.to_nat cols) (Random seed))).

End Construction.

(** [Room.is_dirty] *)
Definition is_dirty (room : Room) (p : Pos) : outcome bool :=
  let '(r, c) := p in
  row <- py_getitem (grid room) r ;;
  py_getitem row c.

(** [Room.clean]: [self.grid[r][c] = False] fetches the row object and
    stores into it.  The rows are distinct objects (each built by its own
    inner comprehension), so the store changes that row only. *)
Definition clean (room : Room) (p : Pos) : outcome Room :=
  let '(r, c) := p in
  row <- py_getitem (grid room) r ;;
  row' <- py_setitem row c false ;;
  Ok (mkRoom (rows room) (cols room) (dirt_prob room) (seed room)
        (<[Z.to_nat (py_norm_index (grid room) r) := row']> (grid room))).

(** [Room.dirt_count]: the generator expression visits [range(rows)] x
    [range(cols)] and reads [self.grid[r][c]] at each pair. *)
Fixpoint count_cells (g : list (list bool)) (ps : list Pos) : outcome Z :=
  match ps with
  | [] => Ok 0
  | (r, c) :: ps' =>
      row <- py_getitem g r ;;
      b <- py_getitem row c ;;
      n <- count_cells g ps' ;;
      Ok ((if b : bool then 1 else 0) + n)
  end.

Definition range_pairs (rows cols : Z) : list Pos :=
  r ← py_range rows; c ← py_range cols; [(r, c)].

Definition dirt_count (room : Room) : outcome Z :=
  count_cells (grid room) (range_pairs (rows room) (cols room)).

(** [get_percept] *)
Definition get_percept (room : Room) (p : Pos) : outcome Percept :=
  let '(r, c) := p in
  d <- is_dirty room p ;;
  Ok (mkPercept p d (r =? 0) (r =? rows room - 1) (c =? 0) (c =? cols room - 1)).

(** ** The agent *)

Record OptimizedVacuumAgent : Type := mkAgent {
  direction : Z   (* 1 : moving right, -1 : moving left *)
}.

(** [OptimizedVacuumAgent.__init__] *)
Definition Agent_init : OptimizedVacuumAgent := mkAgent 1.

(** [OptimizedVacuumAgent.choose_action]: the action token and the agent
    after the call (the method assigns [self.direction] on the two [DOWN]
    branches). *)
Definition choose_action (self : OptimizedVacuumAgent) (percept : Percept)
  : string * OptimizedVacuumAgent :=
  if dirty_here percept then ("SUCK"%string, self)
  else if direction self =? 1 then
    if negb (wall_right percept) then ("RIGHT"%string, self)
    else if negb (wall_down percept) then ("DOWN"%string, mkAgent (-1))
    else ("NOOP"%string, self)
  else
    if negb (wall_left percept) then ("LEFT"%string, self)
    else if negb (wall_down percept) then ("DOWN"%string, mkAgent 1)
    else ("NOOP"%string, self).

(** ** The step function *)

(** [step]: the room after the call (only [SUCK] mutates it) and the
    returned position. *)
Definition step (room : Room) (p : Pos) (action : string) : outcome (Room * Pos) :=
  let '(r, c) := p in
  if String.eqb action "SUCK" then
    room' <- clean room p ;;
    Ok (room', p)
  else if String.eqb action "UP" then
    Ok (room, if 0 <? r then (r - 1, c) else p)
  else if String.eqb action "DOWN" then
    Ok (room, if r <? rows room - 1 then (r + 1, c) else p)
  else if String.eqb action "LEFT" then
    Ok (room, if 0 <? c then (r, c - 1) else p)
  else if String.eqb action "RIGHT" then
    Ok (room, if c <? cols room - 1 then (r, c + 1) else p)
  else Ok (room, p).

(** ** The episode runner *)

(** The variables of [run_episode] that the loop reads and writes. *)
Record State : Type := mkState {
  st_room : Room;
  st_agent : OptimizedVacuumAgent;
  st_pos : Pos;
  st_steps : Z
}.

(** One iteration as seen from outside: the room and position when the
    policy was asked, the action it returned, and the room and position
    after [step].  The events are a ghost trace; the program does not
    store them. *)
Record Event : Type := mkEvent {
  ev_room : Room;
  ev_pos : Pos;
  ev_action : string;
  ev_room' : Room;
  ev_pos' : Pos
}.

(** The body of the [while] loop. *)
Definition loop_body (st : State) : outcome (State * Event) :=
  percept <- get_percept (st_room st) (st_pos st) ;;
  let '(action, agent') := choose_action (st_agent st) percept in
  rp <- step (st_room st) (st_pos st) action ;;
  Ok (mkState (fst rp) agent' (snd rp) (st_steps st + 1),
      mkEvent (st_room st) (st_pos st) action (fst rp) (snd rp)).

(** [while steps_taken < max_steps and room.dirt_count() > 0: ...], unrolled
    at most [fuel] times.  [and] is short-circuit: [dirt_count] is called
    only when the first test holds. *)
Fixpoint while_loop (fuel : nat) (max_steps : Z) (st : State)
  : outcome (State * list Event) :=
  match fuel with
  | O => OutOfFuel
  | S fuel' =>
      if st_steps st <? max_steps then
        n <- dirt_count (st_room st) ;;
        if 0 <? n then
          se <- loop_body st ;;
          rest <- while_loop fuel' max_steps (fst se) ;;
          Ok (fst rest, snd se :: snd rest)
        else Ok (st, [])
      else Ok (st, [])
  end.

(** The dictionary [run_episode] returns. *)
Record EpisodeResult : Type := mkResult {
  res_rows : Z;
  res_cols : Z;
  initial_dirt : Z;
  steps_taken : Z;
  dirt_remaining : Z;
  cleaned_all : bool
}.

Section Episode.

Context {RS : RandomSource}.

(** [run_episode], together with the trace of its loop.  Each iteration
    adds one to [steps_taken], so the guard fails after at most
    [max_steps] iterations; one more unrolling evaluates the failing
    guard. *)
Definition run_episode_traced (rows cols : Z) (dirt_prob : pyfloat)
    (room_seed max_steps : Z) (start : Pos)
  : outcome (EpisodeResult * list Event) :=
  let room := Room_init rows cols dirt_prob room_seed in
  let agent := Agent_init in
  initial_dirt <- dirt_count room ;;
  fin <- while_loop (S (Z.to_nat max_steps)) max_steps
           (mkState room agent start 0) ;;
  remaining <- dirt_count (st_room (fst fin)) ;;
  remaining' <- dirt_count (st_room (fst fin)) ;;
  Ok (mkResult rows cols initial_dirt (st_steps (fst fin)) remaining
        (remaining' =? 0),
      snd fin).

Definition run_episode (rows cols : Z) (dirt_prob : pyfloat)
    (room_seed max_steps : Z) (start : Pos) : outcome EpisodeResult :=
  r <- run_episode_traced rows cols dirt_prob room_seed max_steps start ;;
  Ok (fst r).

End Episode.

(** * Vocabulary of the properties *)

(** A position inside [[0,rows) x [0,cols)]. *)
Definition in_bounds (rows cols : Z) (p : Pos) : Prop :=
  0 <= fst p < rows /\ 0 <= snd p < cols.

(** The grid of a room has the declared shape: [rows] rows of [cols]
    cells each ([range] of a negative number counts as 0). *)
Definition Room_wf (room : Room) : bool :=
  Nat.eqb (length (grid room)) (Z.to_nat (rows room))
  && forallb (fun row => Nat.eqb (length row) (Z.to_nat (cols room))) (grid room).

(** The dirt flag of a cell at non-negative coordinates ([false] outside
    the grid). *)
Definition cell (g : list (list bool)) (p : Pos) : bool :=
  match g !! Z.to_nat (fst p) with
  | Some row => match row !! Z.to_nat (snd p) with
                | Some b => b
                | None => false
                end
  | None => false
  end.

(** Number of dirty cells among the positions [ps]. *)
Fixpoint total (g : list (list bool)) (ps : list Pos) : Z :=
  match ps with
  | [] => 0
  | p :: ps' => (if cell g p then 1 else 0) + total g ps'
  end.

(** Number of dirty cells of a room. *)
Definition dirt (room : Room) : Z :=
  total (grid room) (range_pairs (rows room) (cols room)).

(** The cell a Python index pair designates in a well-shaped room: each
    negative coordinate has the dimension added once. *)
Definition norm_pos (room : Room) (p : Pos) : Pos :=
  (if fst p <? 0 then fst p + rows room else fst p,
   if snd p <? 0 then snd p + cols room else snd p).

(** A Python index pair that designates a cell: each coordinate lies in
    [[-n, n)] for its dimension [n]. *)
Definition indexable (rows cols : Z) (p : Pos) : Prop :=
  - rows <= fst p < rows /\ - cols <= snd p < cols.

(** A [dirt_prob] that exceeds every draw: the comparison is always true. *)
Definition certain (p : pyfloat) : Prop :=
  match p with
  | Finite q => (1 <= q)%Q
  | PosInf => True
  | NegInf => False
  | NaN => False
  end.

(** A [dirt_prob] no draw is below: the comparison is always false. *)
Definition impossible (p : pyfloat) : Prop :=
  match p with
  | Finite q => (q <= 0)%Q
  | PosInf => False
  | NegInf => True
  | NaN => True
  end.

(** ** The step function as described *)

(** The contract of the step function in the words of its description: a
    directional action has a target one cell away; the move is made when
    the target is inside the grid and is a no-op otherwise; every other
    token keeps the position. *)
Definition delta (action : string) : option (Z * Z) :=
  if String.eqb action "UP" then Some (-1, 0)
  else if String.eqb action "DOWN" then Some (1, 0)
  else if String.eqb action "LEFT" then Some (0, -1)
  else if String.eqb action "RIGHT" then Some (0, 1)
  else None.

Definition in_boundsb (rows cols : Z) (p : Pos) : bool :=
  (0 <=? fst p) && (fst p <? rows) && (0 <=? snd p) && (snd p <? cols).

Definition clamped_move (rows cols : Z) (p : Pos) (action : string) : Pos :=
  match delta action with
  | Some (dr, dc) =>
      let t := (fst p + dr, snd p + dc) in
      if in_boundsb rows cols t then t else p
  | None => p
  end.

(** ** The policy as a two-state machine *)

Inductive SweepDir : Type := Rightward | Leftward.

Definition encode (d : SweepDir) : Z :=
  match d with Rightward => 1 | Leftward => -1 end.

(** The decision rule in the words of its description: the action and the
    next state. *)
Definition policy (d : SweepDir) (p : Percept) : string * SweepDir :=
  if dirty_here p then ("SUCK"%string, d)
  else match d with
       | Rightward =>
           if negb (wall_right p) then ("RIGHT"%string, Rightward)
           else if negb (wall_down p) then ("DOWN"%string, Leftward)
           else ("NOOP"%string, Rightward)
       | Leftward =>
           if negb (wall_left p) then ("LEFT"%string, Leftward)
           else if negb (wall_down p) then ("DOWN"%string, Rightward)
           else ("NOOP"%string, Leftward)
       end.

(** ** The executions of the loop *)

(** The percept [get_percept] builds once the dirt flag [b] is read. *)
Definition percept_of (room : Room) (p : Pos) (b : bool) : Percept :=
  mkPercept p b (fst p =? 0) (fst p =? rows room - 1)
    (snd p =? 0) (snd p =? cols room - 1).

(** The executions of the [while] loop: from [st], the iterations recorded
    in the trace lead to the state [fin] in which the guard fails. *)
Inductive runs (max_steps : Z) : State -> list Event -> State -> Prop :=
  | runs_budget st :
      max_steps <= st_steps st ->
      runs max_steps st [] st
  | runs_clean st n :
      st_steps st < max_steps ->
      dirt_count (st_room st) = Ok n -> n <= 0 ->
      runs max_steps st [] st
  | runs_iter st n st' e tr fin :
      st_steps st < max_steps ->
      dirt_count (st_room st) = Ok n -> 0 < n ->
      loop_body st = Ok (st', e) ->
      runs max_steps st' tr fin ->
      runs max_steps st (e :: tr) fin.

(** ** Invariants of the episode *)

(** The room is well shaped, of dimensions [R] x [C], and the agent is on
    one of its cells. *)
Definition Safe (R C : Z) (st : State) : Prop :=
  Room_wf (st_room st) = true /\
  rows (st_room st) = R /\ cols (st_room st) = C /\
  in_bounds R C (st_pos st).

(** Rank of a cell in the serpentine order of a grid with [C] columns: even
    rows are counted left to right, odd rows right to left. *)
Definition idx (C : Z) (p : Pos) : Z :=
  fst p * C + (if Z.even (fst p) then snd p else C - 1 - snd p).

(** The sweep direction that belongs to a row: 1 on even rows, -1 on odd. *)
Definition heading (r : Z) : Z := if Z.even r then 1 else -1.

(** The agent is sweeping: it is on a cell of the grid, it heads the way
    its row is swept, and every cell that comes before its own in the
    serpentine order is clean. *)
Definition Sweep (R C : Z) (st : State) : Prop :=
  Safe R C st /\
  direction (st_agent st) = heading (fst (st_pos st)) /\
  forall q, in_bounds R C q -> idx C q < idx C (st_pos st) ->
    cell (grid (st_room st)) q = false.

(** Every cell after the agent's in the serpentine order is still dirty. *)
Definition Ahead (R C : Z) (st : State) : Prop :=
  forall q, in_bounds R C q -> idx C (st_pos st) < idx C q ->
    cell (grid (st_room st)) q = true.

(** ** Visited positions and the boustrophedon order *)

(** The positions the agent occupies, in order: its start and the position
    after every action other than [SUCK] (which does not move). *)
Definition visited (start : Pos) (tr : list Event) : list Pos :=
  start :: map ev_pos'
             (List.filter (fun e => negb (String.eqb (ev_action e) "SUCK")) tr).

(** The cells of row [r], left to right on an even row and right to left on
    an odd one. *)
Definition row_cells (C r : Z) : list Pos :=
  if Z.even r then map (fun c => (r, c)) (seqZ 0 C)
  else map (fun c => (r, c)) (reverse (seqZ 0 C)).

(** Row 0 left to right, then row 1 right to left, then row 2 left to
    right, and so on down the grid. *)
Definition boustrophedon (R C : Z) : list Pos :=
  flat_map (row_cells C) (seqZ 0 R).

(** The last cell of the serpentine order. *)
Definition last_cell (R C : Z) : Pos :=
  (R - 1, if Z.even (R - 1) then C - 1 else 0).

(** ** Rooms up to the fields no method reads *)

(** The room with its [dirt_prob] and [seed] fields blanked: the fields no
    method reads after construction. *)
Definition forget (room : Room) : Room :=
  mkRoom (rows room) (cols room) NaN 0 (grid room).

Definition forget_state (st : State) : State :=
  mkState (forget (st_room st)) (st_agent st) (st_pos st) (st_steps st).

Definition forget_event (e : Event) : Event :=
  mkEvent (forget (ev_room e)) (ev_pos e) (ev_action e)
    (forget (ev_room' e)) (ev_pos' e).

Definition omap {A B : Type} (f : A -> B) (m : outcome A) : outcome B :=
  x <- m ;; Ok (f x).

(** Two values of [dirt_prob] that are the same number. *)
Definition float_same (p1 p2 : pyfloat) : Prop :=
  match p1, p2 with
  | Finite q1, Finite q2 => (q1 == q2)%Q
  | PosInf, PosInf => True
  | NegInf, NegInf => True
  | NaN, NaN => True
  | _, _ => False
  end.

Section EpisodeStates.

Context {RS : RandomSource}.

(** The state in which [run_episode] enters its loop. *)
Definition initial_state (rows cols : Z) (p : pyfloat) (seed : Z) (start : Pos)
  : State :=
  mkState (Room_init rows cols p seed) Agent_init start 0.

(** The dictionary built from the state in which the loop ends. *)
Definition result_of (rows cols : Z) (p : pyfloat) (seed : Z) (fin : State)
  : EpisodeResult :=
  mkResult rows cols (dirt (Room_init rows cols p seed)) (st_steps fin)
    (dirt (st_room fin)) (dirt (st_room fin) =? 0).

End EpisodeStates.

(** * Vocabulary of the further properties *)

(** How many iterations of a trace answered the action [a]. *)
Definition count_action (a : string) (tr : list Event) : Z :=
  Z.of_nat (length (List.filter (fun e => String.eqb (ev_action e) a) tr)).

(** Distance in moves between two positions. *)
Definition manhattan (p q : Pos) : Z :=
  Z.abs (fst q - fst p) + Z.abs (snd q - snd p).

Section Draws.

Context {RS : RandomSource}.

(** The generator after [k] calls of [random()]. *)
Fixpoint advance (k : nat) (s : rng) : rng :=
  match k with
  | O => s
  | S k' => advance k' (snd (random s))
  end.

(** The value the [k]-th call of [random()] returns (counting from 0). *)
Definition nth_draw (s : rng) (k : nat) : Q := fst (random (advance k s)).

End Draws.

(** ** The benchmark *)

(** The two exceptions the summary statistics can raise. *)
Inductive py_error : Type := StatisticsError | ValueError.

(** [statistics.mean] on integers: the exact quotient of the sum by the
    count (Python converts it to the nearest float afterwards); it raises
    [StatisticsError] on empty data. *)
Definition py_mean (data : list Z) : py_error + Q :=
  match data with
  | [] => inl StatisticsError
  | _ :: rest => inr (Qmake (fold_right Z.add 0 data) (Pos.of_succ_nat (length rest)))
  end.

(** [statistics.median] on integers: the middle element of the sorted data,
    or half the sum of the two middle ones; it raises [StatisticsError] on
    empty data. *)
Definition py_median (data : list Z) : py_error + Q :=
  let sorted := merge_sort Z.le data in
  let n := length sorted in
  if Nat.eqb n 0 then inl StatisticsError
  else if Nat.odd n then inr (inject_Z (nth (n / 2) sorted 0))
  else inr (Qmake (nth (n / 2 - 1) sorted 0 + nth (n / 2) sorted 0) 2).

(** [min] and [max] of a list: [ValueError] on an empty one. *)
Definition py_min (data : list Z) : py_error + Z :=
  match data with
  | [] => inl ValueError
  | x :: rest => inr (fold_left Z.min rest x)
  end.

Definition py_max (data : list Z) : py_error + Z :=
  match data with
  | [] => inl ValueError
  | x :: rest => inr (fold_left Z.max rest x)
  end.

(** The four numbers of the last line [benchmark] prints. *)
Record Stats : Type := mkStats {
  avg_steps : Q;
  median_steps : Q;
  min_steps : Z;
  max_steps_seen : Z
}.

(** What a call of [benchmark] that ran all its episodes does next: it
    prints its four lines, of which [success] and the statistics are the
    computed part (the rounding of [.1f] is not modelled), or it prints the
    first three lines, [success] among them, and then raises. *)
Inductive Report : Type :=
  | Printed (success : Z) (stats : Stats)
  | Raised (success : Z) (e : py_error).

Section Benchmark.

Context {RS : RandomSource}.

(** The [for t in range(trials)] loop: one episode per trial, seeded with
    [1000 + t], with a budget of 2000 steps, started at the default (0,0);
    the records are appended in order. *)
Fixpoint run_trials (rows cols : Z) (dirt_prob : pyfloat) (ts : list Z)
  : outcome (list EpisodeResult) :=
  match ts with
  | [] => Ok []
  | t :: ts' =>
      res <- run_episode rows cols dirt_prob (1000 + t) 2000 (0, 0) ;;
      results <- run_trials rows cols dirt_prob ts' ;;
      Ok (res :: results)
  end.

(** [benchmark]: the episodes, then [steps] and [success], then the
    statistics in the order the last f-string evaluates them. *)
Definition benchmark (trials rows cols : Z) (dirt_prob : pyfloat) : outcome Report :=
  results <- run_trials rows cols dirt_prob (py_range trials) ;;
  let steps := map steps_taken results in
  let success := Z.of_nat (length (List.filter cleaned_all results)) in
  Ok match py_mean steps with
     | inl e => Raised success e
     | inr avg =>
         match py_median steps with
         | inl e => Raised success e
         | inr med =>
             match py_min steps with
             | inl e => Raised success e
             | inr lo =>
                 match py_max steps with
                 | inl e => Raised success e
                 | inr hi => Printed success (mkStats avg med lo hi)
                 end
             end
         end
     end.

End Benchmark.

(** The room after the last iteration of a trace, or the room the episode
    started with when the trace is empty. *)
Definition final_room (room0 : Room) (tr : list Event) : Room :=
  match last tr with
  | Some e => ev_room' e
  | None => room0
  end.

(** * Facts *)

(** ** Facts about Python lists and ranges *)

Lemma py_getitem_Ok {A} (l : list A) (i : Z) (x : A) :
  py_getitem l i = Ok x <->
  0 <= py_norm_index l i < Z.of_nat (length l) /\
  l !! Z.to_nat (py_norm_index l i) = Some x.
Proof.
  unfold py_getitem.
  destruct (0 <=? py_norm_index l i) eqn:H0; simpl.
  2:{ split; [discriminate | lia]. }
  destruct (py_norm_index l i <? Z.of_nat (length l)) eqn:H1.
  2:{ split; [discriminate | lia]. }
  destruct (l !! Z.to_nat (py_norm_index l i)) as [y|] eqn:Hl.
  - split.
    + intros [= ->]. split; [lia | reflexivity].
    + intros [_ [= ->]]. reflexivity.
  - split; [discriminate | intros [_ ?]; discriminate].
Qed.

Lemma py_getitem_total {A} (l : list A) (i : Z) :
  0 <= py_norm_index l i < Z.of_nat (length l) ->
  exists x, py_getitem l i = Ok x.
Proof.
  intros H.
  destruct (lookup_lt_is_Some_2 l (Z.to_nat (py_norm_index l i))) as [x Hx];
    [lia |].
  exists x. apply py_getitem_Ok. auto.
Qed.

Lemma py_getitem_no_fuel {A} (l : list A) (i : Z) : py_getitem l i <> OutOfFuel.
Proof.
  unfold py_getitem.
  destruct (_ && _); [destruct (l !! _) |]; discriminate.
Qed.

Lemma py_setitem_Ok {A} (l l' : list A) (i : Z) (x : A) :
  py_setitem l i x = Ok l' <->
  0 <= py_norm_index l i < Z.of_nat (length l) /\
  l' = <[Z.to_nat (py_norm_index l i) := x]> l.
Proof.
  unfold py_setitem.
  destruct (0 <=? py_norm_index l i) eqn:H0; simpl.
  2:{ split; [discriminate | lia]. }
  destruct (py_norm_index l i <? Z.of_nat (length l)) eqn:H1.
  2:{ split; [discriminate | lia]. }
  split.
  - intros [= <-]. split; [lia | reflexivity].
  - intros [_ ->]. reflexivity.
Qed.

Lemma elem_of_py_range (n k : Z) : k ∈ py_range n <-> 0 <= k < n.
Proof. unfold py_range. rewrite elem_of_seqZ. lia. Qed.

Lemma elem_of_range_pairs (rows cols : Z) (p : Pos) :
  p ∈ range_pairs rows cols <-> in_bounds rows cols p.
Proof.
  unfold range_pairs, in_bounds. rewrite list_elem_of_bind. split.
  - intros (r & Hp & Hr). apply list_elem_of_bind in Hp as (c & Hp & Hc).
    apply list_elem_of_singleton in Hp as ->.
    apply elem_of_py_range in Hr, Hc. simpl. lia.
  - intros [Hr Hc]. destruct p as [r c]. simpl in *.
    exists r. split; [| apply elem_of_py_range; lia].
    apply list_elem_of_bind. exists c.
    split; [apply list_elem_of_singleton; reflexivity | apply elem_of_py_range; lia].
Qed.

Lemma length_range_pairs (rows cols : Z) :
  Z.of_nat (length (range_pairs rows cols)) = Z.max 0 rows * Z.max 0 cols.
Proof.
  unfold range_pairs, py_range.
  assert (Hin : forall r : Z,
             length (seqZ 0 cols ≫= (fun c => [(r, c)])) = Z.to_nat cols).
  { intros r. rewrite <- (length_seqZ 0 cols).
    induction (seqZ 0 cols) as [|c l IH]; simpl; [reflexivity | f_equal; exact IH]. }
  assert (Hout : forall l : list Z,
             length (l ≫= (fun r => seqZ 0 cols ≫= (fun c => [(r, c)])))
             = (length l * Z.to_nat cols)%nat).
  { induction l as [|r l IH]; simpl; [reflexivity |].
    rewrite length_app, Hin. f_equal. exact IH. }
  rewrite Hout, length_seqZ. lia.
Qed.

(** ** Facts about the room *)

Lemma Room_wf_spec (room : Room) :
  Room_wf room = true <->
  length (grid room) = Z.to_nat (rows room) /\
  forall i row, grid room !! i = Some row -> length row = Z.to_nat (cols room).
Proof.
  unfold Room_wf. rewrite andb_true_iff, Nat.eqb_eq, forallb_forall.
  split; intros [Hl Hr]; split; try exact Hl.
  - intros i row Hi. apply Nat.eqb_eq, Hr.
    apply list_elem_of_In. eapply list_elem_of_lookup_2; eauto.
  - intros row Hin. apply Nat.eqb_eq.
    apply list_elem_of_In, list_elem_of_lookup_1 in Hin as [i Hi]. eauto.
Qed.

Lemma in_bounds_indexable (rows cols : Z) (p : Pos) :
  in_bounds rows cols p -> indexable rows cols p.
Proof. unfold in_bounds, indexable. lia. Qed.

Lemma norm_pos_in_bounds (room : Room) (p : Pos) :
  in_bounds (rows room) (cols room) p -> norm_pos room p = p.
Proof.
  destruct p as [r c]. unfold in_bounds, norm_pos. simpl. intros [Hr Hc].
  destruct (Z.ltb_spec r 0), (Z.ltb_spec c 0); try lia. reflexivity.
Qed.

Lemma indexable_norm_pos (room : Room) (p : Pos) :
  indexable (rows room) (cols room) p <->
  in_bounds (rows room) (cols room) (norm_pos room p).
Proof.
  destruct p as [r c]. unfold in_bounds, indexable, norm_pos. simpl.
  destruct (Z.ltb_spec r 0), (Z.ltb_spec c 0); lia.
Qed.

(** Reading [grid[r][c]] in a well-shaped room: it succeeds exactly on the
    indexable pairs and then reads the designated cell. *)
Lemma grid_read (room : Room) (p : Pos) :
  Room_wf room = true ->
  indexable (rows room) (cols room) p ->
  exists row,
    py_getitem (grid room) (fst p) = Ok row /\
    py_norm_index (grid room) (fst p) = fst (norm_pos room p) /\
    grid room !! Z.to_nat (fst (norm_pos room p)) = Some row /\
    py_norm_index row (snd p) = snd (norm_pos room p) /\
    0 <= snd (norm_pos room p) < Z.of_nat (length row) /\
    py_getitem row (snd p) = Ok (cell (grid room) (norm_pos room p)).
Proof.
  intros Hwf Hix. apply Room_wf_spec in Hwf as [Hlen Hrows].
  pose proof (proj1 (indexable_norm_pos room p) Hix) as [Hr Hc].
  destruct p as [r c]. unfold indexable in Hix. simpl in *.
  assert (Hnr : py_norm_index (grid room) r = (if r <? 0 then r + rows room else r)).
  { unfold py_norm_index. rewrite Hlen. destruct (r <? 0); lia. }
  destruct (py_getitem_total (grid room) r) as [row Hrow]; [rewrite Hnr; lia |].
  exists row. pose proof Hrow as Hrow'.
  apply py_getitem_Ok in Hrow' as [_ Hlk]. rewrite Hnr in Hlk.
  pose proof (Hrows _ _ Hlk) as Hlrow.
  assert (Hnc : py_norm_index row c = (if c <? 0 then c + cols room else c)).
  { unfold py_norm_index. rewrite Hlrow. destruct (c <? 0); lia. }
  repeat split; auto; try lia.
  destruct (py_getitem_total row c) as [b Hb]; [rewrite Hnc; lia |].
  rewrite Hb. f_equal. apply py_getitem_Ok in Hb as [_ Hb]. rewrite Hnc in Hb.
  unfold cell. simpl. rewrite Hlk, Hb. reflexivity.
Qed.

(** ... and it raises [IndexError] on every other pair. *)
Lemma grid_read_error (room : Room) (p : Pos) :
  Room_wf room = true ->
  ~ indexable (rows room) (cols room) p ->
  py_getitem (grid room) (fst p) = IndexError \/
  exists row, py_getitem (grid room) (fst p) = Ok row /\
              ~ (0 <= py_norm_index row (snd p) < Z.of_nat (length row)).
Proof.
  intros Hwf Hix. apply Room_wf_spec in Hwf as [Hlen Hrows].
  destruct p as [r c]. unfold indexable in Hix. simpl in *.
  destruct (py_getitem (grid room) r) as [row| |] eqn:Hrow.
  - right. exists row. split; [reflexivity |].
    apply py_getitem_Ok in Hrow as [Hb Hlk].
    pose proof (Hrows _ _ Hlk) as Hlrow.
    unfold py_norm_index in *. rewrite Hlrow. rewrite Hlen in Hb.
    destruct (r <? 0) eqn:Er, (c <? 0) eqn:Ec; lia.
  - left. reflexivity.
  - exfalso. eapply py_getitem_no_fuel; eauto.
Qed.

Lemma is_dirty_indexable (room : Room) (p : Pos) :
  Room_wf room = true ->
  indexable (rows room) (cols room) p ->
  is_dirty room p = Ok (cell (grid room) (norm_pos room p)).
Proof.
  intros Hwf Hix. destruct (grid_read room p Hwf Hix) as (row & H1 & _ & _ & _ & _ & H2).
  destruct p as [r c]. unfold is_dirty. simpl in *. rewrite H1. simpl. exact H2.
Qed.

Lemma is_dirty_in_bounds (room : Room) (p : Pos) :
  Room_wf room = true ->
  in_bounds (rows room) (cols room) p ->
  is_dirty room p = Ok (cell (grid room) p).
Proof.
  intros Hwf Hin. rewrite is_dirty_indexable by auto using in_bounds_indexable.
  rewrite norm_pos_in_bounds by assumption. reflexivity.
Qed.

Lemma is_dirty_error (room : Room) (p : Pos) :
  Room_wf room = true ->
  ~ indexable (rows room) (cols room) p ->
  is_dirty room p = IndexError.
Proof.
  intros Hwf Hix. destruct (grid_read_error room p Hwf Hix) as [H | (row & H1 & H2)];
    destruct p as [r c]; unfold is_dirty; simpl in *; rewrite ?H, ?H1; simpl; auto.
  unfold py_getitem.
  destruct (0 <=? py_norm_index row c) eqn:E0; simpl; auto.
  destruct (py_norm_index row c <? Z.of_nat (length row)) eqn:E1; auto. lia.
Qed.

Lemma clean_error (room : Room) (p : Pos) :
  Room_wf room = true ->
  ~ indexable (rows room) (cols room) p ->
  clean room p = IndexError.
Proof.
  intros Hwf Hix. destruct (grid_read_error room p Hwf Hix) as [H | (row & H1 & H2)];
    destruct p as [r c]; unfold clean; simpl in *; rewrite ?H, ?H1; simpl; auto.
  unfold py_setitem.
  destruct (0 <=? py_norm_index row c) eqn:E0; simpl; auto.
  destruct (py_norm_index row c <? Z.of_nat (length row)) eqn:E1; auto. lia.
Qed.

(** [clean] on an indexable pair: the designated cell becomes clean, every
    other cell keeps its flag, and the shape is kept. *)
Lemma clean_indexable (room : Room) (p : Pos) :
  Room_wf room = true ->
  indexable (rows room) (cols room) p ->
  exists room',
    clean room p = Ok room' /\
    Room_wf room' = true /\
    rows room' = rows room /\ cols room' = cols room /\
    forall q, 0 <= fst q -> 0 <= snd q ->
      cell (grid room') q =
      if decide (q = norm_pos room p) then false else cell (grid room) q.
Proof.
  intros Hwf Hix.
  destruct (grid_read room p Hwf Hix) as (row & H1 & Hnr & Hlk & Hnc & Hcb & _).
  pose proof (proj1 (indexable_norm_pos room p) Hix) as [Hr Hc].
  pose proof (proj1 (Room_wf_spec room) Hwf) as [Hlen Hrows].
  remember (fst (norm_pos room p)) as nr eqn:Enr.
  remember (snd (norm_pos room p)) as nc eqn:Enc.
  destruct p as [r c]. cbn [fst snd] in H1, Hnr, Hnc.
  eexists. split.
  { unfold clean. rewrite H1. simpl. unfold py_setitem. rewrite Hnc.
    destruct (Z.leb_spec 0 nc); [| lia].
    destruct (Z.ltb_spec nc (Z.of_nat (length row))); [| lia].
    simpl. rewrite Hnr. reflexivity. }
  simpl. split; [| split; [reflexivity | split; [reflexivity |]]].
  - apply Room_wf_spec. simpl. rewrite length_insert. split; [exact Hlen |].
    intros i row' Hi.
    destruct (decide (Z.to_nat nr = i)) as [<- | Hne].
    + rewrite list_lookup_insert_eq in Hi by lia.
      injection Hi as <-. rewrite length_insert. eauto.
    + rewrite list_lookup_insert_ne in Hi by assumption. eauto.
  - assert (Hn : norm_pos room (r, c) = (nr, nc)).
    { rewrite Enr, Enc. destruct (norm_pos room (r, c)); reflexivity. }
    rewrite Hn. clear Hn Enr Enc.
    intros [r' c'] Hr' Hc'. simpl in *. unfold cell. simpl.
    destruct (decide ((r', c') = (nr, nc))) as [[= -> ->] | Hne].
    + rewrite list_lookup_insert_eq by lia.
      rewrite list_lookup_insert_eq by lia. reflexivity.
    + destruct (decide (Z.to_nat nr = Z.to_nat r')) as [Heqr | Hner].
      * rewrite <- Heqr. rewrite list_lookup_insert_eq by lia. rewrite Hlk.
        rewrite list_lookup_insert_ne; [reflexivity |].
        intros Heqc. apply Hne. f_equal; lia.
      * rewrite list_lookup_insert_ne by assumption. reflexivity.
Qed.

(** ** Counting dirt *)

Lemma total_nonneg (g : list (list bool)) (ps : list Pos) : 0 <= total g ps.
Proof. induction ps as [|p ps IH]; simpl; [lia | destruct (cell g p); lia]. Qed.

Lemma total_le_length (g : list (list bool)) (ps : list Pos) :
  total g ps <= Z.of_nat (length ps).
Proof. induction ps as [|p ps IH]; simpl; [lia | destruct (cell g p); lia]. Qed.

(** Cleaning never adds dirt: a pointwise smaller grid has a smaller count. *)
Lemma total_mono (g g' : list (list bool)) (ps : list Pos) :
  (forall p, p ∈ ps -> cell g' p = true -> cell g p = true) ->
  total g' ps <= total g ps.
Proof.
  induction ps as [|p ps IH]; simpl; intros H; [lia |].
  assert (total g' ps <= total g ps).
  { apply IH. intros q Hq. apply H. now apply list_elem_of_further. }
  destruct (cell g' p) eqn:E.
  - rewrite (H p (list_elem_of_here _ _) E). lia.
  - destruct (cell g p); lia.
Qed.

Lemma total_strict (g g' : list (list bool)) (ps : list Pos) (p0 : Pos) :
  (forall p, p ∈ ps -> cell g' p = true -> cell g p = true) ->
  p0 ∈ ps -> cell g p0 = true -> cell g' p0 = false ->
  total g' ps < total g ps.
Proof.
  induction ps as [|p ps IH]; simpl; intros H Hin Hd Hc.
  - apply elem_of_nil in Hin. contradiction.
  - assert (Hrest : forall q, q ∈ ps -> cell g' q = true -> cell g q = true).
    { intros q Hq. apply H. now apply list_elem_of_further. }
    pose proof (total_mono g g' ps Hrest).
    apply elem_of_cons in Hin as [<- | Hin].
    + rewrite Hd, Hc. lia.
    + pose proof (IH Hrest Hin Hd Hc).
      destruct (cell g' p) eqn:E.
      * rewrite (H p (list_elem_of_here _ _) E). lia.
      * destruct (cell g p); lia.
Qed.

Lemma total_zero (g : list (list bool)) (ps : list Pos) :
  total g ps = 0 <-> forall p, p ∈ ps -> cell g p = false.
Proof.
  induction ps as [|p ps IH]; simpl.
  - split; [intros _ p Hp; apply elem_of_nil in Hp; contradiction | reflexivity].
  - pose proof (total_nonneg g ps). split.
    + intros Hz q Hq. apply elem_of_cons in Hq as [-> | Hq].
      * destruct (cell g p); [lia | reflexivity].
      * apply IH; [destruct (cell g p); lia | assumption].
    + intros Hall. rewrite (Hall p (list_elem_of_here _ _)).
      rewrite (proj2 IH); [reflexivity |].
      intros q Hq. apply Hall. now apply list_elem_of_further.
Qed.

Lemma count_cells_in_bounds (room : Room) (ps : list Pos) :
  Room_wf room = true ->
  (forall p, p ∈ ps -> in_bounds (rows room) (cols room) p) ->
  count_cells (grid room) ps = Ok (total (grid room) ps).
Proof.
  intros Hwf. induction ps as [|[r c] ps IH]; simpl; intros Hin; [reflexivity |].
  pose proof (Hin (r, c) (list_elem_of_here _ _)) as Hp.
  destruct (grid_read room (r, c) Hwf (in_bounds_indexable _ _ _ Hp))
    as (row & H1 & _ & _ & _ & _ & H2).
  rewrite (norm_pos_in_bounds room (r, c) Hp) in H2. simpl in H1, H2.
  rewrite H1. simpl. rewrite H2. simpl.
  rewrite IH; [reflexivity |].
  intros q Hq. apply Hin. now apply list_elem_of_further.
Qed.

(** In a well-shaped room [dirt_count] returns, and returns the number of
    dirty cells. *)
Lemma dirt_count_wf (room : Room) :
  Room_wf room = true -> dirt_count room = Ok (dirt room).
Proof.
  intros Hwf. unfold dirt_count, dirt. apply count_cells_in_bounds; [exact Hwf |].
  intros p Hp. now apply elem_of_range_pairs.
Qed.

Lemma dirt_bounds (room : Room) :
  0 <= dirt room <= Z.max 0 (rows room) * Z.max 0 (cols room).
Proof.
  unfold dirt. split; [apply total_nonneg |].
  rewrite <- length_range_pairs. apply total_le_length.
Qed.

Lemma dirt_zero (room : Room) :
  dirt room = 0 <->
  forall p, in_bounds (rows room) (cols room) p -> cell (grid room) p = false.
Proof.
  unfold dirt. rewrite total_zero. split; intros H p Hp; apply H;
    now apply elem_of_range_pairs.
Qed.

(** ** Facts about construction *)

Section ConstructionFacts.

Context {RS : RandomSource}.

Lemma float_lt_certain (p : pyfloat) (s : rng) :
  certain p -> float_lt (fst (random s)) p = true.
Proof.
  destruct (random_range s) as [_ H1].
  destruct p as [q| | |]; simpl; intros Hc; try tauto.
  apply negb_true_iff. destruct (Qle_bool q (fst (random s))) eqn:E; [| reflexivity].
  apply Qle_bool_iff in E. exfalso.
  apply (Qlt_irrefl 1). eapply Qle_lt_trans; [exact Hc |].
  eapply Qle_lt_trans; [exact E | exact H1].
Qed.

Lemma float_lt_impossible (p : pyfloat) (s : rng) :
  impossible p -> float_lt (fst (random s)) p = false.
Proof.
  destruct (random_range s) as [H0 _].
  destruct p as [q| | |]; simpl; intros Hc; try tauto.
  apply negb_false_iff. apply Qle_bool_iff.
  eapply Qle_trans; [exact Hc | exact H0].
Qed.

Lemma gen_row_length (p : pyfloat) (n : nat) (s : rng) :
  length (fst (gen_row p n s)) = n.
Proof.
  revert s. induction n as [|n IH]; intros s; simpl; [reflexivity |].
  destruct (random s) as [x s1]. specialize (IH s1).
  destruct (gen_row p n s1) as [rest s2]. simpl in *. now rewrite IH.
Qed.

Lemma gen_grid_shape (p : pyfloat) (m n : nat) (s : rng) :
  length (fst (gen_grid p m n s)) = m /\
  forall row, In row (fst (gen_grid p m n s)) -> length row = n.
Proof.
  revert s. induction m as [|m IH]; intros s; simpl.
  - split; [reflexivity | intros row []].
  - pose proof (gen_row_length p n s) as Hl.
    destruct (gen_row p n s) as [row s1]. specialize (IH s1).
    destruct (gen_grid p m n s1) as [rest s2]. simpl in *.
    destruct IH as [IH1 IH2]. split; [now rewrite IH1 |].
    intros row' [<- | Hin]; auto.
Qed.

(** The constructor builds a well-shaped room, whatever its arguments. *)
Lemma Room_init_wf (rows cols : Z) (p : pyfloat) (seed : Z) :
  Room_wf (Room_init rows cols p seed) = true.
Proof.
  unfold Room_wf, Room_init. simpl.
  destruct (gen_grid_shape p (Z.to_nat rows) (Z.to_nat cols) (Random seed)) as [H1 H2].
  apply andb_true_iff. split; [now apply Nat.eqb_eq |].
  apply forallb_forall. intros row Hin. apply Nat.eqb_eq. auto.
Qed.

Lemma gen_row_const (p : pyfloat) (b : bool) (n : nat) (s : rng) :
  (forall s', float_lt (fst (random s')) p = b) ->
  fst (gen_row p n s) = replicate n b.
Proof.
  intros Hb. revert s. induction n as [|n IH]; intros s; simpl; [reflexivity |].
  pose proof (Hb s) as Hs.
  destruct (random s) as [x s1]. specialize (IH s1).
  destruct (gen_row p n s1) as [rest s2]. simpl in *. now rewrite Hs, IH.
Qed.

Lemma gen_grid_const (p : pyfloat) (b : bool) (m n : nat) (s : rng) :
  (forall s', float_lt (fst (random s')) p = b) ->
  fst (gen_grid p m n s) = replicate m (replicate n b).
Proof.
  intros Hb. revert s. induction m as [|m IH]; intros s; simpl; [reflexivity |].
  pose proof (gen_row_const p b n s Hb) as Hr.
  destruct (gen_row p n s) as [row s1]. specialize (IH s1).
  destruct (gen_grid p m n s1) as [rest s2]. simpl in *. now rewrite Hr, IH.
Qed.

Lemma cell_replicate (m n : nat) (b : bool) (p : Pos) :
  in_bounds (Z.of_nat m) (Z.of_nat n) p ->
  cell (replicate m (replicate n b)) p = b.
Proof.
  intros [Hr Hc]. unfold cell.
  rewrite lookup_replicate_2 by lia. rewrite lookup_replicate_2 by lia.
  reflexivity.
Qed.

(** With a certain [dirt_prob] (1.0 for instance) every cell starts dirty. *)
Lemma Room_init_all_dirty (rows cols : Z) (p : pyfloat) (seed : Z) (q : Pos) :
  certain p -> in_bounds rows cols q ->
  cell (grid (Room_init rows cols p seed)) q = true.
Proof.
  intros Hc Hq. unfold Room_init. simpl.
  rewrite (gen_grid_const p true) by (intros; now apply float_lt_certain).
  apply cell_replicate. unfold in_bounds in *. lia.
Qed.

(** With an impossible [dirt_prob] (0.0 for instance) no cell is dirty. *)
Lemma Room_init_all_clean (rows cols : Z) (p : pyfloat) (seed : Z) (q : Pos) :
  impossible p -> in_bounds rows cols q ->
  cell (grid (Room_init rows cols p seed)) q = false.
Proof.
  intros Hc Hq. unfold Room_init. simpl.
  rewrite (gen_grid_const p false) by (intros; now apply float_lt_impossible).
  apply cell_replicate. unfold in_bounds in *. lia.
Qed.

End ConstructionFacts.

(** ** The step function: what it returns *)

Lemma in_boundsb_spec (rows cols : Z) (p : Pos) :
  in_boundsb rows cols p = true <-> in_bounds rows cols p.
Proof. unfold in_boundsb, in_bounds. rewrite !andb_true_iff. lia. Qed.

Lemma indexable_dec (rows cols : Z) (p : Pos) :
  {indexable rows cols p} + {~ indexable rows cols p}.
Proof.
  unfold indexable.
  destruct (Z_le_dec (- rows) (fst p)), (Z_lt_dec (fst p) rows),
    (Z_le_dec (- cols) (snd p)), (Z_lt_dec (snd p) cols);
    first [left; lia | right; lia].
Qed.

(** Whatever [step] returns on a well-shaped room: the shape is kept, no
    cell becomes dirty, and only [SUCK] touches the room, cleaning the cell
    its position designates. *)
Lemma step_Ok (room room' : Room) (p p' : Pos) (action : string) :
  Room_wf room = true ->
  step room p action = Ok (room', p') ->
  Room_wf room' = true /\
  rows room' = rows room /\ cols room' = cols room /\
  (forall q, 0 <= fst q -> 0 <= snd q ->
     cell (grid room') q = true -> cell (grid room) q = true) /\
  (action = "SUCK"%string ->
     p' = p /\ indexable (rows room) (cols room) p /\
     forall q, 0 <= fst q -> 0 <= snd q ->
       cell (grid room') q =
       if decide (q = norm_pos room p) then false else cell (grid room) q) /\
  (action <> "SUCK"%string -> room' = room).
Proof.
  intros Hwf Hs. unfold step in Hs. destruct p as [r c].
  destruct (String.eqb_spec action "SUCK") as [-> | Hne].
  - destruct (indexable_dec (rows room) (cols room) (r, c)) as [Hix | Hix].
    + destruct (clean_indexable room (r, c) Hwf Hix)
        as (room1 & Hc & Hwf1 & Hr1 & Hc1 & Hcell).
      rewrite Hc in Hs. simpl in Hs. injection Hs as <- <-.
      split; [exact Hwf1 |]. split; [exact Hr1 |]. split; [exact Hc1 |].
      split; [| split; [auto | congruence]].
      intros q Hq1 Hq2. rewrite Hcell by assumption.
      destruct (decide _); [discriminate | auto].
    + rewrite (clean_error room (r, c) Hwf Hix) in Hs. discriminate.
  - assert (room' = room) as ->.
    { repeat (destruct (String.eqb action _)); injection Hs; auto. }
    split; [exact Hwf |]. do 3 (split; [auto |]).
    split; [intros; contradiction | reflexivity].
Qed.

(** In bounds, [step] returns, and moves as [clamped_move] says. *)
Lemma step_in_bounds (room : Room) (p : Pos) (action : string) :
  Room_wf room = true ->
  in_bounds (rows room) (cols room) p ->
  exists room',
    step room p action = Ok (room', clamped_move (rows room) (cols room) p action).
Proof.
  intros Hwf Hin. destruct p as [r c].
  destruct (String.eqb_spec action "SUCK") as [-> | Hne].
  - destruct (clean_indexable room (r, c) Hwf) as (room1 & Hc & _).
    { now apply in_bounds_indexable. }
    exists room1. unfold step. rewrite String.eqb_refl, Hc. reflexivity.
  - exists room. unfold step. apply String.eqb_neq in Hne. rewrite Hne.
    unfold clamped_move, delta, in_boundsb, in_bounds in *. simpl in *.
    destruct (String.eqb action "UP"); [| destruct (String.eqb action "DOWN");
      [| destruct (String.eqb action "LEFT"); [| destruct (String.eqb action "RIGHT")]]];
      f_equal; f_equal;
      repeat match goal with
        | |- context [Z.ltb ?a ?b] => destruct (Z.ltb_spec a b)
        | |- context [Z.leb ?a ?b] => destruct (Z.leb_spec a b)
        end; simpl; try reflexivity; try lia; f_equal; lia.
Qed.

Lemma clamped_move_in_bounds (rows cols : Z) (p : Pos) (action : string) :
  in_bounds rows cols p -> in_bounds rows cols (clamped_move rows cols p action).
Proof.
  intros Hin. unfold clamped_move. destruct (delta action) as [[dr dc]|]; [| exact Hin].
  cbv zeta. destruct (in_boundsb rows cols _) eqn:E; [| exact Hin].
  now apply in_boundsb_spec.
Qed.

(** ** The loop body and the executions of the loop *)

Lemma get_percept_Ok (room : Room) (p : Pos) (pc : Percept) :
  get_percept room p = Ok pc <->
  exists b, is_dirty room p = Ok b /\ pc = percept_of room p b.
Proof.
  unfold get_percept, percept_of. destruct p as [r c]. simpl fst. simpl snd.
  destruct (is_dirty room (r, c)) as [b| |]; simpl.
  - split; [intros [= <-]; eauto | intros (b' & [= <-] & ->); reflexivity].
  - split; [discriminate | intros (b' & Hb & _); discriminate].
  - split; [discriminate | intros (b' & Hb & _); discriminate].
Qed.

Lemma loop_body_Ok (st st' : State) (e : Event) :
  loop_body st = Ok (st', e) <->
  exists b,
    is_dirty (st_room st) (st_pos st) = Ok b /\
    let ch := choose_action (st_agent st) (percept_of (st_room st) (st_pos st) b) in
    step (st_room st) (st_pos st) (fst ch) = Ok (st_room st', st_pos st') /\
    st_agent st' = snd ch /\
    st_steps st' = st_steps st + 1 /\
    e = mkEvent (st_room st) (st_pos st) (fst ch) (st_room st') (st_pos st').
Proof.
  unfold loop_body.
  destruct (get_percept (st_room st) (st_pos st)) as [pc| |] eqn:Hp; simpl.
  - apply get_percept_Ok in Hp as (b & Hb & ->).
    destruct (choose_action _ _) as [action agent'] eqn:Hch.
    destruct (step _ _ action) as [[room' p']| |] eqn:Hs; simpl.
    + split.
      * intros [= <- <-]. exists b. rewrite Hch. simpl. auto.
      * intros (b' & Hb' & H). rewrite Hb in Hb'. injection Hb' as <-.
        rewrite Hch in H. simpl in H. destruct H as (H1 & H2 & H3 & ->).
        rewrite Hs in H1. injection H1 as -> ->.
        destruct st' as [room1 agent1 p1 n1]. simpl in *. subst. reflexivity.
    + split; [discriminate |].
      intros (b' & Hb' & H). rewrite Hb in Hb'. injection Hb' as <-.
      rewrite Hch in H. simpl in H. destruct H as (H1 & _). congruence.
    + split; [discriminate |].
      intros (b' & Hb' & H). rewrite Hb in Hb'. injection Hb' as <-.
      rewrite Hch in H. simpl in H. destruct H as (H1 & _). congruence.
  - split; [discriminate |]. intros (b & Hb & _).
    assert (H : get_percept (st_room st) (st_pos st)
                = Ok (percept_of (st_room st) (st_pos st) b))
      by (apply get_percept_Ok; eauto).
    congruence.
  - split; [discriminate |]. intros (b & Hb & _).
    assert (H : get_percept (st_room st) (st_pos st)
                = Ok (percept_of (st_room st) (st_pos st) b))
      by (apply get_percept_Ok; eauto).
    congruence.
Qed.

Lemma while_loop_runs (fuel : nat) (max_steps : Z) (st fin : State) (tr : list Event) :
  while_loop fuel max_steps st = Ok (fin, tr) -> runs max_steps st tr fin.
Proof.
  revert st fin tr. induction fuel as [|fuel IH]; intros st fin tr H; simpl in H;
    [discriminate |].
  destruct (Z.ltb_spec (st_steps st) max_steps) as [Hlt | Hge].
  2:{ injection H as <- <-. now apply runs_budget. }
  destruct (dirt_count (st_room st)) as [n| |] eqn:Hn; simpl in H; try discriminate.
  destruct (Z.ltb_spec 0 n) as [Hpos | Hz].
  2:{ injection H as <- <-. eapply runs_clean; eauto. }
  destruct (loop_body st) as [[st' e]| |] eqn:Hb; simpl in H; try discriminate.
  destruct (while_loop fuel max_steps st') as [[fin' tr']| |] eqn:Hw; simpl in H;
    try discriminate.
  injection H as <- <-. eapply runs_iter; eauto.
Qed.

(** The converse, with enough fuel: the unrolling finds every execution. *)
Lemma runs_while_loop (max_steps : Z) (st fin : State) (tr : list Event) :
  runs max_steps st tr fin ->
  forall fuel, (length tr < fuel)%nat ->
  while_loop fuel max_steps st = Ok (fin, tr).
Proof.
  induction 1 as [st Hge | st n Hlt Hn Hz | st n st' e tr fin Hlt Hn Hpos Hb Hr IH];
    intros fuel Hf; (destruct fuel as [|fuel]; [simpl in Hf; lia |]); simpl.
  - destruct (Z.ltb_spec (st_steps st) max_steps); [lia | reflexivity].
  - destruct (Z.ltb_spec (st_steps st) max_steps); [| lia].
    rewrite Hn. simpl. destruct (Z.ltb_spec 0 n); [lia | reflexivity].
  - destruct (Z.ltb_spec (st_steps st) max_steps); [| lia].
    rewrite Hn. simpl. destruct (Z.ltb_spec 0 n); [| lia].
    rewrite Hb. simpl. rewrite (IH fuel) by (simpl in Hf; lia). reflexivity.
Qed.

(** Every iteration adds one to the step counter, which stays below the
    budget while the loop runs. *)
Lemma runs_steps (max_steps : Z) (st fin : State) (tr : list Event) :
  runs max_steps st tr fin ->
  st_steps fin = st_steps st + Z.of_nat (length tr) /\
  (tr <> [] -> st_steps fin <= max_steps).
Proof.
  induction 1 as [st Hge | st n Hlt Hn Hz | st n st' e tr fin Hlt Hn Hpos Hb Hr IH];
    simpl; try (split; [lia | congruence]).
  apply loop_body_Ok in Hb as (b & _ & _ & _ & Hs & _).
  destruct IH as [IH1 IH2]. split; [lia |]. intros _.
  destruct tr as [|e' tr]; [| apply IH2; discriminate].
  simpl in *. lia.
Qed.

(** ** The unrolling is long enough *)

Lemma count_cells_no_fuel (g : list (list bool)) (ps : list Pos) :
  count_cells g ps <> OutOfFuel.
Proof.
  induction ps as [|[r c] ps IH]; simpl; [discriminate |].
  destruct (py_getitem g r) as [row| |] eqn:H1; simpl; try discriminate.
  2:{ exfalso. eapply py_getitem_no_fuel; eauto. }
  destruct (py_getitem row c) as [b| |] eqn:H2; simpl; try discriminate.
  2:{ exfalso. eapply py_getitem_no_fuel; eauto. }
  destruct (count_cells g ps); simpl; try discriminate. contradiction.
Qed.

Lemma loop_body_no_fuel (st : State) : loop_body st <> OutOfFuel.
Proof.
  unfold loop_body, get_percept, is_dirty.
  destruct (st_pos st) as [r c].
  destruct (py_getitem (grid (st_room st)) r) as [row| |] eqn:H1; simpl; try discriminate.
  2:{ exfalso. eapply py_getitem_no_fuel; eauto. }
  destruct (py_getitem row c) as [b| |] eqn:H2; simpl; try discriminate.
  2:{ exfalso. eapply py_getitem_no_fuel; eauto. }
  destruct (choose_action _ _) as [action agent'].
  unfold step, clean.
  destruct (String.eqb action "SUCK").
  - rewrite H1. simpl. unfold py_setitem. destruct (_ && _); simpl; discriminate.
  - repeat (destruct (String.eqb action _); [simpl; discriminate |]).
    simpl. discriminate.
Qed.

Lemma while_loop_no_fuel (fuel : nat) (max_steps : Z) (st : State) :
  Z.max 0 (max_steps - st_steps st) < Z.of_nat fuel ->
  while_loop fuel max_steps st <> OutOfFuel.
Proof.
  revert st. induction fuel as [|fuel IH]; intros st Hf; simpl; [lia |].
  destruct (Z.ltb_spec (st_steps st) max_steps) as [Hlt | Hge]; [| discriminate].
  destruct (dirt_count (st_room st)) as [n| |] eqn:Hn; simpl; try discriminate.
  2:{ exfalso. eapply count_cells_no_fuel; eauto. }
  destruct (0 <? n); [| discriminate].
  destruct (loop_body st) as [[st' e]| |] eqn:Hb; simpl; try discriminate.
  2:{ exfalso. eapply loop_body_no_fuel; eauto. }
  apply loop_body_Ok in Hb as (b & _ & _ & _ & Hs & _).
  specialize (IH st').
  destruct (while_loop fuel max_steps st') as [[fin tr]| |]; simpl; try discriminate.
  apply IH. lia.
Qed.

(** ** Episodes that stay inside the grid *)

(** From a safe state the body of the loop returns, and the decision and
    the move are those of the policy and of [clamped_move]. *)
Lemma loop_body_in_bounds (R C : Z) (st : State) :
  Safe R C st ->
  let b := cell (grid (st_room st)) (st_pos st) in
  let ch := choose_action (st_agent st) (percept_of (st_room st) (st_pos st) b) in
  let p' := clamped_move R C (st_pos st) (fst ch) in
  exists room',
    step (st_room st) (st_pos st) (fst ch) = Ok (room', p') /\
    loop_body st =
      Ok (mkState room' (snd ch) p' (st_steps st + 1),
          mkEvent (st_room st) (st_pos st) (fst ch) room' p') /\
    Safe R C (mkState room' (snd ch) p' (st_steps st + 1)).
Proof.
  intros (Hwf & HR & HC & Hin) b ch p'. subst R C.
  destruct (step_in_bounds (st_room st) (st_pos st) (fst ch) Hwf Hin) as [room' Hs].
  exists room'. fold p' in Hs. split; [exact Hs |].
  destruct (step_Ok _ _ _ _ _ Hwf Hs) as (Hwf' & Hr' & Hc' & _).
  split.
  - apply loop_body_Ok. exists b. split; [now apply is_dirty_in_bounds |].
    simpl. fold ch. auto.
  - unfold Safe. simpl. rewrite Hr', Hc'. repeat split; auto;
      apply (clamped_move_in_bounds _ _ _ (fst ch) Hin).
Qed.

Lemma while_loop_total (R C : Z) (fuel : nat) (max_steps : Z) (st : State) :
  Safe R C st ->
  Z.max 0 (max_steps - st_steps st) < Z.of_nat fuel ->
  exists fin tr, while_loop fuel max_steps st = Ok (fin, tr).
Proof.
  revert st. induction fuel as [|fuel IH]; intros st Hsafe Hf; [lia |]. simpl.
  destruct (Z.ltb_spec (st_steps st) max_steps) as [Hlt | Hge]; [| eauto].
  rewrite (dirt_count_wf (st_room st)) by apply Hsafe. simpl.
  destruct (0 <? dirt (st_room st)); [| eauto].
  destruct (loop_body_in_bounds R C st Hsafe) as (room' & _ & Hb & Hsafe').
  rewrite Hb. simpl.
  destruct (IH _ Hsafe') as (fin & tr & Hw); [simpl; lia |].
  rewrite Hw. simpl. eauto.
Qed.

(** A room without dirt: the loop makes no iteration. *)
Lemma while_loop_no_dirt (fuel : nat) (max_steps : Z) (st : State) :
  Room_wf (st_room st) = true -> dirt (st_room st) = 0 ->
  while_loop (S fuel) max_steps st = Ok (st, []).
Proof.
  intros Hwf Hd. simpl. destruct (st_steps st <? max_steps); [| reflexivity].
  rewrite (dirt_count_wf _ Hwf), Hd. reflexivity.
Qed.

(** ** The serpentine order *)

Lemma idx_bounds (R C : Z) (p : Pos) :
  in_bounds R C p -> 0 <= idx C p <= R * C - 1.
Proof.
  destruct p as [r c]. unfold in_bounds, idx. simpl. intros [Hr Hc].
  assert (0 <= r * C) by nia.
  assert (r * C + C <= R * C) by nia.
  destruct (Z.even r); lia.
Qed.

Lemma idx_inj (R C : Z) (p q : Pos) :
  in_bounds R C p -> in_bounds R C q -> idx C p = idx C q -> p = q.
Proof.
  destruct p as [r c], q as [r' c']. unfold in_bounds, idx. simpl.
  intros [Hr Hc] [Hr' Hc'] H.
  assert (Hrr : r = r').
  { destruct (Z.even r), (Z.even r'); nia. }
  subst r'. destruct (Z.even r); f_equal; lia.
Qed.

Lemma even_succ_negb (r : Z) : Z.even (r + 1) = negb (Z.even r).
Proof. rewrite Z.add_1_r, Z.even_succ, <- Z.negb_even. reflexivity. Qed.

(** ** The sweep invariant *)

(** At the last cell of the order with nothing dirty behind or below the
    agent, the room is clean. *)
Lemma sweep_end_clean (R C : Z) (st : State) :
  Sweep R C st ->
  idx C (st_pos st) = R * C - 1 ->
  cell (grid (st_room st)) (st_pos st) = false ->
  dirt (st_room st) = 0.
Proof.
  intros ((Hwf & HR & HC & Hin) & _ & Hclean) Hlast Hhere.
  apply dirt_zero. rewrite HR, HC. intros q Hq.
  pose proof (idx_bounds R C q Hq) as Hb.
  destruct (Z.eq_dec (idx C q) (idx C (st_pos st))) as [Heq | Hne].
  - rewrite (idx_inj R C q (st_pos st) Hq Hin Heq). exact Hhere.
  - apply Hclean; [exact Hq | lia].
Qed.

Lemma clamped_move_right (R C r c : Z) :
  in_bounds R C (r, c) -> c <> C - 1 ->
  clamped_move R C (r, c) "RIGHT" = (r, c + 1).
Proof.
  unfold in_bounds, clamped_move, in_boundsb. simpl. intros [Hr Hc] Hne.
  rewrite Z.add_0_r.
  destruct (Z.leb_spec 0 r), (Z.ltb_spec r R), (Z.leb_spec 0 (c + 1)),
    (Z.ltb_spec (c + 1) C); simpl; try reflexivity; lia.
Qed.

Lemma clamped_move_left (R C r c : Z) :
  in_bounds R C (r, c) -> c <> 0 ->
  clamped_move R C (r, c) "LEFT" = (r, c - 1).
Proof.
  unfold in_bounds, clamped_move, in_boundsb. simpl. intros [Hr Hc] Hne.
  rewrite Z.add_0_r. change (c + -1) with (c - 1).
  destruct (Z.leb_spec 0 r), (Z.ltb_spec r R), (Z.leb_spec 0 (c - 1)),
    (Z.ltb_spec (c - 1) C); simpl; try reflexivity; lia.
Qed.

Lemma clamped_move_down (R C r c : Z) :
  in_bounds R C (r, c) -> r <> R - 1 ->
  clamped_move R C (r, c) "DOWN" = (r + 1, c).
Proof.
  unfold in_bounds, clamped_move, in_boundsb. simpl. intros [Hr Hc] Hne.
  rewrite Z.add_0_r.
  destruct (Z.leb_spec 0 (r + 1)), (Z.ltb_spec (r + 1) R), (Z.leb_spec 0 c),
    (Z.ltb_spec c C); simpl; try reflexivity; lia.
Qed.

(** What the policy answers to a sweeping agent. *)
Lemma choose_action_sweep (room : Room) (r c : Z) (b : bool) :
  choose_action (mkAgent (heading r)) (percept_of room (r, c) b) =
  if b then ("SUCK"%string, mkAgent (heading r))
  else if Z.even r then
    if c =? cols room - 1 then
      if r =? rows room - 1 then ("NOOP"%string, mkAgent (heading r))
      else ("DOWN"%string, mkAgent (-1))
    else ("RIGHT"%string, mkAgent (heading r))
  else
    if c =? 0 then
      if r =? rows room - 1 then ("NOOP"%string, mkAgent (heading r))
      else ("DOWN"%string, mkAgent 1)
    else ("LEFT"%string, mkAgent (heading r)).
Proof.
  unfold choose_action, percept_of, heading. simpl.
  destruct b; [reflexivity |].
  destruct (Z.even r); simpl;
    [destruct (c =? cols room - 1) | destruct (c =? 0)]; simpl;
    try reflexivity; destruct (r =? rows room - 1); reflexivity.
Qed.

(** Leaving a clean cell for the next one of the order keeps the agent
    sweeping. *)
Lemma sweep_advance (R C : Z) (st : State) (p' : Pos) (d' n' : Z) :
  Sweep R C st ->
  cell (grid (st_room st)) (st_pos st) = false ->
  in_bounds R C p' ->
  idx C p' = idx C (st_pos st) + 1 ->
  d' = heading (fst p') ->
  Sweep R C (mkState (st_room st) (mkAgent d') p' n').
Proof.
  intros ((Hwf & HR & HC & Hin) & Hdir & Hclean) Hhere Hin' Hidx Hd'.
  split; [unfold Safe; simpl; auto |]. split; [exact Hd' |]. simpl.
  intros q Hq Hlt.
  destruct (Z.eq_dec (idx C q) (idx C (st_pos st))) as [Heq | Hne].
  - rewrite (idx_inj R C q (st_pos st) Hq Hin Heq). exact Hhere.
  - apply Hclean; [exact Hq | lia].
Qed.

(** One iteration of a sweeping agent in a room with dirt: it either sucks
    the dirty cell it is on, or leaves a clean cell for the next one of the
    serpentine order.  It never answers [NOOP]. *)
Lemma loop_body_sweep (R C : Z) (st : State) :
  Sweep R C st -> 0 < dirt (st_room st) ->
  exists st' e,
    loop_body st = Ok (st', e) /\ Sweep R C st' /\
    ev_room e = st_room st /\ ev_pos e = st_pos st /\
    ev_room' e = st_room st' /\ ev_pos' e = st_pos st' /\
    ((ev_action e = "SUCK"%string /\ st_pos st' = st_pos st /\
      dirt (st_room st') < dirt (st_room st) /\
      forall q, in_bounds R C q -> q <> st_pos st ->
        cell (grid (st_room st')) q = cell (grid (st_room st)) q)
     \/
     (ev_action e <> "SUCK"%string /\ ev_action e <> "NOOP"%string /\
      st_room st' = st_room st /\
      idx C (st_pos st') = idx C (st_pos st) + 1)).
Proof.
  intros Hsw Hdirt. pose proof Hsw as (Hsafe & Hdir & Hclean).
  pose proof (loop_body_in_bounds R C st Hsafe) as H. cbv zeta in H.
  pose proof Hsafe as (Hwf & HR & HC & Hin).
  destruct st as [room [d] [r c] n].
  cbn [st_room st_agent st_pos st_steps direction fst snd] in *. subst d.
  rewrite choose_action_sweep in H. rewrite HR, HC in H.
  destruct (cell (grid room) (r, c)) eqn:Ehere.
  - (* the cell is dirty: SUCK *)
    cbn [fst snd] in H. change (clamped_move R C (r, c) "SUCK") with (r, c) in H.
    destruct H as (room' & Hs & Hb & Hsafe').
    destruct (step_Ok _ _ _ _ _ Hwf Hs) as (Hwf' & Hr' & Hc' & Hmono & Hsuck & _).
    destruct (Hsuck eq_refl) as (_ & _ & Hcell).
    rewrite norm_pos_in_bounds in Hcell by (rewrite HR, HC; exact Hin).
    assert (Hnn : forall q, in_bounds R C q -> 0 <= fst q /\ 0 <= snd q).
    { unfold in_bounds. intros q Hq. lia. }
    do 2 eexists. split; [exact Hb |]. cbn [st_room st_pos ev_room ev_pos ev_room' ev_pos' ev_action].
    split; [| do 4 (split; [reflexivity |]); left;
              split; [reflexivity |]; split; [reflexivity |]; split].
    + split; [exact Hsafe' |]. split; [reflexivity |]. simpl.
      intros q Hq Hlt. destruct (Hnn q Hq). rewrite Hcell by assumption.
      case_decide; [reflexivity | now apply Hclean].
    + unfold dirt. rewrite Hr', Hc', HR, HC.
      apply (total_strict _ _ _ (r, c)).
      * intros q Hq. apply elem_of_range_pairs in Hq. destruct (Hnn q Hq).
        now apply Hmono.
      * now apply elem_of_range_pairs.
      * exact Ehere.
      * destruct (Hnn _ Hin). rewrite Hcell by assumption.
        case_decide; [reflexivity | contradiction].
    + intros q Hq Hne. destruct (Hnn q Hq). rewrite Hcell by assumption.
      case_decide; [contradiction | reflexivity].
  - (* the cell is clean: move on *)
    assert (Hmove : forall action d' p',
      action <> "SUCK"%string -> action <> "NOOP"%string ->
      clamped_move R C (r, c) action = p' ->
      in_bounds R C p' -> idx C p' = idx C (r, c) + 1 -> d' = heading (fst p') ->
      (exists room',
         step room (r, c) action = Ok (room', clamped_move R C (r, c) action) /\
         loop_body (mkState room (mkAgent (heading r)) (r, c) n) =
           Ok (mkState room' (mkAgent d') (clamped_move R C (r, c) action) (n + 1),
               mkEvent room (r, c) action room' (clamped_move R C (r, c) action)) /\
         Safe R C (mkState room' (mkAgent d') (clamped_move R C (r, c) action) (n + 1))) ->
      exists st' e,
        loop_body (mkState room (mkAgent (heading r)) (r, c) n) = Ok (st', e) /\
        Sweep R C st' /\ ev_room e = room /\ ev_pos e = (r, c) /\
        ev_room' e = st_room st' /\ ev_pos' e = st_pos st' /\
        ((ev_action e = "SUCK"%string /\ st_pos st' = (r, c) /\
          dirt (st_room st') < dirt room /\
          forall q, in_bounds R C q -> q <> (r, c) ->
            cell (grid (st_room st')) q = cell (grid room) q)
         \/
         (ev_action e <> "SUCK"%string /\ ev_action e <> "NOOP"%string /\
          st_room st' = room /\ idx C (st_pos st') = idx C (r, c) + 1))).
    { intros action d' p' Hns Hnn Hp' Hin' Hidx Hd' (room' & Hs & Hb & _).
      destruct (step_Ok _ _ _ _ _ Hwf Hs) as (_ & _ & _ & _ & _ & Hother).
      rewrite (Hother Hns) in Hb. rewrite Hp' in Hb.
      do 2 eexists. split; [exact Hb |].
      cbn [st_room st_pos ev_room ev_pos ev_room' ev_pos' ev_action].
      split; [| do 4 (split; [reflexivity |]); right; auto].
      exact (sweep_advance R C _ p' d' (n + 1) Hsw Ehere Hin' Hidx Hd'). }
    pose proof Hin as [Hinr Hinc]. cbn [fst snd] in Hinr, Hinc.
    destruct (Z.even r) eqn:Ev.
    + destruct (Z.eqb_spec c (C - 1)) as [Hc | Hc].
      * destruct (Z.eqb_spec r (R - 1)) as [Hr | Hr].
        -- exfalso. assert (dirt room = 0); [| lia].
           apply (sweep_end_clean R C _ Hsw); [| exact Ehere].
           unfold idx. simpl. rewrite Ev. subst r c. lia.
        -- cbn [fst snd] in H. eapply (Hmove _ _ (r + 1, c)); try exact H;
             try discriminate.
           ++ now apply clamped_move_down.
           ++ unfold in_bounds. simpl. lia.
           ++ unfold idx. simpl. rewrite even_succ_negb, Ev. simpl. lia.
           ++ unfold heading. simpl. now rewrite even_succ_negb, Ev.
      * cbn [fst snd] in H. eapply (Hmove _ _ (r, c + 1)); try exact H;
          try discriminate.
        -- now apply clamped_move_right.
        -- unfold in_bounds. simpl. lia.
        -- unfold idx. simpl. rewrite Ev. lia.
        -- reflexivity.
    + destruct (Z.eqb_spec c 0) as [Hc | Hc].
      * destruct (Z.eqb_spec r (R - 1)) as [Hr | Hr].
        -- exfalso. assert (dirt room = 0); [| lia].
           apply (sweep_end_clean R C _ Hsw); [| exact Ehere].
           unfold idx. simpl. rewrite Ev. subst r c. lia.
        -- cbn [fst snd] in H. eapply (Hmove _ _ (r + 1, c)); try exact H;
             try discriminate.
           ++ now apply clamped_move_down.
           ++ unfold in_bounds. simpl. lia.
           ++ unfold idx. simpl. rewrite even_succ_negb, Ev. simpl. lia.
           ++ unfold heading. simpl. now rewrite even_succ_negb, Ev.
      * cbn [fst snd] in H. eapply (Hmove _ _ (r, c - 1)); try exact H;
          try discriminate.
        -- now apply clamped_move_left.
        -- unfold in_bounds. simpl. lia.
        -- unfold idx. simpl. rewrite Ev. lia.
        -- reflexivity.
Qed.

(** ** Executions of a sweeping agent *)

Lemma runs_sweep (R C max_steps : Z) (st fin : State) (tr : list Event) :
  runs max_steps st tr fin ->
  Sweep R C st ->
  Sweep R C fin /\
  (forall e, e ∈ tr -> ev_action e <> "NOOP"%string) /\
  st_steps fin + dirt (st_room fin) - idx C (st_pos fin)
    <= st_steps st + dirt (st_room st) - idx C (st_pos st) /\
  idx C (st_pos st) <= idx C (st_pos fin) /\
  map (idx C) (visited (st_pos st) tr)
    = seqZ (idx C (st_pos st)) (idx C (st_pos fin) - idx C (st_pos st) + 1) /\
  Forall (in_bounds R C) (visited (st_pos st) tr) /\
  (Ahead R C st -> Ahead R C fin).
Proof.
  induction 1 as [st Hge | st n Hlt Hn Hz | st n st' e tr fin Hlt Hn Hpos Hb Hr IH];
    intros Hsw.
  1,2: (split; [exact Hsw |]; split; [intros e He; apply elem_of_nil in He; contradiction |];
        split; [lia |]; split; [lia |]; split;
        [ simpl; replace (_ - _ + 1) with 1 by lia; reflexivity |];
        split; [repeat constructor; apply Hsw | auto]).
  assert (Hd : n = dirt (st_room st)).
  { rewrite (dirt_count_wf (st_room st)) in Hn by apply Hsw. congruence. }
  subst n.
  destruct (loop_body_sweep R C st Hsw Hpos)
    as (st1 & e1 & Hb1 & Hsw' & He1 & He2 & He3 & He4 & Hcase).
  rewrite Hb in Hb1. injection Hb1 as <- <-.
  destruct (IH Hsw') as (Hfin & Hnoop & Hmeas & Hmono & Hvis & Hall & Hahead).
  pose proof Hsw as ((_ & _ & _ & Hin) & _ & _).
  split; [exact Hfin |].
  destruct Hcase as [(Ha & Hp & Hdirt & Hcells) | (Ha1 & Ha2 & Hroom & Hidx)].
  - (* SUCK *)
    split.
    { intros e0 He0. apply elem_of_cons in He0 as [-> | He0]; [| now apply Hnoop].
      rewrite Ha. discriminate. }
    rewrite Hp in *.
    apply loop_body_Ok in Hb as (_ & _ & _ & _ & Hsteps & _).
    split; [lia |]. split; [exact Hmono |].
    assert (Hv : visited (st_pos st) (e :: tr) = visited (st_pos st) tr).
    { unfold visited. simpl. rewrite Ha. reflexivity. }
    rewrite Hv. split; [exact Hvis |]. split; [exact Hall |].
    intros Hah. apply Hahead. intros q Hq Hlt'. rewrite Hp in Hlt'.
    rewrite Hcells; [now apply Hah | exact Hq |].
    intros ->. lia.
  - (* a move to the next cell *)
    split.
    { intros e0 He0. apply elem_of_cons in He0 as [-> | He0]; [| now apply Hnoop].
      exact Ha2. }
    apply loop_body_Ok in Hb as (_ & _ & _ & _ & Hsteps & _).
    rewrite Hroom in *.
    split; [lia |]. split; [lia |].
    assert (Hv : visited (st_pos st) (e :: tr) = st_pos st :: visited (st_pos st') tr).
    { unfold visited. simpl. apply String.eqb_neq in Ha1. rewrite Ha1. simpl.
      rewrite He4. reflexivity. }
    rewrite Hv. split; [| split].
    + rewrite map_cons.
      rewrite (seqZ_cons (idx C (st_pos st))) by lia.
      f_equal. rewrite Hvis. f_equal; lia.
    + constructor; [exact Hin | exact Hall].
    + intros Hah. apply Hahead. intros q Hq Hlt'. rewrite Hroom.
      apply Hah; [exact Hq | lia].
Qed.

(** ** The boustrophedon order *)

Lemma map_reverse_seqZ (b : Z) (n : nat) :
  map (fun c => b + (Z.of_nat n - 1 - c)) (reverse (seqZ 0 (Z.of_nat n)))
  = seqZ b (Z.of_nat n).
Proof.
  revert b. induction n as [|n IH]; intros b; [reflexivity |].
  rewrite (seqZ_S 0 n), reverse_snoc, map_cons.
  rewrite (seqZ_cons b) by lia. f_equal; [lia |].
  replace (Z.pred (Z.of_nat (S n))) with (Z.of_nat n) by lia.
  rewrite <- (IH (Z.succ b)). apply List.map_ext. intros c. lia.
Qed.

Lemma row_cells_idx (C r : Z) :
  0 <= C -> map (idx C) (row_cells C r) = seqZ (r * C) C.
Proof.
  intros HC. unfold row_cells, idx. destruct (Z.even r) eqn:Ev; rewrite map_map; simpl;
    rewrite Ev.
  - transitivity (Z.add (r * C) <$> seqZ 0 C); [reflexivity |].
    rewrite fmap_add_seqZ. f_equal. lia.
  - pose proof (map_reverse_seqZ (r * C) (Z.to_nat C)) as H.
    rewrite Z2Nat.id in H by lia. exact H.
Qed.

Lemma row_cells_in_bounds (R C r : Z) (p : Pos) :
  0 <= r < R -> In p (row_cells C r) -> in_bounds R C p.
Proof.
  intros Hr Hp. unfold row_cells in Hp.
  assert (exists c, p = (r, c) /\ 0 <= c < C) as (c & -> & Hc).
  { destruct (Z.even r); apply in_map_iff in Hp as (c & <- & Hc); exists c;
      (split; [reflexivity |]).
    - apply list_elem_of_In, elem_of_seqZ in Hc. lia.
    - apply list_elem_of_In, elem_of_reverse, elem_of_seqZ in Hc. lia. }
  unfold in_bounds. simpl. lia.
Qed.

Lemma boustrophedon_idx (R C : Z) :
  0 <= R -> 0 <= C ->
  map (idx C) (boustrophedon R C) = seqZ 0 (R * C).
Proof.
  intros HR HC. unfold boustrophedon. rewrite <- (Z2Nat.id R HR).
  induction (Z.to_nat R) as [|n IH]; [reflexivity |].
  rewrite (seqZ_S 0 n), flat_map_app, map_app, IH. simpl flat_map.
  rewrite app_nil_r, row_cells_idx by lia.
  replace (Z.of_nat (S n) * C) with (Z.of_nat n * C + C) by lia.
  rewrite seqZ_app by nia. reflexivity.
Qed.

Lemma boustrophedon_in_bounds (R C : Z) :
  Forall (in_bounds R C) (boustrophedon R C).
Proof.
  apply List.Forall_forall. intros p Hp. unfold boustrophedon in Hp.
  apply in_flat_map in Hp as (r & Hr & Hp).
  apply list_elem_of_In, elem_of_seqZ in Hr.
  apply (row_cells_in_bounds R C r); [lia | exact Hp].
Qed.

(** Two lists of cells of the grid with the same ranks are the same list. *)
Lemma idx_determines (R C : Z) (l1 l2 : list Pos) :
  Forall (in_bounds R C) l1 -> Forall (in_bounds R C) l2 ->
  map (idx C) l1 = map (idx C) l2 -> l1 = l2.
Proof.
  intros H1. revert l2. induction H1 as [|p l1 Hp H1 IH]; intros l2 H2 Heq.
  - destruct l2; [reflexivity | discriminate].
  - destruct H2 as [|q l2 Hq H2]; [discriminate |].
    simpl in Heq. injection Heq as Hpq Heq.
    f_equal; [exact (idx_inj R C p q Hp Hq Hpq) | now apply IH].
Qed.

(** The boustrophedon order lists every cell of the grid exactly once. *)
Lemma boustrophedon_cells (R C : Z) :
  0 <= R -> 0 <= C ->
  NoDup (boustrophedon R C) /\
  forall p, p ∈ boustrophedon R C <-> in_bounds R C p.
Proof.
  intros HR HC. pose proof (boustrophedon_idx R C HR HC) as Hidx.
  pose proof (boustrophedon_in_bounds R C) as Hin. split.
  - apply (NoDup_fmap_1 (idx C)).
    change (NoDup (map (idx C) (boustrophedon R C))). rewrite Hidx. apply NoDup_seqZ.
  - intros p. split.
    + intros Hp. rewrite Forall_forall in Hin. now apply Hin.
    + intros Hp. pose proof (idx_bounds R C p Hp) as Hb.
      assert (Hi : idx C p ∈ map (idx C) (boustrophedon R C)).
      { rewrite Hidx. apply elem_of_seqZ. lia. }
      apply list_elem_of_In, in_map_iff in Hi as (q & Hq1 & Hq2).
      rewrite Forall_forall in Hin. apply list_elem_of_In in Hq2.
      rewrite <- (idx_inj R C q p (Hin q Hq2) Hp Hq1). exact Hq2.
Qed.

(** ** Executions in general *)

(** One iteration, from any position: the shape of the room is kept and no
    cell becomes dirty. *)
Lemma loop_body_wf (st st' : State) (e : Event) :
  Room_wf (st_room st) = true ->
  loop_body st = Ok (st', e) ->
  Room_wf (st_room st') = true /\
  rows (st_room st') = rows (st_room st) /\
  cols (st_room st') = cols (st_room st) /\
  dirt (st_room st') <= dirt (st_room st) /\
  ev_room e = st_room st /\ ev_room' e = st_room st'.
Proof.
  intros Hwf Hb. apply loop_body_Ok in Hb as (b & _ & Hs & _ & _ & ->).
  destruct (step_Ok _ _ _ _ _ Hwf Hs) as (Hwf' & Hr' & Hc' & Hmono & _).
  repeat split; auto. unfold dirt. rewrite Hr', Hc'.
  apply total_mono. intros q Hq. apply elem_of_range_pairs in Hq as [Hq1 Hq2].
  apply Hmono; lia.
Qed.

(** What holds of every execution of the loop from a well-shaped room: the
    guard held before each iteration and fails at the end, and the dirt
    count never went up. *)
Lemma runs_wf (max_steps : Z) (st fin : State) (tr : list Event) :
  runs max_steps st tr fin ->
  Room_wf (st_room st) = true ->
  Room_wf (st_room fin) = true /\
  rows (st_room fin) = rows (st_room st) /\
  cols (st_room fin) = cols (st_room st) /\
  dirt (st_room fin) <= dirt (st_room st) /\
  (max_steps <= st_steps fin \/ dirt (st_room fin) = 0) /\
  (forall i e, tr !! i = Some e ->
     st_steps st + Z.of_nat i < max_steps /\
     Room_wf (ev_room e) = true /\ Room_wf (ev_room' e) = true /\
     0 < dirt (ev_room e) /\ dirt (ev_room' e) <= dirt (ev_room e)).
Proof.
  induction 1 as [st Hge | st n Hlt Hn Hz | st n st' e tr fin Hlt Hn Hpos Hb Hr IH];
    intros Hwf.
  - do 4 (split; [auto; lia |]). split; [left; exact Hge |].
    intros i e Hi. destruct i; discriminate.
  - rewrite (dirt_count_wf _ Hwf) in Hn. injection Hn as <-.
    pose proof (dirt_bounds (st_room st)).
    do 4 (split; [auto; lia |]). split; [right; lia |].
    intros i e Hi. destruct i; discriminate.
  - rewrite (dirt_count_wf _ Hwf) in Hn. injection Hn as <-.
    destruct (loop_body_wf _ _ _ Hwf Hb) as (Hwf' & Hr' & Hc' & Hd' & He1 & He2).
    destruct (IH Hwf') as (Hwf2 & Hr2 & Hc2 & Hd2 & Hexit & Hev).
    apply loop_body_Ok in Hb as (_ & _ & _ & _ & Hsteps & _).
    split; [exact Hwf2 |]. split; [congruence |]. split; [congruence |].
    split; [lia |]. split; [exact Hexit |].
    intros [|i] e0 Hi; simpl in Hi.
    + injection Hi as <-. rewrite He1, He2. repeat split; auto; lia.
    + destruct (Hev i e0 Hi) as (H1 & H2). split; [lia | exact H2].
Qed.

(** ** The episode runner, unfolded *)

Section EpisodeFacts.

Context {RS : RandomSource}.

Lemma run_episode_traced_Ok (rows cols : Z) (p : pyfloat) (seed max_steps : Z)
    (start : Pos) (res : EpisodeResult) (tr : list Event) :
  run_episode_traced rows cols p seed max_steps start = Ok (res, tr) <->
  exists fin,
    while_loop (S (Z.to_nat max_steps)) max_steps
      (initial_state rows cols p seed start) = Ok (fin, tr) /\
    res = result_of rows cols p seed fin.
Proof.
  unfold run_episode_traced, initial_state, result_of.
  rewrite (dirt_count_wf _ (Room_init_wf rows cols p seed)). cbn [bind].
  destruct (while_loop _ _ _) as [[fin tr']| |] eqn:Hw.
  - pose proof (while_loop_runs _ _ _ _ _ Hw) as Hr.
    destruct (runs_wf _ _ _ _ Hr (Room_init_wf rows cols p seed)) as (Hwf & _).
    cbn [bind fst snd]. rewrite (dirt_count_wf _ Hwf). cbn [bind fst snd]. split.
    + intros [= <- <-]. eauto.
    + intros (fin' & [= <- <-] & ->). reflexivity.
  - simpl. split; [discriminate | intros (fin' & H & _); discriminate].
  - simpl. split; [discriminate | intros (fin' & H & _); discriminate].
Qed.

(** [run_episode] always leaves its loop by the guard: the unrolling never
    runs short. *)
Lemma run_episode_fuel_adequate (rows cols : Z) (p : pyfloat) (seed max_steps : Z)
    (start : Pos) :
  run_episode_traced rows cols p seed max_steps start <> OutOfFuel /\
  run_episode rows cols p seed max_steps start <> OutOfFuel.
Proof.
  assert (H : run_episode_traced rows cols p seed max_steps start <> OutOfFuel).
  { unfold run_episode_traced.
    rewrite (dirt_count_wf _ (Room_init_wf rows cols p seed)). cbn [bind].
    destruct (while_loop _ _ _) as [[fin tr']| |] eqn:Hw; cbn [bind fst snd];
      try discriminate.
    - pose proof (while_loop_runs _ _ _ _ _ Hw) as Hr.
      destruct (runs_wf _ _ _ _ Hr (Room_init_wf rows cols p seed)) as (Hwf & _).
      rewrite (dirt_count_wf _ Hwf). discriminate.
    - exfalso. revert Hw. apply while_loop_no_fuel. simpl. lia. }
  split; [exact H |]. unfold run_episode.
  destruct (run_episode_traced _ _ _ _ _ _); simpl; try discriminate. contradiction.
Qed.

Lemma run_episode_Ok (rows cols : Z) (p : pyfloat) (seed max_steps : Z)
    (start : Pos) (res : EpisodeResult) :
  run_episode rows cols p seed max_steps start = Ok res <->
  exists tr, run_episode_traced rows cols p seed max_steps start = Ok (res, tr).
Proof.
  unfold run_episode.
  destruct (run_episode_traced _ _ _ _ _ _) as [[res' tr]| |]; simpl.
  - split; [intros [= <-]; eauto | intros (tr' & [= <- _]); reflexivity].
  - split; [discriminate | intros (tr' & H); discriminate].
  - split; [discriminate | intros (tr' & H); discriminate].
Qed.

(** From a start inside the grid the episode returns. *)
Lemma run_episode_total (rows cols : Z) (p : pyfloat) (seed max_steps : Z)
    (start : Pos) :
  in_bounds rows cols start ->
  exists fin tr,
    while_loop (S (Z.to_nat max_steps)) max_steps
      (initial_state rows cols p seed start) = Ok (fin, tr).
Proof.
  intros Hin. apply (while_loop_total rows cols).
  - unfold Safe, initial_state. simpl. auto using Room_init_wf.
  - simpl. lia.
Qed.

End EpisodeFacts.

(** ** Episodes started at the origin *)

Section Origin.

Context {RS : RandomSource}.

Lemma initial_sweep (rows cols : Z) (p : pyfloat) (seed : Z) :
  0 < rows -> 0 < cols ->
  Sweep rows cols (initial_state rows cols p seed (0, 0)).
Proof.
  intros Hr Hc. unfold Sweep, Safe, initial_state. cbn [st_room st_agent st_pos].
  split; [| split; [reflexivity |]].
  - split; [apply Room_init_wf |]. repeat split; simpl; lia.
  - intros q Hq Hlt. pose proof (idx_bounds rows cols q Hq) as Hb.
    unfold idx in Hlt at 2. simpl in Hlt. lia.
Qed.

Lemma initial_ahead (rows cols : Z) (p : pyfloat) (seed : Z) (start : Pos) :
  certain p -> Ahead rows cols (initial_state rows cols p seed start).
Proof. intros Hp q Hq _. now apply Room_init_all_dirty. Qed.

Lemma last_cell_idx (R C : Z) :
  0 < R -> 0 < C ->
  in_bounds R C (last_cell R C) /\ idx C (last_cell R C) = R * C - 1.
Proof.
  intros HR HC. unfold last_cell, in_bounds, idx. simpl.
  destruct (Z.even (R - 1)); split; lia.
Qed.

(** The episode from the origin: it returns; the policy never answers
    [NOOP] inside the loop; it needs at most one step per dirty cell and
    one per cell left behind; and on a grid that starts all dirty the
    cells are visited in boustrophedon order. *)
Lemma origin_episode (R C : Z) (p : pyfloat) (seed max_steps : Z) :
  exists fin tr,
    while_loop (S (Z.to_nat max_steps)) max_steps
      (initial_state R C p seed (0, 0)) = Ok (fin, tr) /\
    (forall e, e ∈ tr -> ev_action e <> "NOOP"%string) /\
    st_steps fin
      <= dirt (Room_init R C p seed) + Z.max 0 (R * C - 1) /\
    (dirt (Room_init R C p seed) + R * C - 1 <= max_steps ->
     dirt (st_room fin) = 0) /\
    (0 < R -> 0 < C -> certain p -> 2 * R * C - 1 <= max_steps ->
     visited (0, 0) tr = boustrophedon R C).
Proof.
  pose proof (Room_init_wf R C p seed) as Hwf0.
  pose proof (dirt_bounds (Room_init R C p seed)) as Hd0.
  change (rows (Room_init R C p seed)) with R in Hd0.
  change (cols (Room_init R C p seed)) with C in Hd0.
  destruct (Z_lt_le_dec 0 R) as [Hr | Hr]; [destruct (Z_lt_le_dec 0 C) as [Hc | Hc] |].
  2,3: (assert (Hz : dirt (Room_init R C p seed) = 0) by nia;
        exists (initial_state R C p seed (0, 0)), [];
        split; [now apply while_loop_no_dirt |];
        split; [intros e He; apply elem_of_nil in He; contradiction |];
        simpl; split; [lia |]; split; [auto |]; intros; lia).
  destruct (run_episode_total R C p seed max_steps (0, 0)) as (fin & tr & Hw).
  { unfold in_bounds. simpl. lia. }
  exists fin, tr. split; [exact Hw |].
  pose proof (while_loop_runs _ _ _ _ _ Hw) as Hruns.
  pose proof (initial_sweep R C p seed Hr Hc) as Hsw0.
  destruct (runs_sweep R C _ _ _ _ Hruns Hsw0)
    as (Hfin & Hnoop & Hmeas & Hmono & Hvis & Hall & Hahead).
  destruct (runs_wf _ _ _ _ Hruns Hwf0) as (Hwf & _ & _ & Hle & Hexit & _).
  pose proof Hfin as ((_ & HR & HC & Hinfin) & _ & _).
  pose proof (idx_bounds R C _ Hinfin) as Hib.
  pose proof (dirt_bounds (st_room fin)) as [Hdf _].
  cbn [initial_state st_room st_pos st_steps] in *.
  assert (Hi0 : idx C (0, 0) = 0) by reflexivity.
  rewrite Hi0 in *.
  assert (Hclean : dirt (Room_init R C p seed) + R * C - 1 <= max_steps ->
                   dirt (st_room fin) = 0).
  { intros Hbudget. destruct Hexit as [Hexit | Hexit]; [lia | exact Hexit]. }
  split; [exact Hnoop |]. split; [lia |]. split; [exact Hclean |].
  intros _ _ Hp Hbudget.
  assert (Hz : dirt (st_room fin) = 0) by (apply Hclean; nia).
  assert (Hlast : idx C (st_pos fin) = R * C - 1).
  { destruct (last_cell_idx R C Hr Hc) as [Hlin Hlidx].
    destruct (Z.eq_dec (idx C (st_pos fin)) (R * C - 1)) as [|Hne];
      [assumption | exfalso].
    assert (Hd : cell (grid (st_room fin)) (last_cell R C) = true).
    { apply (Hahead (initial_ahead R C p seed (0, 0) Hp)); [exact Hlin | lia]. }
    rewrite (proj1 (dirt_zero (st_room fin)) Hz) in Hd; [discriminate |].
    rewrite HR, HC. exact Hlin. }
  apply (idx_determines R C); [exact Hall | apply boustrophedon_in_bounds |].
  rewrite Hvis, boustrophedon_idx by lia. f_equal. lia.
Qed.

End Origin.

(** ** The result does not depend on how the room records its parameters *)

Lemma clean_forget (room : Room) (p : Pos) :
  clean (forget room) p = omap forget (clean room p).
Proof.
  unfold clean, omap. destruct p as [r c]. simpl.
  destruct (py_getitem (grid room) r) as [row| |]; simpl; try reflexivity.
  destruct (py_setitem row c false); reflexivity.
Qed.

Lemma step_forget (room : Room) (p : Pos) (action : string) :
  step (forget room) p action
  = omap (fun rp => (forget (fst rp), snd rp)) (step room p action).
Proof.
  unfold step. destruct p as [r c].
  destruct (String.eqb action "SUCK").
  - rewrite clean_forget. unfold omap. destruct (clean room (r, c)); reflexivity.
  - repeat (destruct (String.eqb action _); [reflexivity |]). reflexivity.
Qed.

Lemma loop_body_forget (st : State) :
  loop_body (forget_state st)
  = omap (fun se => (forget_state (fst se), forget_event (snd se))) (loop_body st).
Proof.
  unfold loop_body. cbn [forget_state st_room st_agent st_pos st_steps].
  change (get_percept (forget (st_room st)) (st_pos st))
    with (get_percept (st_room st) (st_pos st)).
  destruct (get_percept (st_room st) (st_pos st)) as [pc| |]; try reflexivity.
  cbn [bind omap]. destruct (choose_action (st_agent st) pc) as [action agent'].
  rewrite step_forget. unfold omap.
  destruct (step (st_room st) (st_pos st) action) as [[room' p']| |]; reflexivity.
Qed.

Lemma while_loop_forget (fuel : nat) (max_steps : Z) (st : State) :
  while_loop fuel max_steps (forget_state st)
  = omap (fun ft => (forget_state (fst ft), map forget_event (snd ft)))
      (while_loop fuel max_steps st).
Proof.
  revert st. induction fuel as [|fuel IH]; intros st; [reflexivity |].
  cbn [while_loop]. change (st_steps (forget_state st)) with (st_steps st).
  destruct (st_steps st <? max_steps); [| reflexivity].
  change (dirt_count (st_room (forget_state st))) with (dirt_count (st_room st)).
  destruct (dirt_count (st_room st)) as [n| |]; try reflexivity. cbn [bind omap].
  destruct (0 <? n); [| reflexivity].
  rewrite loop_body_forget. unfold omap.
  destruct (loop_body st) as [[st' e]| |]; try reflexivity. cbn [bind fst snd].
  rewrite IH. unfold omap.
  destruct (while_loop fuel max_steps st') as [[fin tr]| |]; reflexivity.
Qed.

Section Determinism.

Context {RS : RandomSource}.

Lemma float_lt_same (x : Q) (p1 p2 : pyfloat) :
  float_same p1 p2 -> float_lt x p1 = float_lt x p2.
Proof.
  destruct p1 as [q1| | |], p2 as [q2| | |]; simpl; try tauto. intros Heq.
  f_equal. destruct (Qle_bool q1 x) eqn:E1, (Qle_bool q2 x) eqn:E2; try reflexivity.
  - apply Qle_bool_iff in E1. rewrite Heq in E1. apply Qle_bool_iff in E1. congruence.
  - apply Qle_bool_iff in E2. rewrite <- Heq in E2. apply Qle_bool_iff in E2. congruence.
Qed.

Lemma gen_row_same (p1 p2 : pyfloat) (n : nat) (s : rng) :
  float_same p1 p2 -> gen_row p1 n s = gen_row p2 n s.
Proof.
  intros Hp. revert s. induction n as [|n IH]; intros s; simpl; [reflexivity |].
  destruct (random s) as [x s1]. rewrite (IH s1).
  destruct (gen_row p2 n s1). now rewrite (float_lt_same x p1 p2 Hp).
Qed.

Lemma gen_grid_same (p1 p2 : pyfloat) (m n : nat) (s : rng) :
  float_same p1 p2 -> gen_grid p1 m n s = gen_grid p2 m n s.
Proof.
  intros Hp. revert s. induction m as [|m IH]; intros s; simpl; [reflexivity |].
  rewrite (gen_row_same p1 p2 n s Hp). destruct (gen_row p2 n s) as [row s1].
  now rewrite (IH s1).
Qed.

Lemma Room_init_same (R C : Z) (p1 p2 : pyfloat) (seed : Z) :
  float_same p1 p2 ->
  forget (Room_init R C p1 seed) = forget (Room_init R C p2 seed).
Proof.
  intros Hp. unfold forget, Room_init. simpl. now rewrite (gen_grid_same p1 p2).
Qed.

(** The episode read off the blanked initial state. *)
Lemma run_episode_forget (R C : Z) (p : pyfloat) (seed max_steps : Z) (start : Pos) :
  run_episode R C p seed max_steps start =
  (ft <- while_loop (S (Z.to_nat max_steps)) max_steps
           (forget_state (initial_state R C p seed start)) ;;
   Ok (mkResult R C (dirt (forget (Room_init R C p seed))) (st_steps (fst ft))
         (dirt (st_room (fst ft))) (dirt (st_room (fst ft)) =? 0))).
Proof.
  rewrite while_loop_forget. unfold omap.
  destruct (while_loop _ _ (initial_state R C p seed start)) as [[fin tr]| |] eqn:Hw.
  - apply (proj2 (run_episode_Ok _ _ _ _ _ _ _)). exists tr.
    apply run_episode_traced_Ok. exists fin. split; [exact Hw | reflexivity].
  - destruct (run_episode R C p seed max_steps start) as [res| |] eqn:Hr;
      [| reflexivity |].
    + apply run_episode_Ok in Hr as (tr & Hr).
      apply run_episode_traced_Ok in Hr as (fin & Hr & _). congruence.
    + destruct (run_episode_fuel_adequate R C p seed max_steps start) as [_ H].
      contradiction.
  - exfalso. revert Hw. apply while_loop_no_fuel. simpl. lia.
Qed.

End Determinism.

Lemma total_all_dirty (g : list (list bool)) (ps : list Pos) :
  (forall p, p ∈ ps -> cell g p = true) -> total g ps = Z.of_nat (length ps).
Proof.
  induction ps as [|p ps IH]; intros H; [reflexivity |].
  cbn [total length]. rewrite (H p (list_elem_of_here _ _)), IH; [lia |].
  intros q Hq. apply H. now apply list_elem_of_further.
Qed.

(** The two scenarios of the description: a 3x3 grid, all dirty, takes 17
    steps (9 SUCK and 8 moves); a 1x1 dirty grid takes one. *)
Example scenario_3x3 :
  run_episode (RS := lcg_source) 3 3 (Finite 1) 0 500 (0, 0)
  = Ok (mkResult 3 3 9 17 0 true).
Proof. vm_compute. reflexivity. Qed.

Example scenario_1x1 :
  run_episode (RS := lcg_source) 1 1 (Finite 1) 0 500 (0, 0)
  = Ok (mkResult 1 1 1 1 0 true).
Proof. vm_compute. reflexivity. Qed.

(** A budget of rows*cols plus the number of reversals is too small for a
    grid that starts all dirty: 3x3 with 11 steps leaves dirt. *)
Example budget_11_leaves_dirt :
  run_episode (RS := lcg_source) 3 3 (Finite 1) 0 11 (0, 0)
  = Ok (mkResult 3 3 9 11 3 false).
Proof. vm_compute. reflexivity. Qed.

(** * The claims *)

(** C1 (as amended).  In every episode started at (0,0) the policy never
    answers NOOP inside the loop; so whenever it answers NOOP there,
    [dirt_count()] is 0 at that moment.  The episode returns for every
    [rows], [cols], [dirt_prob], [seed] and [max_steps]. *)
Theorem noop_never_from_origin `{RS : RandomSource}
    (R C : Z) (p : pyfloat) (seed max_steps : Z) :
  exists res tr,
    run_episode_traced R C p seed max_steps (0, 0) = Ok (res, tr) /\
    (forall e, e ∈ tr -> ev_action e <> "NOOP"%string) /\
    (forall e, e ∈ tr -> ev_action e = "NOOP"%string ->
       dirt_count (ev_room e) = Ok 0).
Proof.
  destruct (origin_episode R C p seed max_steps) as (fin & tr & Hw & Hnoop & _).
  exists (result_of R C p seed fin), tr.
  split; [apply run_episode_traced_Ok; eauto |].
  split; [exact Hnoop |]. intros e He Ha. destruct (Hnoop e He Ha).
Qed.

Lemma noop_never_from_origin_witness :
  exists res tr,
    run_episode_traced (RS := lcg_source) 3 3 (Finite (1 # 2)) 1 50 (0, 0)
      = Ok (res, tr) /\
    (forall e, e ∈ tr -> ev_action e <> "NOOP"%string) /\
    (forall e, e ∈ tr -> ev_action e = "NOOP"%string ->
       dirt_count (ev_room e) = Ok 0).
Proof.
  exact (noop_never_from_origin (RS := lcg_source) 3 3 (Finite (1 # 2)) 1 50).
Defined.

(** C1 fails as stated: on a 2x2 grid with every cell dirty and the agent
    started at the in-bounds position (1,0), the fourth decision of the
    policy is NOOP while [dirt_count()] is 2. *)
Lemma noop_with_dirt_remaining :
  in_bounds 2 2 (1, 0) /\
  exists res tr e,
    run_episode_traced (RS := lcg_source) 2 2 (Finite 1) 0 10 (1, 0) = Ok (res, tr) /\
    tr !! 3%nat = Some e /\
    ev_action e = "NOOP"%string /\
    dirt_count (ev_room e) = Ok 2 /\
    dirt_remaining res = 2 /\ cleaned_all res = false.
Proof.
  split; [unfold in_bounds; simpl; lia |].
  do 3 eexists. split; [vm_compute; reflexivity |].
  split; [reflexivity |]. repeat split; reflexivity.
Qed.

(** C2 (as amended).  Construction validates nothing and never fails: the
    room is built for every [rows], [cols], [dirt_prob] and [seed]; a
    non-positive dimension gives a room without cells, a [dirt_prob] of 1
    or more makes every cell dirty and one of 0 or less makes every cell
    clean; with a non-positive [max_steps], or a non-positive dimension,
    [run_episode] returns a record of zero steps. *)
Theorem construction_never_fails `{RS : RandomSource}
    (R C : Z) (p : pyfloat) (seed : Z) :
  let room := Room_init R C p seed in
  Room_wf room = true /\
  dirt_count room = Ok (dirt room) /\
  (R <= 0 \/ C <= 0 -> dirt room = 0) /\
  (certain p -> dirt room = Z.max 0 R * Z.max 0 C) /\
  (impossible p -> dirt room = 0) /\
  (forall max_steps start, max_steps <= 0 ->
     run_episode R C p seed max_steps start
     = Ok (mkResult R C (dirt room) 0 (dirt room) (dirt room =? 0))) /\
  (forall max_steps start, R <= 0 \/ C <= 0 ->
     run_episode R C p seed max_steps start = Ok (mkResult R C 0 0 0 true)) /\
  (forall max_steps start, in_bounds R C start ->
     exists res, run_episode R C p seed max_steps start = Ok res).
Proof.
  intros room. pose proof (Room_init_wf R C p seed) as Hwf. fold room in Hwf.
  pose proof (dirt_bounds room) as Hb.
  change (rows room) with R in Hb. change (cols room) with C in Hb.
  assert (Hempty : R <= 0 \/ C <= 0 -> dirt room = 0) by (intros; nia).
  split; [exact Hwf |]. split; [now apply dirt_count_wf |]. split; [exact Hempty |].
  split; [| split; [| split; [| split]]].
  - intros Hp. unfold dirt. change (rows room) with R. change (cols room) with C.
    rewrite <- length_range_pairs. apply total_all_dirty.
    intros q Hq. apply elem_of_range_pairs in Hq. now apply Room_init_all_dirty.
  - intros Hp. apply dirt_zero. intros q Hq. now apply Room_init_all_clean.
  - intros max_steps start Hm. apply run_episode_Ok. exists [].
    apply run_episode_traced_Ok. exists (initial_state R C p seed start).
    split; [| reflexivity]. cbn [while_loop initial_state st_steps].
    destruct (Z.ltb_spec 0 max_steps); [lia | reflexivity].
  - intros max_steps start Hd. apply run_episode_Ok. exists [].
    apply run_episode_traced_Ok. exists (initial_state R C p seed start).
    split; [now apply while_loop_no_dirt; auto |].
    unfold result_of. cbn [initial_state st_room st_steps]. fold room.
    now rewrite (Hempty Hd).
  - intros max_steps start Hin.
    destruct (run_episode_total R C p seed max_steps start Hin) as (fin & tr & Hw).
    exists (result_of R C p seed fin). apply run_episode_Ok. exists tr.
    apply run_episode_traced_Ok. eauto.
Qed.

Lemma construction_never_fails_witness :
  run_episode (RS := lcg_source) (-2) 5 (Finite 3) 0 (-1) (0, 0)
  = Ok (mkResult (-2) 5 0 0 0 true).
Proof.
  destruct (construction_never_fails (RS := lcg_source) (-2) 5 (Finite 3) 0)
    as (_ & _ & _ & _ & _ & _ & H & _).
  apply H. left. lia.
Defined.

(** C2 fails as stated: negative [rows], negative [cols], a [dirt_prob] above
    1 or below 0, and a zero or negative [max_steps] are all accepted; the
    room is built and the episode returns a record. *)
Lemma invalid_parameters_accepted :
  run_episode (RS := lcg_source) (-1) 3 (Finite (1 # 4)) 1 500 (0, 0)
    = Ok (mkResult (-1) 3 0 0 0 true) /\
  run_episode (RS := lcg_source) 3 (-1) (Finite (1 # 4)) 1 500 (0, 0)
    = Ok (mkResult 3 (-1) 0 0 0 true) /\
  run_episode (RS := lcg_source) 2 2 (Finite (3 # 2)) 1 500 (0, 0)
    = Ok (mkResult 2 2 4 7 0 true) /\
  run_episode (RS := lcg_source) 2 2 (Finite (-1 # 2)) 1 500 (0, 0)
    = Ok (mkResult 2 2 0 0 0 true) /\
  run_episode (RS := lcg_source) 2 2 (Finite 1) 1 0 (0, 0)
    = Ok (mkResult 2 2 4 0 4 false) /\
  run_episode (RS := lcg_source) 2 2 (Finite 1) 1 (-5) (0, 0)
    = Ok (mkResult 2 2 4 0 4 false) /\
  grid (Room_init (RS := lcg_source) (-2) (-3) (Finite 7) 0) = [].
Proof. repeat split; vm_compute; reflexivity. Qed.

(** C3 (as amended).  In a room of the declared shape, [is_dirty] and
    [clean] raise [IndexError] exactly on the positions whose row is not in
    [[-rows, rows)] or whose column is not in [[-cols, cols)]: at or beyond
    an upper bound, or more negative than the dimension.  On every other
    position, negative coordinates included, they return: [is_dirty] reads,
    and [clean] clears, the cell counted from the end. *)
Theorem index_errors (room : Room) (p : Pos) :
  Room_wf room = true ->
  (~ indexable (rows room) (cols room) p ->
     is_dirty room p = IndexError /\ clean room p = IndexError) /\
  (indexable (rows room) (cols room) p ->
     is_dirty room p = Ok (cell (grid room) (norm_pos room p)) /\
     exists room',
       clean room p = Ok room' /\
       cell (grid room') (norm_pos room p) = false /\
       forall q, 0 <= fst q -> 0 <= snd q -> q <> norm_pos room p ->
         cell (grid room') q = cell (grid room) q).
Proof.
  intros Hwf. split; intros Hix.
  - split; [now apply is_dirty_error | now apply clean_error].
  - split; [now apply is_dirty_indexable |].
    destruct (clean_indexable room p Hwf Hix) as (room' & Hc & _ & _ & _ & Hcell).
    exists room'. split; [exact Hc |].
    apply indexable_norm_pos in Hix as [Hr Hc'].
    split.
    + rewrite Hcell by lia. case_decide; [reflexivity | contradiction].
    + intros q Hq1 Hq2 Hne. rewrite Hcell by assumption.
      case_decide; [contradiction | reflexivity].
Qed.

Lemma index_errors_witness :
  let room := Room_init (RS := lcg_source) 2 3 (Finite 1) 0 in
  Room_wf room = true /\
  ~ indexable 2 3 (2, 0) /\ indexable 2 3 (-1, 1) /\
  is_dirty room (2, 0) = IndexError /\ clean room (2, 0) = IndexError /\
  is_dirty room (-1, 1) = Ok (cell (grid room) (norm_pos room (-1, 1))).
Proof.
  intros room.
  assert (Hwf : Room_wf room = true) by reflexivity.
  assert (Hout : ~ indexable 2 3 (2, 0)) by (unfold indexable; simpl; lia).
  assert (Hin : indexable 2 3 (-1, 1)) by (unfold indexable; simpl; lia).
  destruct (index_errors room (2, 0) Hwf) as [H1 _].
  destruct (index_errors room (-1, 1) Hwf) as [_ H2].
  destruct (H1 Hout) as [Ha Hb]. destruct (H2 Hin) as [Hc _].
  split; [exact Hwf |]. split; [exact Hout |]. split; [exact Hin |].
  split; [exact Ha |]. split; [exact Hb | exact Hc].
Defined.

(** C3 fails as stated: (-1,-1) is outside [0,2) x [0,2), yet on a 2x2 room
    [is_dirty] returns the flag of cell (1,1) and [clean] clears that
    cell. *)
Lemma negative_position_wraps :
  let room := Room_init (RS := lcg_source) 2 2 (Finite 1) 0 in
  ~ in_bounds 2 2 (-1, -1) /\
  grid room = [[true; true]; [true; true]] /\
  is_dirty room (-1, -1) = Ok true /\
  omap grid (clean room (-1, -1)) = Ok [[true; true]; [true; false]].
Proof.
  split; [unfold in_bounds; simpl; lia |]. repeat split; vm_compute; reflexivity.
Qed.

(** C4.  On an R x C grid with every cell dirty and a step budget of at
    least 2*R*C - 1, the agent started at (0,0) visits the cells in
    boustrophedon order: row 0 left to right, row 1 right to left, and so
    on, every cell of the grid exactly once. *)
Theorem boustrophedon_traversal `{RS : RandomSource}
    (R C : Z) (p : pyfloat) (seed max_steps : Z) :
  0 < R -> 0 < C -> certain p -> 2 * R * C - 1 <= max_steps ->
  exists res tr,
    run_episode_traced R C p seed max_steps (0, 0) = Ok (res, tr) /\
    visited (0, 0) tr = boustrophedon R C /\
    NoDup (visited (0, 0) tr) /\
    (forall q, q ∈ visited (0, 0) tr <-> in_bounds R C q).
Proof.
  intros HR HC Hp Hm.
  destruct (origin_episode R C p seed max_steps) as (fin & tr & Hw & _ & _ & _ & Hv).
  exists (result_of R C p seed fin), tr.
  split; [apply run_episode_traced_Ok; eauto |].
  rewrite (Hv HR HC Hp Hm).
  split; [reflexivity |]. apply boustrophedon_cells; lia.
Qed.

Lemma boustrophedon_traversal_witness :
  exists res tr,
    run_episode_traced (RS := lcg_source) 3 4 (Finite 1) 5 23 (0, 0) = Ok (res, tr) /\
    visited (0, 0) tr = boustrophedon 3 4 /\
    NoDup (visited (0, 0) tr) /\
    (forall q, q ∈ visited (0, 0) tr <-> in_bounds 3 4 q).
Proof.
  apply (boustrophedon_traversal (RS := lcg_source) 3 4 (Finite 1) 5 23).
  - lia.
  - lia.
  - simpl. unfold Qle. simpl. lia.
  - lia.
Defined.

(** C6.  The policy is the two-state machine of the description: the agent
    starts sweeping rightward, and from either state [choose_action]
    returns the action, and leaves the agent in the state, that [policy]
    gives. *)
Theorem choose_action_is_policy :
  direction Agent_init = encode Rightward /\
  forall (d : SweepDir) (p : Percept),
    choose_action (mkAgent (encode d)) p
    = (fst (policy d p), mkAgent (encode (snd (policy d p)))).
Proof.
  split; [reflexivity |].
  intros [] [ps dh wu wd wl wr]; unfold choose_action, policy; simpl;
    destruct dh, wr, wd, wl; reflexivity.
Qed.

(** C7.  From a position inside the grid [step] returns, for every action
    token, a position inside the grid: the target of a directional action
    when that is in the grid and the position unchanged otherwise; every
    token other than SUCK, UP, DOWN, LEFT and RIGHT keeps both the position
    and the room. *)
Theorem step_boundary_safe (room : Room) (p : Pos) (action : string) :
  Room_wf room = true ->
  in_bounds (rows room) (cols room) p ->
  exists room',
    step room p action
      = Ok (room', clamped_move (rows room) (cols room) p action) /\
    in_bounds (rows room) (cols room)
      (clamped_move (rows room) (cols room) p action) /\
    (action <> "SUCK"%string -> room' = room) /\
    (action = "SUCK"%string -> step room p action = Ok (room', p)) /\
    (action <> "SUCK"%string -> action <> "UP"%string ->
     action <> "DOWN"%string -> action <> "LEFT"%string ->
     action <> "RIGHT"%string ->
       step room p action = Ok (room, p)).
Proof.
  intros Hwf Hin. destruct (step_in_bounds room p action Hwf Hin) as [room' Hs].
  exists room'. split; [exact Hs |].
  split; [now apply clamped_move_in_bounds |].
  split; [apply (step_Ok _ _ _ _ _ Hwf Hs) |].
  split; [intros ->; exact Hs |].
  intros H1 H2 H3 H4 H5. unfold step. destruct p as [r c].
  apply String.eqb_neq in H1, H2, H3, H4, H5.
  rewrite H1, H2, H3, H4, H5. reflexivity.
Qed.

Lemma step_boundary_safe_witness :
  let room := Room_init (RS := lcg_source) 2 2 (Finite 1) 0 in
  exists room',
    step room (0, 1) "RIGHT" = Ok (room', clamped_move 2 2 (0, 1) "RIGHT") /\
    in_bounds 2 2 (clamped_move 2 2 (0, 1) "RIGHT") /\
    ("RIGHT"%string <> "SUCK"%string -> room' = room) /\
    ("RIGHT"%string = "SUCK"%string ->
       step room (0, 1) "RIGHT" = Ok (room', (0, 1))) /\
    ("RIGHT"%string <> "SUCK"%string -> "RIGHT"%string <> "UP"%string ->
     "RIGHT"%string <> "DOWN"%string -> "RIGHT"%string <> "LEFT"%string ->
     "RIGHT"%string <> "RIGHT"%string ->
       step room (0, 1) "RIGHT" = Ok (room, (0, 1))).
Proof.
  intros room. apply (step_boundary_safe room (0, 1) "RIGHT").
  - reflexivity.
  - unfold in_bounds. simpl. lia.
Defined.

(** C10.  Dirt never comes back: whatever [step] is given, no cell that was
    clean before is dirty after, only SUCK changes the room, and
    [dirt_count()] does not go up; so it does not go up across any
    iteration of the loop, and [dirt_remaining <= initial_dirt] in every
    record [run_episode] returns. *)
Theorem dirt_never_increases :
  (forall (room room' : Room) (p p' : Pos) (action : string),
     Room_wf room = true ->
     step room p action = Ok (room', p') ->
     (forall q, 0 <= fst q -> 0 <= snd q ->
        cell (grid room') q = true -> cell (grid room) q = true) /\
     (action <> "SUCK"%string -> room' = room) /\
     (action = "SUCK"%string ->
        forall q, 0 <= fst q -> 0 <= snd q -> q <> norm_pos room p ->
          cell (grid room') q = cell (grid room) q) /\
     exists n n', dirt_count room = Ok n /\ dirt_count room' = Ok n' /\ n' <= n) /\
  (forall (RS : RandomSource) (R C : Z) (p : pyfloat) (seed max_steps : Z)
          (start : Pos) (res : EpisodeResult) (tr : list Event),
     run_episode_traced R C p seed max_steps start = Ok (res, tr) ->
     dirt_remaining res <= initial_dirt res /\
     forall e, e ∈ tr ->
       exists n n', dirt_count (ev_room e) = Ok n /\
                    dirt_count (ev_room' e) = Ok n' /\ n' <= n).
Proof.
  split.
  - intros room room' p p' action Hwf Hs.
    destruct (step_Ok _ _ _ _ _ Hwf Hs) as (Hwf' & Hr' & Hc' & Hmono & Hsuck & Hother).
    split; [exact Hmono |]. split; [exact Hother |]. split.
    { intros Ha q Hq1 Hq2 Hne. destruct (Hsuck Ha) as (_ & _ & Hcell).
      rewrite Hcell by assumption. case_decide; [contradiction | reflexivity]. }
    exists (dirt room), (dirt room').
    split; [now apply dirt_count_wf |]. split; [now apply dirt_count_wf |].
    unfold dirt. rewrite Hr', Hc'. apply total_mono.
    intros q Hq. apply elem_of_range_pairs in Hq as [Hq1 Hq2]. apply Hmono; lia.
  - intros RS R C p seed max_steps start res tr Hrun.
    apply run_episode_traced_Ok in Hrun as (fin & Hw & ->).
    pose proof (while_loop_runs _ _ _ _ _ Hw) as Hruns.
    destruct (runs_wf _ _ _ _ Hruns (Room_init_wf R C p seed))
      as (_ & _ & _ & Hle & _ & Hev).
    split; [exact Hle |].
    intros e He. apply list_elem_of_lookup_1 in He as [i Hi].
    destruct (Hev i e Hi) as (_ & H1 & H2 & _ & H3).
    exists (dirt (ev_room e)), (dirt (ev_room' e)).
    split; [now apply dirt_count_wf |]. split; [now apply dirt_count_wf | exact H3].
Qed.

Lemma dirt_never_increases_witness :
  let room := Room_init (RS := lcg_source) 2 2 (Finite 1) 0 in
  exists room',
    step room (-1, 0) "SUCK" = Ok (room', (-1, 0)) /\
    exists n n', dirt_count room = Ok n /\ dirt_count room' = Ok n' /\ n' <= n.
Proof.
  intros room.
  destruct (step room (-1, 0) "SUCK") as [[room' p']| |] eqn:Hs;
    [| vm_compute in Hs; discriminate | vm_compute in Hs; discriminate].
  assert (Hp : p' = (-1, 0)) by (vm_compute in Hs; congruence).
  subst p'. exists room'. split; [reflexivity |].
  destruct dirt_never_increases as [Hstep _].
  destruct (Hstep room room' (-1, 0) (-1, 0) "SUCK"%string eq_refl Hs) as (_ & _ & _ & H).
  exact H.
Defined.

(** * Further properties *)

(** ** Cleaning a cell *)

Lemma NoDup_range_pairs (R C : Z) : NoDup (range_pairs R C).
Proof.
  unfold range_pairs. apply NoDup_bind.
  - intros r1 r2 q _ _ H1 H2.
    apply list_elem_of_bind in H1 as (c1 & H1 & _).
    apply list_elem_of_bind in H2 as (c2 & H2 & _).
    apply list_elem_of_singleton in H1, H2. congruence.
  - intros r _. apply NoDup_bind.
    + intros c1 c2 q _ _ H1 H2. apply list_elem_of_singleton in H1, H2. congruence.
    + intros c _. apply NoDup_singleton.
    + apply NoDup_seqZ.
  - apply NoDup_seqZ.
Qed.

Lemma total_ext (g g' : list (list bool)) (ps : list Pos) :
  (forall q, q ∈ ps -> cell g' q = cell g q) -> total g' ps = total g ps.
Proof.
  induction ps as [|p ps IH]; intros H; [reflexivity |]. cbn [total].
  rewrite (H p (list_elem_of_here _ _)), IH; [reflexivity |].
  intros q Hq. apply H. now apply list_elem_of_further.
Qed.

(** Clearing one listed cell lowers the count by one if the cell was dirty
    and leaves it alone otherwise. *)
Lemma total_clean_cell (g g' : list (list bool)) (ps : list Pos) (p0 : Pos) :
  NoDup ps -> p0 ∈ ps ->
  cell g' p0 = false ->
  (forall q, q ∈ ps -> q <> p0 -> cell g' q = cell g q) ->
  total g' ps = total g ps - (if cell g p0 then 1 else 0).
Proof.
  induction 1 as [|p ps Hnotin Hnd IH]; intros Hin Hc Hoth.
  - apply elem_of_nil in Hin. contradiction.
  - cbn [total]. apply elem_of_cons in Hin as [-> | Hin].
    + rewrite Hc. rewrite (total_ext g g' ps); [destruct (cell g p); lia |].
      intros q Hq. apply Hoth; [now apply list_elem_of_further |].
      intros ->. contradiction.
    + assert (Hne : p <> p0) by (intros ->; contradiction).
      rewrite (Hoth p (list_elem_of_here _ _) Hne).
      rewrite IH; [lia | exact Hin | exact Hc |].
      intros q Hq. apply Hoth. now apply list_elem_of_further.
Qed.

(** What [clean] returns, spelled out on the grid. *)
Lemma clean_Ok (room room' : Room) (p : Pos) :
  Room_wf room = true ->
  clean room p = Ok room' ->
  indexable (rows room) (cols room) p /\
  exists row,
    grid room !! Z.to_nat (fst (norm_pos room p)) = Some row /\
    room' = mkRoom (rows room) (cols room) (dirt_prob room) (seed room)
              (<[Z.to_nat (fst (norm_pos room p)) :=
                   <[Z.to_nat (snd (norm_pos room p)) := false]> row]> (grid room)).
Proof.
  intros Hwf Hc.
  destruct (indexable_dec (rows room) (cols room) p) as [Hix | Hix].
  2:{ rewrite (clean_error room p Hwf Hix) in Hc. discriminate. }
  split; [exact Hix |].
  destruct (grid_read room p Hwf Hix) as (row & H1 & Hnr & Hlk & Hnc & Hcb & _).
  exists row. split; [exact Hlk |].
  destruct p as [r c]. unfold clean in Hc. cbn [fst snd] in H1, Hnr, Hnc.
  rewrite H1 in Hc. cbn [bind] in Hc. unfold py_setitem in Hc. rewrite Hnc in Hc.
  destruct (Z.leb_spec 0 (snd (norm_pos room (r, c)))); [| lia].
  destruct (Z.ltb_spec (snd (norm_pos room (r, c))) (Z.of_nat (length row))); [| lia].
  cbn [andb bind] in Hc. rewrite Hnr in Hc. injection Hc as <-. reflexivity.
Qed.

(** [clean] lowers the dirt count by exactly one on a dirty cell and by
    nothing on a clean one. *)
Lemma clean_dirt (room room' : Room) (p : Pos) :
  Room_wf room = true ->
  clean room p = Ok room' ->
  dirt room' = dirt room - (if cell (grid room) (norm_pos room p) then 1 else 0).
Proof.
  intros Hwf Hc. pose proof (clean_Ok room room' p Hwf Hc) as [Hix _].
  destruct (clean_indexable room p Hwf Hix) as (room1 & Hc1 & _ & Hr & Hcl & Hcell).
  rewrite Hc in Hc1. injection Hc1 as <-.
  pose proof (proj1 (indexable_norm_pos room p) Hix) as Hin.
  unfold dirt. rewrite Hr, Hcl.
  apply total_clean_cell.
  - apply NoDup_range_pairs.
  - now apply elem_of_range_pairs.
  - destruct Hin as [Hin1 Hin2]. rewrite Hcell by lia.
    case_decide; [reflexivity | contradiction].
  - intros q Hq Hne. apply elem_of_range_pairs in Hq as [Hq1 Hq2].
    rewrite Hcell by lia. case_decide; [contradiction | reflexivity].
Qed.

(** X1.  Whenever [clean] returns on a room of the declared shape: the
    cell then reads clean, every cell another index pair designates reads
    as before, cleaning it again changes nothing, [dirt_count()] has gone
    down by one if the cell was dirty and not at all if it was clean, and
    a clean cell leaves the whole room as it was. *)
Theorem clean_round_trip (room room' : Room) (p : Pos) :
  Room_wf room = true ->
  clean room p = Ok room' ->
  Room_wf room' = true /\
  is_dirty room' p = Ok false /\
  (forall q, indexable (rows room) (cols room) q ->
     norm_pos room q <> norm_pos room p ->
     is_dirty room' q = is_dirty room q) /\
  clean room' p = Ok room' /\
  (exists b, is_dirty room p = Ok b /\
     dirt_count room' = Ok (dirt room - (if b : bool then 1 else 0)) /\
     dirt_count room = Ok (dirt room) /\
     (b = false -> room' = room)).
Proof.
  intros Hwf Hc. pose proof (clean_dirt room room' p Hwf Hc) as Hd.
  destruct (clean_Ok room room' p Hwf Hc) as (Hix & row & Hlk & Hroom).
  destruct (clean_indexable room p Hwf Hix) as (room1 & Hc1 & Hwf' & Hr & Hcl & Hcell).
  rewrite Hc in Hc1. injection Hc1 as <-.
  assert (Hnp : forall q, norm_pos room' q = norm_pos room q).
  { intros q. unfold norm_pos. now rewrite Hr, Hcl. }
  pose proof (proj1 (indexable_norm_pos room p) Hix) as [Hin1 Hin2].
  destruct (grid_read room p Hwf Hix) as (row0 & _ & _ & Hlk0 & _ & Hcb & _).
  assert (row0 = row) as -> by congruence.
  assert (Hlen : (Z.to_nat (fst (norm_pos room p)) < length (grid room))%nat).
  { apply lookup_lt_is_Some. eauto. }
  split; [exact Hwf' |]. split; [| split; [| split]].
  - rewrite is_dirty_indexable by (rewrite ?Hr, ?Hcl; assumption).
    rewrite Hnp, Hcell by lia. case_decide; [reflexivity | contradiction].
  - intros q Hq Hne.
    rewrite (is_dirty_indexable room' q) by (rewrite ?Hr, ?Hcl; assumption).
    rewrite (is_dirty_indexable room q) by assumption.
    pose proof (proj1 (indexable_norm_pos room q) Hq) as [Hq1 Hq2].
    rewrite Hnp, Hcell by lia. case_decide; [contradiction | reflexivity].
  - assert (Hix' : indexable (rows room') (cols room') p) by (rewrite Hr, Hcl; exact Hix).
    destruct (clean_indexable room' p Hwf' Hix') as (room2 & Hc2 & _).
    rewrite Hc2. f_equal.
    destruct (clean_Ok room' room2 p Hwf' Hc2) as (_ & row2 & Hlk2 & ->).
    rewrite !Hnp in *. rewrite Hroom in Hlk2 |- *. cbn [rows cols dirt_prob seed grid] in *.
    rewrite list_lookup_insert_eq in Hlk2 by exact Hlen. injection Hlk2 as <-.
    now rewrite !list_insert_insert_eq.
  - exists (cell (grid room) (norm_pos room p)).
    split; [now apply is_dirty_indexable |].
    split; [rewrite (dirt_count_wf _ Hwf'), Hd; reflexivity |].
    split; [now apply dirt_count_wf |].
    intros Hb. rewrite Hroom. destruct room as [R C pr sd g]. cbn [rows cols dirt_prob seed grid] in *.
    f_equal. unfold cell in Hb. rewrite Hlk in Hb.
    destruct (row !! Z.to_nat (snd (norm_pos {| rows := R; cols := C; dirt_prob := pr; seed := sd; grid := g |} p)))
      as [b|] eqn:Hb'.
    + subst b. rewrite (list_insert_id row _ _ Hb'). now apply list_insert_id.
    + apply lookup_ge_None in Hb'. lia.
Qed.

Lemma clean_round_trip_witness :
  let room := Room_init (RS := lcg_source) 2 3 (Finite 1) 0 in
  exists room',
    clean room (1, -1) = Ok room' /\
    is_dirty room' (1, -1) = Ok false /\
    clean room' (1, -1) = Ok room'.
Proof.
  intros room.
  destruct (clean room (1, -1)) as [room'| |] eqn:Hc;
    [| vm_compute in Hc; discriminate | vm_compute in Hc; discriminate].
  exists room'. split; [reflexivity |].
  destruct (clean_round_trip room room' (1, -1) eq_refl Hc) as (_ & H1 & _ & H2 & _).
  split; assumption.
Defined.

(** ** The step function, the percept and the policy together *)

(** X2.  [step] can raise only on SUCK: every other token, known or not,
    returns from any position of any room, leaves the room as it is and
    moves the agent by at most one cell; SUCK returns exactly on the
    indexable positions and raises [IndexError] on the others. *)
Theorem step_fails_only_on_suck (room : Room) (p : Pos) (action : string) :
  Room_wf room = true ->
  (action <> "SUCK"%string ->
     exists p', step room p action = Ok (room, p') /\ manhattan p p' <= 1) /\
  (action = "SUCK"%string -> indexable (rows room) (cols room) p ->
     exists room', step room p action = Ok (room', p)) /\
  (action = "SUCK"%string -> ~ indexable (rows room) (cols room) p ->
     step room p action = IndexError).
Proof.
  intros Hwf. destruct p as [r c]. split; [| split].
  - intros Hne. apply String.eqb_neq in Hne. unfold step. rewrite Hne.
    unfold manhattan.
    repeat match goal with
      | |- context [String.eqb action ?s] => destruct (String.eqb action s)
      | |- context [Z.ltb ?a ?b] => destruct (Z.ltb_spec a b)
      end; eexists; (split; [reflexivity | cbn [fst snd]; lia]).
  - intros -> Hix. destruct (clean_indexable room (r, c) Hwf Hix) as (room' & Hc & _).
    exists room'. unfold step. rewrite String.eqb_refl, Hc. reflexivity.
  - intros -> Hix. unfold step. rewrite String.eqb_refl.
    rewrite (clean_error room (r, c) Hwf Hix). reflexivity.
Qed.

Lemma step_fails_only_on_suck_witness :
  let room := Room_init (RS := lcg_source) 2 2 (Finite 1) 0 in
  (exists p', step room (7, 7) "JUMP" = Ok (room, p') /\ manhattan (7, 7) p' <= 1) /\
  step room (7, 7) "SUCK" = IndexError.
Proof.
  intros room.
  destruct (step_fails_only_on_suck room (7, 7) "JUMP" eq_refl) as (H1 & _).
  destruct (step_fails_only_on_suck room (7, 7) "SUCK" eq_refl) as (_ & _ & H2).
  split.
  - apply H1. discriminate.
  - apply H2; [reflexivity |]. unfold indexable. simpl. lia.
Defined.

(** X3.  On a cell of the grid [get_percept] returns, reports the position
    and the dirt flag of that cell, and each wall flag is set exactly when
    [step] with the matching direction leaves the agent where it is. *)
Theorem percept_walls_match_step (room : Room) (p : Pos) :
  Room_wf room = true ->
  in_bounds (rows room) (cols room) p ->
  exists pc,
    get_percept room p = Ok pc /\
    pos pc = p /\
    dirty_here pc = cell (grid room) p /\
    (wall_up pc = true <-> step room p "UP" = Ok (room, p)) /\
    (wall_down pc = true <-> step room p "DOWN" = Ok (room, p)) /\
    (wall_left pc = true <-> step room p "LEFT" = Ok (room, p)) /\
    (wall_right pc = true <-> step room p "RIGHT" = Ok (room, p)).
Proof.
  intros Hwf Hin. exists (percept_of room p (cell (grid room) p)).
  split; [apply get_percept_Ok; eexists; split; [now apply is_dirty_in_bounds | reflexivity] |].
  destruct p as [r c]. destruct Hin as [Hr Hc]. cbn [fst snd] in Hr, Hc.
  unfold percept_of, step. cbn.
  split; [reflexivity |]. split; [reflexivity |].
  repeat split; intros H;
    repeat match goal with
      | H : context [Z.ltb ?a ?b] |- _ => destruct (Z.ltb_spec a b)
      | H : context [Z.eqb ?a ?b] |- _ => destruct (Z.eqb_spec a b)
      | |- context [Z.ltb ?a ?b] => destruct (Z.ltb_spec a b)
      | |- context [Z.eqb ?a ?b] => destruct (Z.eqb_spec a b)
      end; try reflexivity; try discriminate; try lia;
    try (injection H; intros; lia).
Qed.

Lemma percept_walls_match_step_witness :
  let room := Room_init (RS := lcg_source) 2 3 (Finite 1) 0 in
  exists pc,
    get_percept room (1, 2) = Ok pc /\
    (wall_down pc = true <-> step room (1, 2) "DOWN" = Ok (room, (1, 2))) /\
    (wall_left pc = true <-> step room (1, 2) "LEFT" = Ok (room, (1, 2))).
Proof.
  intros room.
  destruct (percept_walls_match_step room (1, 2) eq_refl) as (pc & H1 & _ & _ & _ & H2 & H3 & _).
  { unfold in_bounds. simpl. lia. }
  exists pc. auto.
Defined.

(** X4.  What the policy answers on the percept of a cell of the grid,
    whatever the agent's direction field holds: one of SUCK, RIGHT, LEFT,
    DOWN and NOOP (never UP); SUCK exactly on a dirty cell; a RIGHT, LEFT
    or DOWN always carries the agent to the neighbouring cell, which is in
    the grid (the agent never runs into a wall); NOOP only on a clean cell
    in a corner of the bottom row, with the agent unchanged; and the
    direction changes only together with DOWN. *)
Theorem policy_never_bumps (room : Room) (p : Pos) (agent : OptimizedVacuumAgent) :
  Room_wf room = true ->
  in_bounds (rows room) (cols room) p ->
  exists pc,
    get_percept room p = Ok pc /\
    let a := fst (choose_action agent pc) in
    let agent' := snd (choose_action agent pc) in
    (a = "SUCK" \/ a = "RIGHT" \/ a = "LEFT" \/ a = "DOWN" \/ a = "NOOP")%string /\
    (a = "SUCK"%string <-> cell (grid room) p = true) /\
    (a = "RIGHT"%string ->
       step room p a = Ok (room, (fst p, snd p + 1)) /\
       in_bounds (rows room) (cols room) (fst p, snd p + 1)) /\
    (a = "LEFT"%string ->
       step room p a = Ok (room, (fst p, snd p - 1)) /\
       in_bounds (rows room) (cols room) (fst p, snd p - 1)) /\
    (a = "DOWN"%string ->
       step room p a = Ok (room, (fst p + 1, snd p)) /\
       in_bounds (rows room) (cols room) (fst p + 1, snd p)) /\
    (a = "NOOP"%string ->
       agent' = agent /\ cell (grid room) p = false /\
       fst p = rows room - 1 /\ (snd p = 0 \/ snd p = cols room - 1)) /\
    (agent' <> agent -> a = "DOWN"%string).
Proof.
  intros Hwf Hin. exists (percept_of room p (cell (grid room) p)).
  split; [apply get_percept_Ok; eexists; split; [now apply is_dirty_in_bounds | reflexivity] |].
  destruct p as [r c]. destruct Hin as [Hr Hc]. cbn [fst snd] in Hr, Hc.
  destruct agent as [d]. unfold choose_action, percept_of, in_bounds.
  cbn [dirty_here wall_right wall_down wall_left direction fst snd].
  destruct (cell (grid room) (r, c)); cbn [fst snd].
  { repeat split; intros; try discriminate; try congruence; auto. }
  destruct (d =? 1);
    [destruct (Z.eqb_spec c (cols room - 1)) | destruct (Z.eqb_spec c 0)];
    cbn [negb fst snd];
    try destruct (Z.eqb_spec r (rows room - 1)); cbn [negb fst snd];
    (split; [tauto |]);
    (split; [split; intros; discriminate |]);
    repeat split; intros; try discriminate; try congruence; try lia;
    unfold step; cbn;
    repeat match goal with
      | |- context [Z.ltb ?a ?b] => destruct (Z.ltb_spec a b)
      end; try reflexivity; try lia; auto.
Qed.

Lemma policy_never_bumps_witness :
  let room := Room_init (RS := lcg_source) 2 3 (Finite 0) 0 in
  exists pc,
    get_percept room (0, 2) = Ok pc /\
    fst (choose_action Agent_init pc) = "DOWN"%string /\
    step room (0, 2) "DOWN" = Ok (room, (1, 2)).
Proof.
  intros room.
  destruct (policy_never_bumps room (0, 2) Agent_init eq_refl)
    as (pc & H1 & _ & _ & _ & _ & H2 & _).
  { unfold in_bounds. simpl. lia. }
  exists pc. split; [exact H1 |].
  assert (Ha : fst (choose_action Agent_init pc) = "DOWN"%string).
  { vm_compute in H1. injection H1 as <-. reflexivity. }
  split; [exact Ha |]. rewrite Ha in H2. apply (H2 eq_refl).
Defined.

(** ** One iteration, from any position *)

Lemma step_SUCK (room : Room) (p : Pos) :
  step room p "SUCK" = (room' <- clean room p ;; Ok (room', p)).
Proof. destruct p. reflexivity. Qed.

(** The two ways an iteration can go: the cell read dirty and is cleaned in
    place, or it read clean and the agent moves (or waits) without
    touching the room, never upwards and never by more than one cell. *)
Lemma loop_body_cases (st st' : State) (e : Event) :
  loop_body st = Ok (st', e) ->
  e = mkEvent (st_room st) (st_pos st) (ev_action e) (st_room st') (st_pos st') /\
  st_steps st' = st_steps st + 1 /\
  ((is_dirty (st_room st) (st_pos st) = Ok true /\
    ev_action e = "SUCK"%string /\
    st_pos st' = st_pos st /\ st_agent st' = st_agent st /\
    clean (st_room st) (st_pos st) = Ok (st_room st'))
   \/
   (is_dirty (st_room st) (st_pos st) = Ok false /\
    st_room st' = st_room st /\
    (ev_action e = "RIGHT" \/ ev_action e = "LEFT" \/ ev_action e = "DOWN"
     \/ ev_action e = "NOOP")%string /\
    fst (st_pos st) <= fst (st_pos st') /\
    manhattan (st_pos st) (st_pos st') <= 1 /\
    (ev_action e = "NOOP"%string ->
       st_agent st' = st_agent st /\ st_pos st' = st_pos st))).
Proof.
  intros Hb. apply loop_body_Ok in Hb as (b & Hd & Hs & Hag & Hst & He).
  cbv zeta in Hs, Hag, He.
  assert (Hact : ev_action e
                 = fst (choose_action (st_agent st)
                          (percept_of (st_room st) (st_pos st) b)))
    by (rewrite He; reflexivity).
  split; [rewrite He; reflexivity |]. split; [exact Hst |].
  rewrite Hact. clear He Hact.
  destruct (st_agent st) as [d], (st_pos st) as [r c].
  unfold choose_action, percept_of in *.
  cbn [dirty_here wall_right wall_down wall_left direction fst snd] in *.
  destruct b.
  - left. cbn [fst snd] in *. rewrite step_SUCK in Hs.
    destruct (clean (st_room st) (r, c)) as [room1| |]; try discriminate.
    cbn [bind] in Hs. injection Hs as <- <-. auto.
  - right. split; [exact Hd |]. unfold manhattan.
    destruct (d =? 1);
      [destruct (c =? cols (st_room st) - 1) | destruct (c =? 0)];
      cbn [negb fst snd] in *;
      try destruct (r =? rows (st_room st) - 1); cbn [negb fst snd] in *;
      unfold step in Hs; cbn in Hs;
      repeat match type of Hs with
        | context [Z.ltb ?a ?b] => destruct (Z.ltb_spec a b)
        end;
      injection Hs as <- <-; cbn [fst snd];
      (split; [reflexivity |]); (split; [tauto |]);
      (split; [lia |]); (split; [lia |]);
      intros; try discriminate; auto.
Qed.

(** The body of the loop reads the room, the agent and the position of the
    state, not its step counter. *)
Lemma loop_body_same (st1 st2 st1' : State) (e : Event) :
  st_room st2 = st_room st1 -> st_agent st2 = st_agent st1 ->
  st_pos st2 = st_pos st1 ->
  loop_body st1 = Ok (st1', e) ->
  loop_body st2
  = Ok (mkState (st_room st1') (st_agent st1') (st_pos st1') (st_steps st2 + 1), e).
Proof.
  intros Hr Ha Hp Hb. apply loop_body_Ok in Hb as (b & Hd & Hs & Hag & Hst & He).
  apply loop_body_Ok. exists b. rewrite Hr, Ha, Hp. cbn [st_room st_agent st_pos st_steps].
  auto.
Qed.

(** The part of an execution that starts at its [i]-th iteration. *)
Lemma runs_drop (max_steps : Z) (st fin : State) (tr : list Event) :
  runs max_steps st tr fin ->
  Room_wf (st_room st) = true ->
  forall i e, tr !! i = Some e ->
  exists sti sti',
    runs max_steps sti (drop i tr) fin /\
    loop_body sti = Ok (sti', e) /\
    Room_wf (st_room sti) = true /\
    0 < dirt (st_room sti).
Proof.
  induction 1 as [st Hge | st n Hlt Hn Hz | st n st' e tr fin Hlt Hn Hpos Hb Hr IH];
    intros Hwf i e0 Hi; try (destruct i; discriminate).
  destruct i as [|i]; simpl in Hi.
  - injection Hi as <-. exists st, st'. split; [eapply runs_iter; eauto |].
    rewrite (dirt_count_wf _ Hwf) in Hn. injection Hn as <-. auto.
  - destruct (loop_body_wf _ _ _ Hwf Hb) as (Hwf' & _).
    exact (IH Hwf' i e0 Hi).
Qed.

(** ** The agent never goes back up *)

Lemma runs_rows (R C max_steps : Z) (st fin : State) (tr : list Event) :
  runs max_steps st tr fin ->
  Safe R C st ->
  Safe R C fin /\
  fst (st_pos st) <= fst (st_pos fin) /\
  (forall q, in_bounds R C q -> fst q < fst (st_pos st) ->
     cell (grid (st_room fin)) q = cell (grid (st_room st)) q) /\
  (forall e, e ∈ tr ->
     in_bounds R C (ev_pos e) /\ in_bounds R C (ev_pos' e) /\
     fst (st_pos st) <= fst (ev_pos e) <= fst (ev_pos' e) /\
     forall q, in_bounds R C q -> fst q < fst (st_pos st) ->
       cell (grid (ev_room' e)) q = cell (grid (st_room st)) q).
Proof.
  induction 1 as [st Hge | st n Hlt Hn Hz | st n st' e tr fin Hlt Hn Hpos Hb Hr IH];
    intros Hsafe.
  1,2: (split; [exact Hsafe |]; split; [lia |]; split; [reflexivity |];
        intros e He; apply elem_of_nil in He; contradiction).
  destruct (loop_body_in_bounds R C st Hsafe) as (room' & _ & Hb' & Hsafe').
  rewrite Hb in Hb'. injection Hb' as Hst' He.
  rewrite <- Hst' in Hsafe'.
  destruct (IH Hsafe') as (Hfin & Hrow & Hcells & Hev).
  pose proof Hsafe as (Hwf & HR & HC & Hin).
  pose proof Hsafe' as (_ & _ & _ & Hin').
  destruct (loop_body_cases _ _ _ Hb) as (Hev0 & _ & Hcase).
  assert (Hstep : fst (st_pos st) <= fst (st_pos st') /\
                  forall q, in_bounds R C q -> fst q < fst (st_pos st) ->
                    cell (grid (st_room st')) q = cell (grid (st_room st)) q).
  { destruct Hcase as [(_ & _ & Hp & _ & Hc) | (_ & Hroom & _ & Hle & _)].
    - rewrite Hp. split; [lia |]. intros q Hq Hlt'.
      assert (Hix : indexable (rows (st_room st)) (cols (st_room st)) (st_pos st))
        by (apply in_bounds_indexable; rewrite HR, HC; exact Hin).
      destruct (clean_indexable _ _ Hwf Hix) as (room1 & Hc1 & _ & _ & _ & Hcell).
      rewrite Hc in Hc1. injection Hc1 as <-.
      destruct Hq as [Hq1 Hq2]. rewrite Hcell by lia.
      rewrite norm_pos_in_bounds by (rewrite HR, HC; exact Hin).
      case_decide as Heq; [subst q; lia | reflexivity].
    - rewrite Hroom. split; [exact Hle | reflexivity]. }
  destruct Hstep as [Hle Hsame].
  split; [exact Hfin |]. split; [lia |]. split.
  { intros q Hq Hlt'. rewrite Hcells by (auto; lia). now apply Hsame. }
  intros e0 He0. apply elem_of_cons in He0 as [-> | He0].
  - rewrite Hev0. cbn [ev_pos ev_pos' ev_room'].
    split; [exact Hin |]. split; [exact Hin' |]. split; [lia |]. exact Hsame.
  - destruct (Hev e0 He0) as (H1 & H2 & H3 & H4).
    split; [exact H1 |]. split; [exact H2 |]. split; [lia |].
    intros q Hq Hlt'. rewrite H4 by (auto; lia). now apply Hsame.
Qed.

(** X5.  In an episode started on a cell of the grid the agent stays on
    the grid and its row never decreases, so no cell of a row above the
    start is ever changed; if one of them starts dirty the episode cannot
    succeed. *)
Theorem rows_above_start_untouched `{RS : RandomSource}
    (R C : Z) (p : pyfloat) (seed max_steps : Z) (start : Pos)
    (res : EpisodeResult) (tr : list Event) :
  in_bounds R C start ->
  run_episode_traced R C p seed max_steps start = Ok (res, tr) ->
  (forall e, e ∈ tr ->
     in_bounds R C (ev_pos e) /\ in_bounds R C (ev_pos' e) /\
     fst start <= fst (ev_pos e) <= fst (ev_pos' e) /\
     forall q, in_bounds R C q -> fst q < fst start ->
       cell (grid (ev_room' e)) q = cell (grid (Room_init R C p seed)) q) /\
  ((exists q, in_bounds R C q /\ fst q < fst start /\
              cell (grid (Room_init R C p seed)) q = true) ->
   cleaned_all res = false /\ 0 < dirt_remaining res).
Proof.
  intros Hin Hrun. apply run_episode_traced_Ok in Hrun as (fin & Hw & ->).
  pose proof (while_loop_runs _ _ _ _ _ Hw) as Hruns.
  assert (Hsafe : Safe R C (initial_state R C p seed start)).
  { unfold Safe, initial_state. simpl. auto using Room_init_wf. }
  destruct (runs_rows R C _ _ _ _ Hruns Hsafe) as (Hfin & _ & Hcells & Hev).
  cbn [initial_state st_room st_pos] in Hcells, Hev.
  split; [exact Hev |].
  intros (q & Hq & Hlt & Hd). unfold result_of. cbn [cleaned_all dirt_remaining].
  destruct Hfin as (_ & HR & HC & _).
  assert (Hne : dirt (st_room fin) <> 0).
  { intros Hz. rewrite <- (Hcells q Hq Hlt) in Hd.
    rewrite (proj1 (dirt_zero (st_room fin)) Hz) in Hd; [discriminate |].
    rewrite HR, HC. exact Hq. }
  pose proof (dirt_bounds (st_room fin)) as [Hnn _].
  split; [apply Z.eqb_neq; exact Hne | lia].
Qed.

Lemma rows_above_start_untouched_witness :
  exists res tr,
    run_episode_traced (RS := lcg_source) 3 3 (Finite 1) 0 50 (1, 1) = Ok (res, tr) /\
    cleaned_all res = false /\ 0 < dirt_remaining res.
Proof.
  assert (Hin : in_bounds 3 3 (1, 1)) by (unfold in_bounds; simpl; lia).
  destruct (run_episode_traced (RS := lcg_source) 3 3 (Finite 1) 0 50 (1, 1))
    as [[res tr]| |] eqn:Hrun;
    [| vm_compute in Hrun; discriminate | vm_compute in Hrun; discriminate].
  exists res, tr. split; [reflexivity |].
  destruct (rows_above_start_untouched (RS := lcg_source) 3 3 (Finite 1) 0 50 (1, 1)
              res tr Hin Hrun) as [_ H].
  apply H. exists (0, 0). split; [unfold in_bounds; simpl; lia |].
  split; [simpl; lia | reflexivity].
Defined.

(** ** NOOP is a steady state *)

Lemma runs_stuck (max_steps : Z) (st fin : State) (tr : list Event) :
  runs max_steps st tr fin ->
  Room_wf (st_room st) = true ->
  forall st' e0,
    loop_body st = Ok (st', e0) -> ev_action e0 = "NOOP"%string ->
    0 < dirt (st_room st) ->
    (forall e, e ∈ tr -> e = e0) /\
    st_room fin = st_room st /\ max_steps <= st_steps fin.
Proof.
  induction 1 as [st Hge | st n Hlt Hn Hz | st n st' e tr fin Hlt Hn Hpos Hb Hr IH];
    intros Hwf st0 e0 Hb0 Hnoop Hd.
  - split; [intros e He; apply elem_of_nil in He; contradiction | auto].
  - rewrite (dirt_count_wf _ Hwf) in Hn. injection Hn as <-. lia.
  - rewrite Hb in Hb0. injection Hb0 as <- <-.
    destruct (loop_body_cases _ _ _ Hb) as (_ & _ & [(_ & Ha & _) | (_ & Hroom & _ & _ & _ & Hsame)]).
    { rewrite Ha in Hnoop. discriminate. }
    destruct (Hsame Hnoop) as [Hag Hp].
    pose proof (loop_body_same st st' st' e Hroom Hag Hp Hb) as Hb'.
    destruct (IH ltac:(rewrite Hroom; exact Hwf) _ _ Hb' Hnoop ltac:(rewrite Hroom; exact Hd))
      as (Hall & Hfin & Hmax).
    split; [| split; [congruence | exact Hmax]].
    intros e1 He1. apply elem_of_cons in He1 as [-> | He1]; [reflexivity | now apply Hall].
Qed.

(** X6.  NOOP is a hard stop.  Once the policy answers NOOP inside the
    loop, every later iteration is the same NOOP at the same position in
    the same room, and the episode ends only by its budget:
    [steps_taken == max_steps], [cleaned_all] is false and the dirt that
    was there at the first NOOP is the [dirt_remaining]. *)
Theorem noop_is_absorbing `{RS : RandomSource}
    (R C : Z) (p : pyfloat) (seed max_steps : Z) (start : Pos)
    (res : EpisodeResult) (tr : list Event) (i : nat) (e : Event) :
  run_episode_traced R C p seed max_steps start = Ok (res, tr) ->
  tr !! i = Some e -> ev_action e = "NOOP"%string ->
  (forall j e', (i <= j)%nat -> tr !! j = Some e' -> e' = e) /\
  ev_room' e = ev_room e /\ ev_pos' e = ev_pos e /\
  steps_taken res = max_steps /\
  cleaned_all res = false /\
  dirt_count (ev_room e) = Ok (dirt_remaining res).
Proof.
  intros Hrun Hi Hnoop. apply run_episode_traced_Ok in Hrun as (fin & Hw & ->).
  pose proof (while_loop_runs _ _ _ _ _ Hw) as Hruns.
  pose proof (Room_init_wf R C p seed) as Hwf0.
  destruct (runs_drop _ _ _ _ Hruns Hwf0 i e Hi) as (sti & sti' & Hsuf & Hb & Hwf & Hd).
  destruct (runs_stuck _ _ _ _ Hsuf Hwf _ _ Hb Hnoop Hd) as (Hall & Hfin & Hmax).
  destruct (loop_body_cases _ _ _ Hb) as (He & _ & [(_ & Ha & _) | (_ & Hroom & _ & _ & _ & Hsame)]).
  { rewrite Ha in Hnoop. discriminate. }
  destruct (Hsame Hnoop) as [_ Hp].
  destruct (runs_steps _ _ _ _ Hruns) as [_ Hle].
  assert (Hne : tr <> []) by (intros ->; discriminate).
  unfold result_of. cbn [steps_taken cleaned_all dirt_remaining].
  split; [| split; [| split; [| split; [| split]]]].
  - intros j e' Hj Hj'. apply Hall.
    apply (list_elem_of_lookup_2 _ (j - i)). rewrite lookup_drop.
    replace (i + (j - i))%nat with j by lia. exact Hj'.
  - rewrite He. cbn [ev_room ev_room']. exact Hroom.
  - rewrite He. cbn [ev_pos ev_pos']. exact Hp.
  - specialize (Hle Hne). lia.
  - apply Z.eqb_neq. rewrite Hfin. lia.
  - rewrite He. cbn [ev_room]. rewrite Hfin. now apply dirt_count_wf.
Qed.

Lemma noop_is_absorbing_witness :
  exists res tr e,
    run_episode_traced (RS := lcg_source) 2 2 (Finite 1) 0 9 (1, 0) = Ok (res, tr) /\
    tr !! 3%nat = Some e /\
    steps_taken res = 9 /\ cleaned_all res = false.
Proof.
  destruct (run_episode_traced (RS := lcg_source) 2 2 (Finite 1) 0 9 (1, 0))
    as [[res tr]| |] eqn:Hrun;
    [| vm_compute in Hrun; discriminate | vm_compute in Hrun; discriminate].
  destruct (tr !! 3%nat) as [e|] eqn:Hi;
    [| vm_compute in Hrun; injection Hrun as _ <-; discriminate].
  assert (Ha : ev_action e = "NOOP"%string).
  { vm_compute in Hrun. injection Hrun as _ <-. injection Hi as <-. reflexivity. }
  exists res, tr, e. split; [reflexivity |]. split; [exact Hi |].
  destruct (noop_is_absorbing (RS := lcg_source) 2 2 (Finite 1) 0 9 (1, 0) res tr 3 e
              Hrun Hi Ha) as (_ & _ & _ & H1 & H2 & _).
  split; assumption.
Defined.

(** ** Counting the actions of an episode *)

Lemma count_action_cons (a : string) (e : Event) (tr : list Event) :
  count_action a (e :: tr)
  = (if String.eqb (ev_action e) a then 1 else 0) + count_action a tr.
Proof.
  unfold count_action. cbn [List.filter].
  destruct (String.eqb (ev_action e) a); cbn [length]; lia.
Qed.

Lemma runs_suck_count (max_steps : Z) (st fin : State) (tr : list Event) :
  runs max_steps st tr fin ->
  Room_wf (st_room st) = true ->
  dirt (st_room fin) = dirt (st_room st) - count_action "SUCK" tr /\
  count_action "UP" tr = 0 /\
  Z.of_nat (length tr)
  = count_action "SUCK" tr + count_action "RIGHT" tr + count_action "LEFT" tr
    + count_action "DOWN" tr + count_action "NOOP" tr.
Proof.
  induction 1 as [st Hge | st n Hlt Hn Hz | st n st' e tr fin Hlt Hn Hpos Hb Hr IH];
    intros Hwf.
  1,2: (unfold count_action; cbn; repeat split; lia).
  destruct (loop_body_wf _ _ _ Hwf Hb) as (Hwf' & _).
  destruct (IH Hwf') as (IH1 & IH2 & IH3).
  rewrite !count_action_cons. cbn [length]. rewrite Nat2Z.inj_succ.
  destruct (loop_body_cases _ _ _ Hb)
    as (_ & _ & [(Hd & Ha & _ & _ & Hc) | (_ & Hroom & Ha & _)]).
  - rewrite Ha. cbn. pose proof (clean_dirt _ _ _ Hwf Hc) as Hcd.
    destruct (clean_Ok _ _ _ Hwf Hc) as (Hix & _).
    rewrite (is_dirty_indexable _ _ Hwf Hix) in Hd. injection Hd as Hd.
    rewrite Hd in Hcd. lia.
  - rewrite Hroom in IH1.
    destruct Ha as [Ha | [Ha | [Ha | Ha]]]; rewrite Ha; cbn; lia.
Qed.

(** X7.  No SUCK is wasted and no UP is ever made: in every episode that
    returns, the number of SUCK actions is exactly
    [initial_dirt - dirt_remaining], and [steps_taken] is the number of
    SUCK, RIGHT, LEFT, DOWN and NOOP actions together. *)
Theorem sucks_are_never_wasted `{RS : RandomSource}
    (R C : Z) (p : pyfloat) (seed max_steps : Z) (start : Pos)
    (res : EpisodeResult) (tr : list Event) :
  run_episode_traced R C p seed max_steps start = Ok (res, tr) ->
  count_action "SUCK" tr = initial_dirt res - dirt_remaining res /\
  count_action "UP" tr = 0 /\
  steps_taken res
  = count_action "SUCK" tr + count_action "RIGHT" tr + count_action "LEFT" tr
    + count_action "DOWN" tr + count_action "NOOP" tr.
Proof.
  intros Hrun. apply run_episode_traced_Ok in Hrun as (fin & Hw & ->).
  pose proof (while_loop_runs _ _ _ _ _ Hw) as Hruns.
  destruct (runs_suck_count _ _ _ _ Hruns (Room_init_wf R C p seed)) as (H1 & H2 & H3).
  destruct (runs_steps _ _ _ _ Hruns) as [Hlen _].
  cbn [initial_state st_room st_steps] in *.
  unfold result_of. cbn [initial_dirt dirt_remaining steps_taken].
  split; [lia |]. split; [exact H2 | lia].
Qed.

Lemma sucks_are_never_wasted_witness :
  exists res tr,
    run_episode_traced (RS := lcg_source) 4 5 (Finite (1 # 3)) 7 100 (2, 1)
      = Ok (res, tr) /\
    count_action "SUCK" tr = initial_dirt res - dirt_remaining res.
Proof.
  destruct (run_episode_traced (RS := lcg_source) 4 5 (Finite (1 # 3)) 7 100 (2, 1))
    as [[res tr]| |] eqn:Hrun;
    [| vm_compute in Hrun; discriminate | vm_compute in Hrun; discriminate].
  exists res, tr. split; [reflexivity |].
  apply (sucks_are_never_wasted (RS := lcg_source) 4 5 (Finite (1 # 3)) 7 100 (2, 1)
           res tr Hrun).
Defined.

(** ** Exact outcomes from the origin *)

Lemma length_filter_split {A : Type} (f : A -> bool) (l : list A) :
  (length (List.filter f l) + length (List.filter (fun x => negb (f x)) l)
   = length l)%nat.
Proof.
  induction l as [|x l IH]; [reflexivity |]. cbn [List.filter].
  destruct (f x); cbn [negb length]; lia.
Qed.

Lemma length_boustrophedon (R C : Z) :
  0 <= R -> 0 <= C -> Z.of_nat (length (boustrophedon R C)) = R * C.
Proof.
  intros HR HC. rewrite <- (length_map (idx C)), boustrophedon_idx by assumption.
  rewrite length_seqZ. nia.
Qed.

Section OriginExact.
Context {RS : RandomSource}.

Lemma Room_init_dirt_certain (R C : Z) (p : pyfloat) (seed : Z) :
  certain p -> dirt (Room_init R C p seed) = Z.max 0 R * Z.max 0 C.
Proof.
  intros Hp. unfold dirt.
  change (rows (Room_init R C p seed)) with R.
  change (cols (Room_init R C p seed)) with C.
  rewrite <- length_range_pairs. apply total_all_dirty.
  intros q Hq. apply elem_of_range_pairs in Hq. now apply Room_init_all_dirty.
Qed.

(** X8.  The whole record of an all-dirty episode: on an R x C grid with
    every cell dirty, started at (0,0) with a budget of at least
    2*R*C - 1, [run_episode] returns [initial_dirt = R*C],
    [steps_taken = 2*R*C - 1], [dirt_remaining = 0], [cleaned_all = True]. *)
Theorem all_dirty_step_count (R C : Z) (p : pyfloat) (seed max_steps : Z) :
  0 < R -> 0 < C -> certain p -> 2 * R * C - 1 <= max_steps ->
  run_episode R C p seed max_steps (0, 0)
  = Ok (mkResult R C (R * C) (2 * R * C - 1) 0 true).
Proof.
  intros HR HC Hp Hm.
  destruct (origin_episode R C p seed max_steps) as (fin & tr & Hw & _ & _ & Hclean & Hv).
  pose proof (Room_init_dirt_certain R C p seed Hp) as Hd0.
  rewrite !Z.max_r in Hd0 by lia.
  assert (Hz : dirt (st_room fin) = 0) by (apply Hclean; lia).
  specialize (Hv HR HC Hp Hm).
  pose proof (while_loop_runs _ _ _ _ _ Hw) as Hruns.
  destruct (runs_suck_count _ _ _ _ Hruns (Room_init_wf R C p seed)) as (Hs & _ & _).
  destruct (runs_steps _ _ _ _ Hruns) as [Hlen _].
  cbn [initial_state st_room st_steps] in Hs, Hlen.
  assert (Hmoves : Z.of_nat (length (List.filter
              (fun e => negb (String.eqb (ev_action e) "SUCK")) tr)) = R * C - 1).
  { pose proof (length_boustrophedon R C ltac:(lia) ltac:(lia)) as Hlb.
    rewrite <- Hv in Hlb. unfold visited in Hlb. cbn [length] in Hlb.
    rewrite length_map in Hlb. lia. }
  pose proof (length_filter_split (fun e => String.eqb (ev_action e) "SUCK") tr) as Hsplit.
  unfold count_action in Hs.
  apply run_episode_Ok. exists tr. apply run_episode_traced_Ok. exists fin.
  split; [exact Hw |]. unfold result_of. rewrite Hz, Hd0. f_equal. lia.
Qed.

End OriginExact.

Lemma all_dirty_step_count_witness :
  run_episode (RS := lcg_source) 5 4 (Finite 1) 3 39 (0, 0)
  = Ok (mkResult 5 4 (5 * 4) (2 * 5 * 4 - 1) 0 true).
Proof.
  apply (all_dirty_step_count (RS := lcg_source) 5 4 (Finite 1) 3 39); try lia.
  simpl. unfold Qle. simpl. lia.
Defined.



(** X10.  With a [dirt_prob] of 0 or less (or NaN) no cell is dirty:
    [run_episode] returns at once, from any start position even one off
    the grid, with [initial_dirt = 0], [steps_taken = 0] and
    [cleaned_all = True]. *)
Theorem clean_room_takes_no_step `{RS : RandomSource}
    (R C : Z) (p : pyfloat) (seed max_steps : Z) (start : Pos) :
  impossible p ->
  run_episode R C p seed max_steps start = Ok (mkResult R C 0 0 0 true).
Proof.
  intros Hp.
  assert (Hz : dirt (Room_init R C p seed) = 0).
  { apply dirt_zero. intros q Hq. now apply Room_init_all_clean. }
  apply run_episode_Ok. exists []. apply run_episode_traced_Ok.
  exists (initial_state R C p seed start).
  split; [apply while_loop_no_dirt; [apply Room_init_wf | exact Hz] |].
  unfold result_of. cbn [initial_state st_room st_steps]. now rewrite Hz.
Qed.

Lemma clean_room_takes_no_step_witness :
  run_episode (RS := lcg_source) 6 6 (Finite 0) 1 500 (9, 9)
  = Ok (mkResult 6 6 0 0 0 true).
Proof.
  apply (clean_room_takes_no_step (RS := lcg_source) 6 6 (Finite 0) 1 500 (9, 9)).
  simpl. unfold Qle. simpl. lia.
Defined.

(** X11.  A start position that designates no cell makes the episode
    raise: when the room has dirt and the budget is positive, the first
    [get_percept] raises [IndexError] and no record is returned. *)
Theorem start_off_grid_raises `{RS : RandomSource}
    (R C : Z) (p : pyfloat) (seed max_steps : Z) (start : Pos) (n : Z) :
  ~ indexable R C start ->
  0 < max_steps ->
  dirt_count (Room_init R C p seed) = Ok n -> 0 < n ->
  run_episode R C p seed max_steps start = IndexError.
Proof.
  intros Hix Hm Hn Hpos. unfold run_episode, run_episode_traced.
  rewrite Hn. cbn [bind while_loop st_steps st_room].
  destruct (Z.ltb_spec 0 max_steps); [| lia].
  rewrite Hn. cbn [bind]. destruct (Z.ltb_spec 0 n); [| lia].
  unfold loop_body, get_percept. cbn [st_room st_pos].
  rewrite (is_dirty_error (Room_init R C p seed) start (Room_init_wf R C p seed) Hix).
  destruct start. reflexivity.
Qed.

Lemma start_off_grid_raises_witness :
  run_episode (RS := lcg_source) 2 2 (Finite 1) 0 10 (2, 0) = IndexError.
Proof.
  apply (start_off_grid_raises (RS := lcg_source) 2 2 (Finite 1) 0 10 (2, 0) 4).
  - unfold indexable. simpl. lia.
  - lia.
  - reflexivity.
  - lia.
Defined.

(** ** The order of the random draws *)

Section DrawOrder.
Context {RS : RandomSource}.

Lemma advance_add (a b : nat) (s : rng) :
  advance (a + b) s = advance b (advance a s).
Proof. revert s. induction a as [|a IH]; intros s; [reflexivity | apply IH]. Qed.

Lemma gen_row_draws (p : pyfloat) (n : nat) (s : rng) :
  snd (gen_row p n s) = advance n s /\
  forall j, (j < n)%nat ->
    fst (gen_row p n s) !! j = Some (float_lt (nth_draw s j) p).
Proof.
  revert s. induction n as [|n IH]; intros s; [split; [reflexivity | lia] |].
  cbn [gen_row advance]. unfold nth_draw.
  destruct (random s) as [x s1] eqn:Hr. destruct (IH s1) as [IH1 IH2].
  destruct (gen_row p n s1) as [rest s2]. cbn [fst snd] in *.
  split; [exact IH1 |].
  intros [|j] Hj; cbn [advance].
  - rewrite Hr. reflexivity.
  - rewrite Hr. cbn [snd]. apply IH2. lia.
Qed.

Lemma gen_grid_draws (p : pyfloat) (m n : nat) (s : rng) :
  snd (gen_grid p m n s) = advance (m * n) s /\
  forall i, (i < m)%nat ->
    fst (gen_grid p m n s) !! i = Some (fst (gen_row p n (advance (i * n) s))).
Proof.
  revert s. induction m as [|m IH]; intros s; [split; [reflexivity | lia] |].
  cbn [gen_grid]. destruct (gen_row_draws p n s) as [Hs1 _].
  destruct (gen_row p n s) as [row s1] eqn:Hrow. cbn [snd] in Hs1. subst s1.
  destruct (IH (advance n s)) as [IH1 IH2].
  destruct (gen_grid p m n (advance n s)) as [rest s2]. cbn [fst snd] in *.
  split.
  - rewrite IH1. cbn [Nat.mul]. now rewrite advance_add.
  - intros [|i] Hi.
    + cbn. now rewrite Hrow.
    + change ((row :: rest) !! S i) with (rest !! i).
      rewrite (IH2 i) by lia. cbn [Nat.mul].
      now rewrite advance_add.
Qed.

(** X12.  The room is filled in row-major order with one draw per cell:
    cell (r,c) of a new [rows] x [cols] room is dirty exactly when draw
    number [r*cols + c] of the generator seeded with [seed] is below
    [dirt_prob]. *)
Theorem room_follows_the_draws (R C : Z) (p : pyfloat) (seed : Z) (q : Pos) :
  in_bounds R C q ->
  is_dirty (Room_init R C p seed) q
  = Ok (float_lt (nth_draw (Random seed) (Z.to_nat (fst q * C + snd q))) p).
Proof.
  intros Hq. rewrite is_dirty_in_bounds by (auto using Room_init_wf).
  destruct q as [r c]. destruct Hq as [Hr Hc]. cbn [fst snd] in *. f_equal.
  unfold cell, Room_init. cbn [grid fst snd].
  destruct (gen_grid_draws p (Z.to_nat R) (Z.to_nat C) (Random seed)) as [_ Hg].
  rewrite (Hg (Z.to_nat r)) by lia.
  destruct (gen_row_draws p (Z.to_nat C) (advance (Z.to_nat r * Z.to_nat C) (Random seed)))
    as [_ Hrow].
  rewrite (Hrow (Z.to_nat c)) by lia.
  unfold nth_draw. rewrite <- advance_add. do 3 f_equal.
  rewrite Z2Nat.inj_add, Z2Nat.inj_mul by nia. reflexivity.
Qed.

End DrawOrder.

Lemma room_follows_the_draws_witness :
  is_dirty (Room_init (RS := lcg_source) 4 5 (Finite (1 # 3)) 7) (2, 3)
  = Ok (float_lt (nth_draw (RS := lcg_source) (Random 7) (Z.to_nat (2 * 5 + 3)))
          (Finite (1 # 3))).
Proof.
  apply (room_follows_the_draws (RS := lcg_source) 4 5 (Finite (1 # 3)) 7 (2, 3)).
  unfold in_bounds. simpl. lia.
Defined.


(** ** The summary statistics *)

Lemma fold_left_min_spec (rest : list Z) (x : Z) :
  In (fold_left Z.min rest x) (x :: rest) /\
  forall y, In y (x :: rest) -> fold_left Z.min rest x <= y.
Proof.
  revert x. induction rest as [|z rest IH]; intros x; cbn [fold_left].
  - split; [left; reflexivity | intros y [<- | []]; lia].
  - destruct (IH (Z.min x z)) as [IH1 IH2]. split.
    + destruct IH1 as [IH1 | IH1]; [| right; right; exact IH1].
      rewrite <- IH1. destruct (Z.min_spec x z) as [[_ ->] | [_ ->]];
        [left | right; left]; reflexivity.
    + pose proof (IH2 (Z.min x z) (or_introl eq_refl)) as Hm.
      intros y [<- | [<- | Hy]]; [lia | lia | apply IH2; right; exact Hy].
Qed.

Lemma fold_left_max_spec (rest : list Z) (x : Z) :
  In (fold_left Z.max rest x) (x :: rest) /\
  forall y, In y (x :: rest) -> y <= fold_left Z.max rest x.
Proof.
  revert x. induction rest as [|z rest IH]; intros x; cbn [fold_left].
  - split; [left; reflexivity | intros y [<- | []]; lia].
  - destruct (IH (Z.max x z)) as [IH1 IH2]. split.
    + destruct IH1 as [IH1 | IH1]; [| right; right; exact IH1].
      rewrite <- IH1. destruct (Z.max_spec x z) as [[_ ->] | [_ ->]];
        [right; left | left]; reflexivity.
    + pose proof (IH2 (Z.max x z) (or_introl eq_refl)) as Hm.
      intros y [<- | [<- | Hy]]; [lia | lia | apply IH2; right; exact Hy].
Qed.

Lemma sum_bounds (data : list Z) (lo hi : Z) :
  (forall y, In y data -> lo <= y <= hi) ->
  lo * Z.of_nat (length data) <= fold_right Z.add 0 data
    <= hi * Z.of_nat (length data).
Proof.
  induction data as [|x data IH]; intros H; cbn [fold_right length]; [lia |].
  pose proof (H x (or_introl eq_refl)).
  assert (forall y, In y data -> lo <= y <= hi) as H' by (intros; apply H; now right).
  specialize (IH H'). lia.
Qed.

(** On non-empty data the four statistics are defined, the minimum and the
    maximum are elements of the data that bound it, and the mean and the
    median lie between them. *)
Lemma stats_defined (x : Z) (rest : list Z) :
  exists avg med lo hi,
    py_mean (x :: rest) = inr avg /\ py_median (x :: rest) = inr med /\
    py_min (x :: rest) = inr lo /\ py_max (x :: rest) = inr hi /\
    In lo (x :: rest) /\ In hi (x :: rest) /\
    (forall y, In y (x :: rest) -> lo <= y <= hi) /\
    (inject_Z lo <= avg)%Q /\ (avg <= inject_Z hi)%Q /\
    (inject_Z lo <= med)%Q /\ (med <= inject_Z hi)%Q.
Proof.
  destruct (fold_left_min_spec rest x) as [Hlo1 Hlo2].
  destruct (fold_left_max_spec rest x) as [Hhi1 Hhi2].
  set (lo := fold_left Z.min rest x) in *. set (hi := fold_left Z.max rest x) in *.
  assert (Hb : forall y, In y (x :: rest) -> lo <= y <= hi) by (intros; split; auto).
  pose proof (sum_bounds (x :: rest) lo hi Hb) as Hsum.
  set (data := x :: rest) in *.
  set (sorted := merge_sort Z.le data).
  assert (Hperm : Permutation sorted data) by apply merge_sort_Permutation.
  assert (Hlen : length sorted = S (length rest)).
  { rewrite (Permutation_length Hperm). reflexivity. }
  assert (Hnth : forall i, (i < length sorted)%nat -> lo <= nth i sorted 0 <= hi).
  { intros i Hi. apply Hb. apply (Permutation_in _ Hperm). now apply nth_In. }
  assert (Hmed : exists med, py_median data = inr med /\
                             (inject_Z lo <= med)%Q /\ (med <= inject_Z hi)%Q).
  { unfold py_median. fold sorted. cbv zeta. rewrite Hlen.
    cbn [Nat.eqb]. rewrite <- Hlen.
    assert (Hhalf : (length sorted / 2 < length sorted)%nat)
      by (apply Nat.div_lt; lia).
    destruct (Nat.odd (length sorted)) eqn:Hodd.
    - eexists. split; [reflexivity |]. pose proof (Hnth _ Hhalf).
      unfold Qle, inject_Z. cbn [Qnum Qden]. lia.
    - eexists. split; [reflexivity |].
      pose proof (Hnth _ Hhalf).
      assert (length sorted / 2 - 1 < length sorted)%nat by lia.
      pose proof (Hnth _ H0).
      unfold Qle, inject_Z. cbn [Qnum Qden]. lia. }
  destruct Hmed as (med & Hm1 & Hm2 & Hm3).
  exists (Qmake (fold_right Z.add 0 data) (Pos.of_succ_nat (length rest))), med, lo, hi.
  split; [reflexivity |]. split; [exact Hm1 |].
  split; [reflexivity |]. split; [reflexivity |].
  split; [exact Hlo1 |]. split; [exact Hhi1 |]. split; [exact Hb |].
  assert (Hn : Z.pos (Pos.of_succ_nat (length rest)) = Z.of_nat (length data)).
  { rewrite Zpos_P_of_succ_nat. subst data. cbn [length]. lia. }
  split; [| split; [| split; assumption]];
    unfold Qle, inject_Z; cbn [Qnum Qden]; rewrite Hn; lia.
Qed.

(** ** The benchmark *)

Section BenchmarkFacts.
Context {RS : RandomSource}.

(** One trial: the episode returns, within its budget of 2000 steps; on a
    grid of at most 1000 cells it succeeds. *)
Lemma trial_record (R C : Z) (p : pyfloat) (seed : Z) :
  exists res,
    run_episode R C p seed 2000 (0, 0) = Ok res /\
    0 <= steps_taken res <= 2000 /\
    (0 <= R -> 0 <= C -> R * C <= 1000 ->
     cleaned_all res = true /\ steps_taken res <= Z.max 0 (2 * R * C - 1)).
Proof.
  destruct (origin_episode R C p seed 2000) as (fin & tr & Hw & _ & Hsteps & Hclean & _).
  pose proof (while_loop_runs _ _ _ _ _ Hw) as Hruns.
  destruct (runs_steps _ _ _ _ Hruns) as [Hlen Hle].
  cbn [initial_state st_steps] in Hlen.
  pose proof (dirt_bounds (Room_init R C p seed)) as Hb.
  change (rows (Room_init R C p seed)) with R in Hb.
  change (cols (Room_init R C p seed)) with C in Hb.
  exists (result_of R C p seed fin).
  split; [apply run_episode_Ok; exists tr; apply run_episode_traced_Ok; eauto |].
  unfold result_of. cbn [steps_taken cleaned_all]. split.
  - split; [lia |]. destruct tr as [|e tr]; [simpl in Hlen; lia |].
    apply Hle. discriminate.
  - intros HR HC Hsz. rewrite !Z.max_r in Hb by lia.
    rewrite Hclean by lia. split; [reflexivity | lia].
Qed.

Lemma run_trials_total (R C : Z) (p : pyfloat) (ts : list Z) :
  exists results,
    run_trials R C p ts = Ok results /\
    length results = length ts /\
    forall res, In res results ->
      0 <= steps_taken res <= 2000 /\
      (0 <= R -> 0 <= C -> R * C <= 1000 ->
       cleaned_all res = true /\ steps_taken res <= Z.max 0 (2 * R * C - 1)).
Proof.
  induction ts as [|t ts IH]; cbn [run_trials].
  - exists []. split; [reflexivity |]. split; [reflexivity | intros res []].
  - destruct (trial_record R C p (1000 + t)) as (res & Hrun & Hres).
    destruct IH as (results & Hrest & Hlen & Hall).
    rewrite Hrun, Hrest. cbn [bind]. exists (res :: results).
    split; [reflexivity |]. split; [cbn [length]; lia |].
    intros res' [<- | Hin]; auto.
Qed.

Lemma length_filter_le {A : Type} (f : A -> bool) (l : list A) :
  (length (List.filter f l) <= length l)%nat.
Proof.
  induction l as [|x l IH]; [reflexivity |]. cbn [List.filter].
  destruct (f x); cbn [length]; lia.
Qed.


(** X13.  [benchmark] never fails in its episodes, whatever its arguments.
    Without trials ([trials <= 0]) it prints its first three lines with
    0 successes and then raises [StatisticsError] from [statistics.mean].
    With at least one trial it prints all four lines: the success count is
    between 0 and [trials], the minimum and maximum step counts are
    between 0 and 2000, and the mean and the median lie between them. *)
Theorem benchmark_reports (trials R C : Z) (p : pyfloat) :
  exists report,
    benchmark trials R C p = Ok report /\
    (trials <= 0 -> report = Raised 0 StatisticsError) /\
    (1 <= trials ->
     exists success st,
       report = Printed success st /\
       0 <= success <= trials /\
       0 <= min_steps st <= max_steps_seen st /\ max_steps_seen st <= 2000 /\
       (inject_Z (min_steps st) <= avg_steps st)%Q /\
       (avg_steps st <= inject_Z (max_steps_seen st))%Q /\
       (inject_Z (min_steps st) <= median_steps st)%Q /\
       (median_steps st <= inject_Z (max_steps_seen st))%Q).
Proof.
  unfold benchmark.
  destruct (run_trials_total R C p (py_range trials)) as (results & Hrun & Hlen & Hall).
  rewrite Hrun. cbn [bind]. unfold py_range in Hlen. rewrite length_seqZ in Hlen.
  eexists. split; [reflexivity |]. split.
  - intros Ht. destruct results as [|res results]; [reflexivity |].
    cbn [length] in Hlen. lia.
  - intros Ht. destruct results as [|res results]; [cbn [length] in Hlen; lia |].
    set (all := res :: results) in *.
    change (map steps_taken all) with (steps_taken res :: map steps_taken results).
    destruct (stats_defined (steps_taken res) (map steps_taken results))
      as (avg & med & lo & hi & H1 & H2 & H3 & H4 & Hlo & Hhi & Hb & Hq1 & Hq2 & Hq3 & Hq4).
    rewrite H1, H2, H3, H4.
    exists (Z.of_nat (length (List.filter cleaned_all all))), (mkStats avg med lo hi).
    split; [reflexivity |]. cbn [min_steps max_steps_seen avg_steps median_steps].
    assert (Hsteps : forall y, In y (steps_taken res :: map steps_taken results) ->
                               0 <= y <= 2000).
    { intros y Hy. change (In y (map steps_taken all)) in Hy.
      apply in_map_iff in Hy as (r & <- & Hr). apply Hall. exact Hr. }
    pose proof (length_filter_le cleaned_all all).
    pose proof (Hsteps lo Hlo). pose proof (Hsteps hi Hhi). pose proof (Hb lo Hlo).
    repeat split; try assumption; lia.
Qed.


End BenchmarkFacts.

Lemma benchmark_reports_witness :
  benchmark (RS := lcg_source) 0 8 8 (Finite (3 # 10)) = Ok (Raised 0 StatisticsError).
Proof.
  destruct (benchmark_reports (RS := lcg_source) 0 8 8 (Finite (3 # 10)))
    as (report & Hb & H0 & _).
  rewrite Hb. f_equal. apply H0. lia.
Defined.


(** ** How a successful episode ends *)

Lemma runs_nil (max_steps : Z) (st fin : State) :
  runs max_steps st [] fin -> fin = st.
Proof. inversion 1; reflexivity. Qed.

Lemma runs_last_suck (max_steps : Z) (st fin : State) (tr : list Event) :
  runs max_steps st tr fin ->
  Room_wf (st_room st) = true ->
  dirt (st_room fin) = 0 ->
  forall e, last tr = Some e ->
    ev_action e = "SUCK"%string /\ dirt (ev_room e) = 1 /\
    ev_room' e = st_room fin.
Proof.
  induction 1 as [st Hge | st n Hlt Hn Hz | st n st' e tr fin Hlt Hn Hpos Hb Hr IH];
    intros Hwf Hfin e0 Hlast; try discriminate.
  destruct (loop_body_wf _ _ _ Hwf Hb) as (Hwf' & _).
  destruct tr as [|e1 tr].
  - cbn in Hlast. injection Hlast as <-.
    apply runs_nil in Hr. subst fin.
    rewrite (dirt_count_wf _ Hwf) in Hn. injection Hn as <-.
    destruct (loop_body_cases _ _ _ Hb)
      as (He & _ & [(Hd & Ha & _ & _ & Hc) | (_ & Hroom & _)]).
    + split; [exact Ha |]. rewrite He. cbn [ev_room ev_room'].
      split; [| reflexivity].
      pose proof (clean_dirt _ _ _ Hwf Hc) as Hcd.
      destruct (cell (grid (st_room st)) (norm_pos (st_room st) (st_pos st))); lia.
    + rewrite Hroom in Hfin. lia.
  - change (last (e :: e1 :: tr)) with (last (e1 :: tr)) in Hlast.
    exact (IH Hwf' Hfin e0 Hlast).
Qed.

(** X15.  A successful episode stops with the last speck of dirt: either
    the room was clean from the start and no step was taken, or the last
    action is the SUCK that removed the one dirty cell left; no step is
    taken after it. *)
Theorem success_ends_with_suck `{RS : RandomSource}
    (R C : Z) (p : pyfloat) (seed max_steps : Z) (start : Pos)
    (res : EpisodeResult) (tr : list Event) :
  run_episode_traced R C p seed max_steps start = Ok (res, tr) ->
  cleaned_all res = true ->
  (tr = [] /\ initial_dirt res = 0 /\ steps_taken res = 0) \/
  (exists e, last tr = Some e /\ ev_action e = "SUCK"%string /\
             dirt_count (ev_room e) = Ok 1 /\ dirt_count (ev_room' e) = Ok 0).
Proof.
  intros Hrun Hc. apply run_episode_traced_Ok in Hrun as (fin & Hw & ->).
  pose proof (while_loop_runs _ _ _ _ _ Hw) as Hruns.
  pose proof (Room_init_wf R C p seed) as Hwf0.
  unfold result_of in *. cbn [cleaned_all initial_dirt steps_taken] in *.
  apply Z.eqb_eq in Hc.
  destruct (runs_wf _ _ _ _ Hruns Hwf0) as (Hwf & _ & _ & _ & _ & Hev).
  destruct (last tr) as [e|] eqn:Hlast.
  - right. exists e. split; [reflexivity |].
    destruct (runs_last_suck _ _ _ _ Hruns Hwf0 Hc e Hlast) as (Ha & Hd & Hr').
    split; [exact Ha |].
    assert (He : e ∈ tr).
    { apply last_Some in Hlast as [l ->]. apply list_elem_of_In, in_or_app.
      right. left. reflexivity. }
    apply list_elem_of_lookup_1 in He as [i Hi].
    destruct (Hev i e Hi) as (_ & Hw1 & Hw2 & _).
    rewrite (dirt_count_wf _ Hw1), (dirt_count_wf _ Hw2), Hd, Hr', Hc. auto.
  - left. apply last_None in Hlast. subst tr. apply runs_nil in Hruns. subst fin.
    cbn [initial_state st_room st_steps] in *. auto.
Qed.

Lemma success_ends_with_suck_witness :
  exists res tr e,
    run_episode_traced (RS := lcg_source) 4 5 (Finite (1 # 3)) 7 100 (0, 0)
      = Ok (res, tr) /\
    last tr = Some e /\ ev_action e = "SUCK"%string.
Proof.
  destruct (run_episode_traced (RS := lcg_source) 4 5 (Finite (1 # 3)) 7 100 (0, 0))
    as [[res tr]| |] eqn:Hrun;
    [| vm_compute in Hrun; discriminate | vm_compute in Hrun; discriminate].
  assert (Hc : cleaned_all res = true).
  { vm_compute in Hrun. injection Hrun as <- _. reflexivity. }
  destruct (success_ends_with_suck (RS := lcg_source) 4 5 (Finite (1 # 3)) 7 100 (0, 0)
              res tr Hrun Hc) as [(Hnil & _) | (e & H1 & H2 & _)].
  - exfalso. vm_compute in Hrun. injection Hrun as _ <-. discriminate.
  - exists res, tr, e. auto.
Defined.

(** * The episode as a whole *)

(** ** The trace as a chain of iterations *)

Lemma final_room_cons (room0 : Room) (e : Event) (tr : list Event) :
  final_room room0 (e :: tr) = final_room (ev_room' e) tr.
Proof.
  unfold final_room. destruct tr as [|e1 tr]; [reflexivity |].
  change (last (e :: e1 :: tr)) with (last (e1 :: tr)).
  destruct (last (e1 :: tr)) eqn:Hl; [reflexivity |].
  apply last_None in Hl. discriminate.
Qed.

(** The events of an execution are the iterations of the loop, one after
    the other: the first starts from the state the loop is entered in, each
    next one from the room and position the previous one left, each is a
    percept, a decision of the policy and a [step], and the room of the
    final state is the one the last iteration left. *)
Lemma runs_chain (max_steps : Z) (st fin : State) (tr : list Event) :
  runs max_steps st tr fin ->
  st_room fin = final_room (st_room st) tr /\
  (forall e, head tr = Some e ->
     ev_room e = st_room st /\ ev_pos e = st_pos st) /\
  (forall i e e', tr !! i = Some e -> tr !! S i = Some e' ->
     ev_room e' = ev_room' e /\ ev_pos e' = ev_pos' e) /\
  (forall i e, tr !! i = Some e ->
     step (ev_room e) (ev_pos e) (ev_action e) = Ok (ev_room' e, ev_pos' e) /\
     exists pc agent,
       get_percept (ev_room e) (ev_pos e) = Ok pc /\
       ev_action e = fst (choose_action agent pc)).
Proof.
  induction 1 as [st Hge | st n Hlt Hn Hz | st n st' e tr fin Hlt Hn Hpos Hb Hr IH].
  1,2: (split; [reflexivity |]; split; [discriminate |];
        split; intros i; intros; destruct i; discriminate).
  destruct IH as (IH1 & IH2 & IH3 & IH4).
  apply loop_body_Ok in Hb as (b & Hd & Hs & _ & _ & He). cbv zeta in Hs, He.
  assert (He1 : ev_room e = st_room st) by (rewrite He; reflexivity).
  assert (He2 : ev_pos e = st_pos st) by (rewrite He; reflexivity).
  assert (He3 : ev_room' e = st_room st') by (rewrite He; reflexivity).
  assert (He4 : ev_pos' e = st_pos st') by (rewrite He; reflexivity).
  assert (He5 : ev_action e
                = fst (choose_action (st_agent st)
                         (percept_of (st_room st) (st_pos st) b)))
    by (rewrite He; reflexivity).
  split; [rewrite final_room_cons, He3; exact IH1 |].
  split; [intros e0 [= <-]; auto |]. split.
  - intros [|i] e0 e1 Hi Hi'; cbn in Hi, Hi'.
    + injection Hi as <-. destruct (IH2 e1) as [H1 H2].
      { destruct tr; [discriminate | exact Hi']. }
      rewrite H1, H2. auto.
    + exact (IH3 i e0 e1 Hi Hi').
  - intros [|i] e0 Hi; cbn in Hi.
    + injection Hi as <-. rewrite He1, He2, He3, He4, He5. split; [exact Hs |].
      exists (percept_of (st_room st) (st_pos st) b), (st_agent st).
      split; [apply get_percept_Ok; eauto | reflexivity].
    + exact (IH4 i e0 Hi).
Qed.

(** ** Rooms drawn by two generators *)

Lemma float_lt_agree (x1 x2 : Q) (p1 p2 : pyfloat) :
  (x1 == x2)%Q -> float_same p1 p2 -> float_lt x1 p1 = float_lt x2 p2.
Proof.
  intros Hx. destruct p1 as [q1| | |], p2 as [q2| | |]; simpl; try tauto. intros Hq.
  f_equal. destruct (Qle_bool q1 x1) eqn:E1, (Qle_bool q2 x2) eqn:E2; try reflexivity.
  - apply Qle_bool_iff in E1. rewrite Hq, Hx in E1. apply Qle_bool_iff in E1. congruence.
  - apply Qle_bool_iff in E2. rewrite <- Hq, <- Hx in E2. apply Qle_bool_iff in E2.
    congruence.
Qed.

Lemma gen_row_agree (RS1 RS2 : RandomSource) (p1 p2 : pyfloat) (n : nat)
    (s1 : @rng RS1) (s2 : @rng RS2) :
  float_same p1 p2 ->
  (forall k, (k < n)%nat ->
     (nth_draw (RS := RS1) s1 k == nth_draw (RS := RS2) s2 k)%Q) ->
  fst (gen_row (RS := RS1) p1 n s1) = fst (gen_row (RS := RS2) p2 n s2).
Proof.
  intros Hp. revert s1 s2. induction n as [|n IH]; intros s1 s2 Hd; [reflexivity |].
  cbn [gen_row]. pose proof (Hd 0%nat ltac:(lia)) as H0. unfold nth_draw in H0.
  cbn [advance] in H0.
  assert (Hrest : forall k, (k < n)%nat ->
            (nth_draw (RS := RS1) (snd (random s1)) k
             == nth_draw (RS := RS2) (snd (random s2)) k)%Q).
  { intros k Hk. apply (Hd (S k)). lia. }
  specialize (IH _ _ Hrest).
  destruct (random s1) as [x1 s1'], (random s2) as [x2 s2']. cbn [fst snd] in *.
  destruct (gen_row (RS := RS1) p1 n s1') as [r1 t1].
  destruct (gen_row (RS := RS2) p2 n s2') as [r2 t2]. cbn [fst] in *.
  now rewrite IH, (float_lt_agree x1 x2 p1 p2 H0 Hp).
Qed.

Lemma gen_grid_agree (RS1 RS2 : RandomSource) (p1 p2 : pyfloat) (m n : nat)
    (s1 : @rng RS1) (s2 : @rng RS2) :
  float_same p1 p2 ->
  (forall k, (k < m * n)%nat ->
     (nth_draw (RS := RS1) s1 k == nth_draw (RS := RS2) s2 k)%Q) ->
  fst (gen_grid (RS := RS1) p1 m n s1) = fst (gen_grid (RS := RS2) p2 m n s2).
Proof.
  intros Hp. revert s1 s2. induction m as [|m IH]; intros s1 s2 Hd; [reflexivity |].
  cbn [gen_grid].
  assert (Hrow : fst (gen_row (RS := RS1) p1 n s1) = fst (gen_row (RS := RS2) p2 n s2)).
  { apply gen_row_agree; [exact Hp |]. intros k Hk. apply Hd. cbn [Nat.mul]. lia. }
  destruct (gen_row_draws (RS := RS1) p1 n s1) as [Hs1 _].
  destruct (gen_row_draws (RS := RS2) p2 n s2) as [Hs2 _].
  destruct (gen_row (RS := RS1) p1 n s1) as [row1 t1].
  destruct (gen_row (RS := RS2) p2 n s2) as [row2 t2]. cbn [fst snd] in *. subst t1 t2.
  assert (Hrest : forall k, (k < m * n)%nat ->
            (nth_draw (RS := RS1) (advance n s1) k
             == nth_draw (RS := RS2) (advance n s2) k)%Q).
  { intros k Hk. unfold nth_draw. rewrite <- !advance_add. apply (Hd (n + k)%nat).
    cbn [Nat.mul]. lia. }
  specialize (IH _ _ Hrest).
  destruct (gen_grid (RS := RS1) p1 m n (advance n s1)) as [g1 u1].
  destruct (gen_grid (RS := RS2) p2 m n (advance n s2)) as [g2 u2]. cbn [fst] in *.
  now rewrite Hrow, IH.
Qed.

Lemma Room_init_agree (RS1 RS2 : RandomSource) (R C : Z) (p1 p2 : pyfloat)
    (seed1 seed2 : Z) :
  float_same p1 p2 ->
  (forall k, (k < Z.to_nat R * Z.to_nat C)%nat ->
     (nth_draw (RS := RS1) (Random seed1) k
      == nth_draw (RS := RS2) (Random seed2) k)%Q) ->
  forget (Room_init (RS := RS1) R C p1 seed1)
  = forget (Room_init (RS := RS2) R C p2 seed2).
Proof.
  intros Hp Hd. unfold forget, Room_init. cbn [rows cols grid]. f_equal.
  now apply gen_grid_agree.
Qed.

(** The traced episode read off the blanked initial state: the record, and
    the trace with the two unread fields of its rooms blanked. *)
Lemma run_episode_traced_forget `{RS : RandomSource}
    (R C : Z) (p : pyfloat) (seed max_steps : Z) (start : Pos) :
  omap (fun rt => (fst rt, map forget_event (snd rt)))
    (run_episode_traced R C p seed max_steps start) =
  (ft <- while_loop (S (Z.to_nat max_steps)) max_steps
           (forget_state (initial_state R C p seed start)) ;;
   Ok (mkResult R C (dirt (forget (Room_init R C p seed))) (st_steps (fst ft))
         (dirt (st_room (fst ft))) (dirt (st_room (fst ft)) =? 0),
       snd ft)).
Proof.
  rewrite while_loop_forget. unfold omap, run_episode_traced.
  rewrite (dirt_count_wf _ (Room_init_wf R C p seed)). cbn [bind].
  fold (initial_state R C p seed start).
  destruct (while_loop _ _ (initial_state R C p seed start)) as [[fin tr]| |] eqn:Hw;
    [| reflexivity | reflexivity].
  pose proof (while_loop_runs _ _ _ _ _ Hw) as Hr.
  destruct (runs_wf _ _ _ _ Hr (Room_init_wf R C p seed)) as (Hwf & _).
  cbn [bind fst snd]. rewrite (dirt_count_wf _ Hwf). reflexivity.
Qed.

(** ** The all-dirty run, the loop and determinism *)

(** C5.  With [dirt_prob] = 1 every one of the rows*cols cells starts dirty,
    and with [max_steps] at least 2*rows*cols - 1 the episode started at
    (0,0) returns the record [initial_dirt = rows*cols],
    [steps_taken = max(0, 2*rows*cols - 1)] (at most rows*cols*2),
    [dirt_remaining = 0], [cleaned_all = True]; it made rows*cols SUCK
    actions and the room its last iteration left has no dirty cell. *)
Theorem all_dirty_cleaned `{RS : RandomSource} (R C seed max_steps : Z) :
  0 <= R -> 0 <= C -> 2 * R * C - 1 <= max_steps ->
  let room := Room_init R C (Finite 1) seed in
  let res := mkResult R C (R * C) (Z.max 0 (2 * R * C - 1)) 0 true in
  dirt_count room = Ok (R * C) /\
  steps_taken res <= R * C * 2 /\
  run_episode R C (Finite 1) seed max_steps (0, 0) = Ok res /\
  exists tr,
    run_episode_traced R C (Finite 1) seed max_steps (0, 0) = Ok (res, tr) /\
    Z.of_nat (length tr) = steps_taken res /\
    count_action "SUCK" tr = R * C /\
    dirt_count (final_room room tr) = Ok 0 /\
    forall q, in_bounds R C q ->
      is_dirty room q = Ok true /\ is_dirty (final_room room tr) q = Ok false.
Proof.
  intros HR HC Hm room res.
  assert (Hp : certain (Finite 1)) by (simpl; unfold Qle; simpl; lia).
  pose proof (Room_init_wf R C (Finite 1) seed) as Hwf0. fold room in Hwf0.
  pose proof (Room_init_dirt_certain R C (Finite 1) seed Hp) as Hd0. fold room in Hd0.
  rewrite !Z.max_r in Hd0 by lia.
  assert (Hdirty : forall q, in_bounds R C q -> is_dirty room q = Ok true).
  { intros q Hq. rewrite is_dirty_in_bounds by (auto using Room_init_wf).
    f_equal. now apply Room_init_all_dirty. }
  split; [rewrite (dirt_count_wf _ Hwf0), Hd0; reflexivity |].
  split; [subst res; cbn [steps_taken]; lia |].
  assert (Hmain : exists fin tr,
            while_loop (S (Z.to_nat max_steps)) max_steps
              (initial_state R C (Finite 1) seed (0, 0)) = Ok (fin, tr) /\
            dirt (st_room fin) = 0 /\
            st_steps fin = Z.max 0 (2 * R * C - 1)).
  { destruct (Z.eq_dec (R * C) 0) as [Hz | Hnz].
    - exists (initial_state R C (Finite 1) seed (0, 0)), [].
      split; [apply while_loop_no_dirt;
                [exact Hwf0 | cbn [initial_state st_room]; fold room; lia] |].
      cbn [initial_state st_room st_steps]. fold room. lia.
    - assert (0 < R) by nia. assert (0 < C) by nia.
      destruct (origin_episode R C (Finite 1) seed max_steps)
        as (fin & tr & Hw & _ & _ & Hclean & Hv).
      fold room in Hclean.
      assert (Hz : dirt (st_room fin) = 0) by (apply Hclean; lia).
      exists fin, tr. split; [exact Hw |]. split; [exact Hz |].
      specialize (Hv ltac:(lia) ltac:(lia) Hp Hm).
      pose proof (while_loop_runs _ _ _ _ _ Hw) as Hruns.
      destruct (runs_suck_count _ _ _ _ Hruns Hwf0) as (Hs & _ & _).
      destruct (runs_steps _ _ _ _ Hruns) as [Hlen _].
      cbn [initial_state st_room st_steps] in Hs, Hlen. fold room in Hs.
      pose proof (length_boustrophedon R C HR HC) as Hlb.
      rewrite <- Hv in Hlb. unfold visited in Hlb. cbn [length] in Hlb.
      rewrite length_map in Hlb.
      pose proof (length_filter_split (fun e => String.eqb (ev_action e) "SUCK") tr).
      unfold count_action in Hs. lia. }
  destruct Hmain as (fin & tr & Hw & Hz & Hsteps).
  pose proof (while_loop_runs _ _ _ _ _ Hw) as Hruns.
  destruct (runs_wf _ _ _ _ Hruns Hwf0) as (Hwf & HRf & HCf & _).
  destruct (runs_suck_count _ _ _ _ Hruns Hwf0) as (Hs & _ & _).
  destruct (runs_steps _ _ _ _ Hruns) as [Hlen _].
  destruct (runs_chain _ _ _ _ Hruns) as (Hfinal & _).
  cbn [initial_state st_room st_steps] in Hs, Hlen, Hfinal, HRf, HCf.
  fold room in Hs, Hfinal, HRf, HCf.
  assert (Hrun : run_episode_traced R C (Finite 1) seed max_steps (0, 0) = Ok (res, tr)).
  { apply run_episode_traced_Ok. exists fin. split; [exact Hw |].
    unfold result_of. fold room. rewrite Hz, Hd0, Hsteps. reflexivity. }
  split; [apply run_episode_Ok; eauto |].
  exists tr. split; [exact Hrun |].
  split; [subst res; cbn [steps_taken]; lia |].
  split; [lia |]. rewrite <- Hfinal.
  split; [rewrite (dirt_count_wf _ Hwf), Hz; reflexivity |].
  intros q Hq. split; [now apply Hdirty |].
  rewrite is_dirty_in_bounds by (rewrite ?HRf, ?HCf; assumption).
  f_equal. apply (proj1 (dirt_zero (st_room fin)) Hz). rewrite HRf, HCf. exact Hq.
Qed.

Lemma all_dirty_cleaned_witness :
  run_episode (RS := lcg_source) 3 3 (Finite 1) 0 17 (0, 0)
  = Ok (mkResult 3 3 (3 * 3) (Z.max 0 (2 * 3 * 3 - 1)) 0 true).
Proof.
  destruct (all_dirty_cleaned (RS := lcg_source) 3 3 0 17) as (_ & _ & H & _);
    [lia | lia | lia | exact H].
Defined.

(** C8.  [run_episode] iterates its loop exactly while
    [steps_taken < max_steps] and [dirt_count() > 0].  What it returns is
    what the executions of that loop from the constructed room, the fresh
    agent and the start position give, and nothing else: the trace starts
    there, each iteration starts where the previous one ended and is a
    percept, a decision of the policy and a [step], and the guard holds
    before every one of them; the loop ends when the room its last
    iteration left has no dirt or the step counter has reached
    [max_steps]; [initial_dirt] and [dirt_remaining] are the dirt counts of
    the constructed room and of that last room, and [cleaned_all] is the
    test [dirt_remaining == 0].  The loop always ends, and from a start
    inside the grid the episode returns its record. *)
Theorem run_episode_loop_condition `{RS : RandomSource}
    (R C : Z) (p : pyfloat) (seed max_steps : Z) (start : Pos) :
  let room := Room_init R C p seed in
  run_episode_traced R C p seed max_steps start <> OutOfFuel /\
  (in_bounds R C start ->
     exists res tr, run_episode_traced R C p seed max_steps start = Ok (res, tr)) /\
  (forall res tr,
     run_episode_traced R C p seed max_steps start = Ok (res, tr) <->
     exists fin,
       runs max_steps (mkState room Agent_init start 0) tr fin /\
       res = result_of R C p seed fin) /\
  (forall res tr,
     run_episode_traced R C p seed max_steps start = Ok (res, tr) ->
     run_episode R C p seed max_steps start = Ok res /\
     res_rows res = R /\ res_cols res = C /\
     dirt_count room = Ok (initial_dirt res) /\
     dirt_count (final_room room tr) = Ok (dirt_remaining res) /\
     steps_taken res = Z.of_nat (length tr) /\
     (forall e, head tr = Some e -> ev_room e = room /\ ev_pos e = start) /\
     (forall i e e', tr !! i = Some e -> tr !! S i = Some e' ->
        ev_room e' = ev_room' e /\ ev_pos e' = ev_pos' e) /\
     (forall i e, tr !! i = Some e ->
        Z.of_nat i < max_steps /\
        (exists n, dirt_count (ev_room e) = Ok n /\ 0 < n) /\
        step (ev_room e) (ev_pos e) (ev_action e) = Ok (ev_room' e, ev_pos' e) /\
        exists pc agent,
          get_percept (ev_room e) (ev_pos e) = Ok pc /\
          ev_action e = fst (choose_action agent pc)) /\
     (dirt_remaining res = 0 \/ max_steps <= steps_taken res) /\
     steps_taken res <= Z.max 0 max_steps /\
     cleaned_all res = (dirt_remaining res =? 0)).
Proof.
  intros room. pose proof (Room_init_wf R C p seed) as Hwf0. fold room in Hwf0.
  split; [apply run_episode_fuel_adequate |]. split; [| split].
  - intros Hin.
    destruct (run_episode_total R C p seed max_steps start Hin) as (fin & tr & Hw).
    exists (result_of R C p seed fin), tr. apply run_episode_traced_Ok. eauto.
  - intros res tr. rewrite run_episode_traced_Ok. unfold initial_state. fold room.
    split; intros (fin & H & Hres); exists fin; (split; [| exact Hres]).
    + now apply while_loop_runs in H.
    + apply runs_while_loop; [exact H |].
      destruct (runs_steps _ _ _ _ H) as [Hlen Hle]. cbn [st_steps] in Hlen.
      destruct tr as [|e tr]; [cbn [length]; lia |].
      assert (st_steps fin <= max_steps) by (apply Hle; discriminate). lia.
  - intros res tr Hrun. split; [apply run_episode_Ok; eauto |].
    apply run_episode_traced_Ok in Hrun as (fin & Hw & ->).
    pose proof (while_loop_runs _ _ _ _ _ Hw) as Hruns.
    destruct (runs_wf _ _ _ _ Hruns (Room_init_wf R C p seed))
      as (Hwf & _ & _ & _ & Hexit & Hev).
    destruct (runs_steps _ _ _ _ Hruns) as [Hlen Hle].
    destruct (runs_chain _ _ _ _ Hruns) as (Hfinal & Hhead & Hnext & Hstep).
    cbn [initial_state st_room st_pos st_steps] in Hlen, Hev, Hfinal, Hhead.
    fold room in Hfinal, Hhead.
    unfold result_of. fold room.
    cbn [res_rows res_cols initial_dirt steps_taken dirt_remaining cleaned_all].
    split; [reflexivity |]. split; [reflexivity |].
    split; [now apply dirt_count_wf |].
    split; [rewrite <- Hfinal; now apply dirt_count_wf |].
    split; [lia |]. split; [exact Hhead |]. split; [exact Hnext |].
    split; [| split; [tauto | split; [| reflexivity]]].
    + intros i e Hi. destruct (Hev i e Hi) as (H1 & H2 & _ & H3 & _).
      split; [lia |].
      split; [exists (dirt (ev_room e)); split; [now apply dirt_count_wf | exact H3] |].
      exact (Hstep i e Hi).
    + destruct tr as [|e tr]; [simpl in Hlen; lia |].
      assert (st_steps fin <= max_steps) by (apply Hle; discriminate). lia.
Qed.

Lemma run_episode_loop_condition_witness :
  in_bounds 3 3 (1, 1) /\
  exists res tr,
    run_episode_traced (RS := lcg_source) 3 3 (Finite (1 # 2)) 4 6 (1, 1)
      = Ok (res, tr) /\
    dirt_count (final_room (Room_init (RS := lcg_source) 3 3 (Finite (1 # 2)) 4) tr)
      = Ok (dirt_remaining res) /\
    steps_taken res = Z.of_nat (length tr) /\
    (dirt_remaining res = 0 \/ 6 <= steps_taken res) /\
    cleaned_all res = (dirt_remaining res =? 0).
Proof.
  assert (Hin : in_bounds 3 3 (1, 1)) by (unfold in_bounds; simpl; lia).
  split; [exact Hin |].
  destruct (run_episode_loop_condition (RS := lcg_source) 3 3 (Finite (1 # 2)) 4 6 (1, 1))
    as (_ & Htotal & _ & Hprops).
  destruct (Htotal Hin) as (res & tr & Hrun).
  exists res, tr. split; [exact Hrun |].
  destruct (Hprops res tr Hrun) as (_ & _ & _ & _ & H0 & H1 & _ & _ & _ & H2 & _ & H3).
  auto.
Defined.

(** C9.  [run_episode] is deterministic.  The outcome depends on the
    generator only through the rows*cols draws the constructor makes from
    the seeded generator, and on nothing else but the arguments: two runs
    with the same [rows], [cols], [max_steps] and [start], a [dirt_prob]
    that is the same number, and generators that give the same first
    rows*cols draws for their seeds (as one generator seeded twice with
    one seed does) have the same outcome, hence the same record; and they
    make the same iterations, with the same grids, positions and actions,
    in the same order. *)
Theorem run_episode_deterministic (RS1 RS2 : RandomSource)
    (R C : Z) (p1 p2 : pyfloat) (seed1 seed2 max_steps : Z) (start : Pos) :
  float_same p1 p2 ->
  (forall k, (k < Z.to_nat R * Z.to_nat C)%nat ->
     (nth_draw (RS := RS1) (Random seed1) k
      == nth_draw (RS := RS2) (Random seed2) k)%Q) ->
  run_episode (RS := RS1) R C p1 seed1 max_steps start
  = run_episode (RS := RS2) R C p2 seed2 max_steps start /\
  omap (fun rt => (fst rt, map forget_event (snd rt)))
    (run_episode_traced (RS := RS1) R C p1 seed1 max_steps start)
  = omap (fun rt => (fst rt, map forget_event (snd rt)))
      (run_episode_traced (RS := RS2) R C p2 seed2 max_steps start).
Proof.
  intros Hp Hd.
  pose proof (Room_init_agree RS1 RS2 R C p1 p2 seed1 seed2 Hp Hd) as Hroom.
  split.
  - rewrite (run_episode_forget (RS := RS1)), (run_episode_forget (RS := RS2)).
    unfold forget_state, initial_state. cbn [st_room st_agent st_pos st_steps].
    now rewrite Hroom.
  - rewrite (run_episode_traced_forget (RS := RS1)),
      (run_episode_traced_forget (RS := RS2)).
    unfold forget_state, initial_state. cbn [st_room st_agent st_pos st_steps].
    now rewrite Hroom.
Qed.

Lemma run_episode_deterministic_witness :
  float_same (Finite (1 # 2)) (Finite (2 # 4)) /\
  run_episode (RS := lcg_source) 3 3 (Finite (1 # 2)) 4 50 (0, 0)
  = run_episode (RS := lcg_source) 3 3 (Finite (2 # 4)) (4 + 2147483648) 50 (0, 0).
Proof.
  assert (Hp : float_same (Finite (1 # 2)) (Finite (2 # 4))) by reflexivity.
  split; [exact Hp |].
  apply (run_episode_deterministic lcg_source lcg_source 3 3
           (Finite (1 # 2)) (Finite (2 # 4)) 4 (4 + 2147483648) 50 (0, 0) Hp).
  intros k Hk.
  do 9 (destruct k as [|k]; [reflexivity |]).
  simpl in Hk. lia.
Defined.
